(** * Landing Judge: vote store, statistics, broadcast hub and audio cache

    A shallow embedding of [app.py] (the Flask server with the JSON vote
    log) and of the server half of [main.py] (the all-in-one build with the
    indexed Polly audio cache), together with the properties of them that
    the design document states, and further properties read off the code:
    of the statistics, the store, the hub and the event stream, the quotes
    and messages, the voices, and the routes of the overlay controls.

    Conventions.
    - Python [int] is [Z]; [str] is [string], read as UTF-8 bytes.  The
      character classes ([isspace], [isalnum], [isalpha], the digits) are
      given for ASCII text ([ascii_text]); on a character beyond ASCII
      Python asks the Unicode database, which is not embedded, and the
      properties that depend on a class are stated for ASCII text.
    - A value produced by [json.load] is a [json]; a Python [dict] keeps its
      insertion order and is an association list with one entry per key.
      JSON numbers with a fraction or an exponent are outside the model.
    - binary64 arithmetic is not evaluated: a [pyfloat] is the expression
      that produces the float; what is modelled of it is whether the
      quotient of two integers still is a float ([OverflowError]).
    - The order in which a [set] is iterated is settled by the interpreter
      (the hashes of a process); it is a part of what a request meets
      outside the program ([set_iteration]).
    - An exception is a [Raise] result; code that changes the world and may
      raise lives in the monad [py], where the state survives a raise. *)

From Stdlib Require Import ZArith String Ascii List Bool Lia Permutation Sorted.
From stdpp Require Import base option list gmap strings pretty.

Local Open Scope Z_scope.

(* ===================================================================== *)
(** ** Exceptions and results *)
(* ===================================================================== *)

(** The exception classes the two programs can meet.  [OtherError] stands
    for any other subclass of [Exception] (botocore's connection and
    credential errors, for instance). *)
Inductive exn : Type :=
| FileNotFoundError
| PermissionError
| JSONDecodeError
| AttributeError
| TypeError
| KeyError
| ValueError
| IndexError
| OverflowError
| UnicodeDecodeError
| Full
| ClientError
| OtherError.

Inductive result (A : Type) : Type :=
| Ok (a : A)
| Raise (e : exn).
Arguments Ok {A} a.
Arguments Raise {A} e.

Definition rbind {A B} (r : result A) (k : A -> result B) : result B :=
  match r with
  | Ok a => k a
  | Raise e => Raise e
  end.

(** The clause [except (FileNotFoundError, json.JSONDecodeError)]. *)
Definition missing_or_undecodable (e : exn) : bool :=
  match e with
  | FileNotFoundError | JSONDecodeError => true
  | _ => false
  end.

Fixpoint mapM {A B} (f : A -> result B) (l : list A) : result (list B) :=
  match l with
  | [] => Ok []
  | x :: r => rbind (f x) (fun y => rbind (mapM f r) (fun ys => Ok (y :: ys)))
  end.

(** State and exceptions: the state reached when the exception is raised is
    kept, as a file written before a failure stays written. *)
Definition py (S A : Type) : Type := S -> result A * S.

Definition ret {S A} (a : A) : py S A := fun s => (Ok a, s).
Definition raise {S A} (e : exn) : py S A := fun s => (Raise e, s).
Definition bind {S A B} (m : py S A) (k : A -> py S B) : py S B :=
  fun s => match m s with
           | (Ok a, s') => k a s'
           | (Raise e, s') => (Raise e, s')
           end.
Definition lift {S A} (r : result A) : py S A := fun s => (r, s).
Definition gets {S A} (f : S -> A) : py S A := fun s => (Ok (f s), s).
Definition modify {S} (f : S -> S) : py S unit := fun s => (Ok tt, f s).

(** [try: m  except Exception: h] *)
Definition try_catch {S A} (m : py S A) (h : py S A) : py S A :=
  fun s => match m s with
           | (Ok a, s') => (Ok a, s')
           | (Raise _, s') => h s'
           end.

(** [try: m  except <class>: h]; other exceptions pass through. *)
Definition try_catch_if {S A} (caught : exn -> bool) (m : py S A) (h : py S A)
  : py S A :=
  fun s => match m s with
           | (Ok a, s') => (Ok a, s')
           | (Raise e, s') => if caught e then h s' else (Raise e, s')
           end.

Declare Scope py_scope.
Delimit Scope py_scope with py.
Notation "x <- m ;; k" := (bind m (fun x => k))
  (at level 100, m at next level, right associativity) : py_scope.
Notation "m ;;; k" := (bind m (fun _ => k))
  (at level 100, right associativity) : py_scope.

(** [for x in l: body(x)] *)
Fixpoint for_each {S A} (l : list A) (body : A -> py S unit) : py S unit :=
  match l with
  | [] => ret tt
  | x :: r => (body x;;; for_each r body)%py
  end.

(* ===================================================================== *)
(** ** JSON values and the Python operations used on them *)
(* ===================================================================== *)

#[warnings="-register-all"]
Inductive json : Type :=
| JNull
| JBool (b : bool)
| JInt (n : Z)
| JStr (s : string)
| JList (l : list json)
| JDict (d : list (string * json)).

Definition dict : Type := list (string * json).

Fixpoint dict_get (k : string) (d : dict) : option json :=
  match d with
  | [] => None
  | (k', v) :: r => if String.eqb k k' then Some v else dict_get k r
  end.

(** [d[k] = v]: an existing key keeps its position, a new one goes last. *)
Fixpoint dict_set (k : string) (v : json) (d : dict) : dict :=
  match d with
  | [] => [(k, v)]
  | (k', v') :: r =>
      if String.eqb k k' then (k', v) :: r else (k', v') :: dict_set k v r
  end.

(** [x.get(k, default)]: only a dict has [get]. *)
Definition py_get (x : json) (k : string) (default : json) : result json :=
  match x with
  | JDict d => Ok (from_option id default (dict_get k d))
  | _ => Raise AttributeError
  end.

(** Truth value of a Python object. *)
Definition truthy (x : json) : bool :=
  match x with
  | JNull => false
  | JBool b => b
  | JInt n => negb (n =? 0)
  | JStr s => negb (String.eqb s "")
  | JList l => match l with [] => false | _ => true end
  | JDict d => match d with [] => false | _ => true end
  end.

(** The text has no character beyond ASCII. *)
Definition ascii_text (s : string) : Prop :=
  Forall (fun c => (nat_of_ascii c < 128)%nat) (list_ascii_of_string s).

(** [c.isspace()] on ASCII: the blanks of [str.strip] and [str.split]. *)
Definition is_space (c : ascii) : bool :=
  let n := nat_of_ascii c in
  ((9 <=? n) && (n <=? 13) || (28 <=? n) && (n <=? 32))%nat.

(** The blanks [int] skips around a literal: the file, group, record and
    unit separators (28 to 31) are not among them. *)
Definition is_int_space (c : ascii) : bool :=
  let n := nat_of_ascii c in
  ((9 <=? n) && (n <=? 13) || (n =? 32))%nat.

Definition is_digit (c : ascii) : bool :=
  let n := nat_of_ascii c in ((48 <=? n) && (n <=? 57))%nat.

Definition is_alpha (c : ascii) : bool :=
  let n := nat_of_ascii c in
  ((65 <=? n) && (n <=? 90) || (97 <=? n) && (n <=? 122))%nat.

Definition is_alnum (c : ascii) : bool := is_alpha c || is_digit c.

Definition digit_value (c : ascii) : Z := Z.of_nat (nat_of_ascii c) - 48.

Fixpoint lstrip_by (blank : ascii -> bool) (l : list ascii) : list ascii :=
  match l with
  | c :: r => if blank c then lstrip_by blank r else l
  | [] => []
  end.

Definition strip_by (blank : ascii -> bool) (l : list ascii) : list ascii :=
  rev (lstrip_by blank (rev (lstrip_by blank l))).

Definition strip_chars : list ascii -> list ascii := strip_by is_space.

(** [s.strip()] *)
Definition py_strip (s : string) : string :=
  string_of_list_ascii (strip_chars (list_ascii_of_string s)).

(** The digits of an integer literal: [digit (["_"] digit)*]. *)
Fixpoint digits_value (acc : Z) (after_digit : bool) (l : list ascii)
  : option Z :=
  match l with
  | [] => if after_digit then Some acc else None
  | c :: r =>
      if is_digit c then digits_value (10 * acc + digit_value c) true r
      else if Ascii.eqb c "_" && after_digit then
             match r with
             | [] => None
             | _ => digits_value acc false r
             end
           else None
  end.

(** [sys.get_int_max_str_digits()]: a decimal literal with more digits is
    refused, and so is the decimal form of an integer that needs more. *)
Definition int_max_str_digits : nat := 4300.

(** [int(s)] for a string of ASCII text: blanks around, an optional sign,
    the digits, of which there are at most [int_max_str_digits] (every
    digit counts, a leading zero too).  Beyond ASCII [int] also reads the
    decimal digits and the blanks of the other scripts; here such a string
    is refused, so [Ok] is [int]'s answer for every string, and [Raise] is
    for ASCII text. *)
Definition int_of_str (s : string) : result Z :=
  let body := strip_by is_int_space (list_ascii_of_string s) in
  let parsed :=
    match body with
    | c :: r =>
        if Ascii.eqb c "-" then Z.opp <$> digits_value 0 false r
        else if Ascii.eqb c "+" then digits_value 0 false r
        else digits_value 0 false body
    | [] => None
    end in
  match parsed with
  | Some n =>
      if (int_max_str_digits <? length (filter (fun c => is_digit c = true) body))%nat
      then Raise ValueError
      else Ok n
  | None => Raise ValueError
  end.

(** [int(x)] *)
Definition py_int (x : json) : result Z :=
  match x with
  | JInt n => Ok n
  | JBool b => Ok (if b then 1 else 0)
  | JStr s => int_of_str s
  | JNull | JList _ | JDict _ => Raise TypeError
  end.

(** [str(n)] for an integer. *)
Definition str_of_int (n : Z) : string := pretty n.

(* ===================================================================== *)
(** ** Files *)
(* ===================================================================== *)

(** What [json.load] makes of a file: [Document j] is a text that parses to
    [j] (and [json.dump] of [j] writes such a text); [Binary] is any content
    that is not JSON text, with its bytes. *)
Inductive fdata : Type :=
| Binary (bytes : string)
| Document (j : json).

Definition in_range (lo hi : nat) (c : ascii) : bool :=
  let n := nat_of_ascii c in ((lo <=? n) && (n <=? hi))%nat.

(** Well-formed UTF-8 (the Unicode Standard, table 3-7), which a file
    opened with [encoding="utf-8"] must be to be read. *)
Fixpoint utf8_valid (l : list ascii) : bool :=
  match l with
  | [] => true
  | a :: r =>
      if in_range 0 127 a then utf8_valid r
      else if in_range 194 223 a then
        match r with
        | b :: r' => in_range 128 191 b && utf8_valid r'
        | _ => false
        end
      else if in_range 224 239 a then
        match r with
        | b :: c :: r' =>
            (if in_range 224 224 a then in_range 160 191 b
             else if in_range 237 237 a then in_range 128 159 b
             else in_range 128 191 b)
            && in_range 128 191 c && utf8_valid r'
        | _ => false
        end
      else if in_range 240 244 a then
        match r with
        | b :: c :: d :: r' =>
            (if in_range 240 240 a then in_range 144 191 b
             else if in_range 244 244 a then in_range 128 143 b
             else in_range 128 191 b)
            && in_range 128 191 c && in_range 128 191 d && utf8_valid r'
        | _ => false
        end
      else false
  end.

Record file : Type := { readable : bool; data : fdata }.

(** Regular files by path, and the paths that are directories.  Of the
    permissions only the read bit of a file is modelled; a path that is a
    directory cannot be opened or replaced as a file. *)
Record filesystem : Type := {
  files : gmap string file;
  dirs : gset string;
}.

Definition set_files (f : gmap string file -> gmap string file)
    (fs : filesystem) : filesystem :=
  {| files := f (files fs); dirs := dirs fs |}.

Module Fs.

(** [Path.exists()] *)
Definition path_exists (p : string) (fs : filesystem) : bool :=
  bool_decide (is_Some (files fs !! p)) || bool_decide (p ∈ dirs fs).

(** The bytes-or-document read by [open(p, "r")]. *)
Definition open_read (p : string) : py filesystem fdata := fun fs =>
  if bool_decide (p ∈ dirs fs) then (Raise OtherError, fs)
  else match files fs !! p with
       | None => (Raise FileNotFoundError, fs)
       | Some f => if readable f then (Ok (data f), fs)
                   else (Raise PermissionError, fs)
       end.

(** [with open(p, 'r', encoding='utf-8') as f: json.load(f)]: bytes that
    are not UTF-8 fail in the read, a text that is not JSON in the
    parse. *)
Definition load_json (p : string) : py filesystem json :=
  (d <- open_read p;;
   match d with
   | Document j => ret j
   | Binary bytes =>
       if utf8_valid (list_ascii_of_string bytes) then raise JSONDecodeError
       else raise UnicodeDecodeError
   end)%py.

(** [open(p, "w")] and a write: a new file is readable, an existing one
    keeps its mode. *)
Definition write_file (p : string) (d : fdata) : py filesystem unit := fun fs =>
  if bool_decide (p ∈ dirs fs) then (Raise OtherError, fs)
  else
    let mode := from_option readable true (files fs !! p) in
    (Ok tt, set_files (insert p {| readable := mode; data := d |}) fs).

(** [os.replace(src, dst)] *)
Definition os_replace (src dst : string) : py filesystem unit := fun fs =>
  if bool_decide (dst ∈ dirs fs) then (Raise OtherError, fs)
  else match files fs !! src with
       | None => (Raise FileNotFoundError, fs)
       | Some f => (Ok tt, set_files (fun m => <[dst := f]> (delete src m)) fs)
       end.

(** [Path.mkdir(exist_ok=True)], with or without [parents=True]: the
    parents are not tracked. *)
Definition mkdir (p : string) : py filesystem unit := fun fs =>
  if bool_decide (is_Some (files fs !! p)) then (Raise OtherError, fs)
  else (Ok tt, {| files := files fs; dirs := {[p]} ∪ dirs fs |}).

(** [a / b] on paths: an empty [b] leaves [a], an absolute [b] replaces
    it. *)
Definition join (a b : string) : string :=
  match b with
  | EmptyString => a
  | String c _ => if Ascii.eqb c "/" then b else a +:+ "/" +:+ b
  end.

(** [Path.parent]: the path up to its last ["/"], ["."] when there is
    none. *)
Fixpoint parent_chars (l : list ascii) : option (list ascii) :=
  match l with
  | [] => None
  | c :: r =>
      match parent_chars r with
      | Some d => Some (c :: d)
      | None => if Ascii.eqb c "/" then Some [] else None
      end
  end.

Definition parent (p : string) : string :=
  match parent_chars (list_ascii_of_string p) with
  | Some [] => "/"
  | Some d => string_of_list_ascii d
  | None => "."
  end.

End Fs.

(* ===================================================================== *)
(** ** The vote store ([DataStore] of app.py) *)
(* ===================================================================== *)

Module DataStore.

Definition empty_log : json := JDict [("landings", JList [])].

(** The dict literal [{"score": int(score), "ts": ts}]. *)
Definition record (score : Z) (ts : string) : json :=
  JDict [("score", JInt score); ("ts", JStr ts)].

Definition _atomic_write (path : string) (data : json) : py filesystem unit :=
  (let tmp := path +:+ ".tmp" in
   Fs.write_file tmp (Document data);;;
   Fs.os_replace tmp path)%py.

Definition _read (path : string) : py filesystem json := Fs.load_json path.

(** The test of [_ensure_file], negated: a dict with a list under
    ["landings"]. *)
Definition valid_structure (data : json) : bool :=
  match data with
  | JDict d => match dict_get "landings" d with
               | Some (JList _) => true
               | _ => false
               end
  | _ => false
  end.

Definition _ensure_file (path : string) : py filesystem unit :=
  (present <- gets (Fs.path_exists path);;
   if negb present then _atomic_write path empty_log
   else
     try_catch
       (data <- _read path;;
        if negb (valid_structure data) then raise ValueError else ret tt)
       (_atomic_write path empty_log))%py.

(** [DataStore(path)] *)
Definition __init__ (path : string) : py filesystem unit :=
  (Fs.mkdir (Fs.parent path);;;
   _ensure_file path)%py.

(** [data.setdefault(key, []).append(item)] *)
Definition setdefault_append (data : json) (key : string) (item : json)
  : result json :=
  match data with
  | JDict d =>
      match dict_get key d with
      | Some (JList l) => Ok (JDict (dict_set key (JList (l ++ [item])) d))
      | Some _ => Raise AttributeError
      | None => Ok (JDict (dict_set key (JList [item]) d))
      end
  | _ => Raise AttributeError
  end.

Definition append (path : string) (score : Z) (ts : string)
  : py filesystem unit :=
  (data <- try_catch (_read path) (ret empty_log);;
   data' <- lift (setdefault_append data "landings" (record score ts));;
   _atomic_write path data')%py.

Definition reset (path : string) : py filesystem unit :=
  _atomic_write path empty_log.

Definition get_landings (path : string) : py filesystem (list json) :=
  (data <- try_catch (_read path) (ret empty_log);;
   landings <- lift (py_get data "landings" (JList []));;
   match landings with
   | JList l => ret l
   | _ => ret []
   end)%py.

End DataStore.

(* ===================================================================== *)
(** ** Statistics ([compute_stats] of app.py) *)
(* ===================================================================== *)

(** A float is kept as the expression that computes it. *)
Inductive pyfloat : Type :=
| FloatZero                         (* the literal 0.0 *)
| Round2Div (total : Z) (count : Z) (* round(total / count, 2) *)
| FloatOf (text : string)           (* float(text) *)
| OrZero (x : pyfloat).             (* float(x or 0.0) *)

Module Stats.

Record stats : Type := {
  count : Z;
  average : pyfloat;
  best : Z;
  recent : list Z;
  top : list Z;
}.

(** The sort key [(-t[1], t[0])] and the order of Python tuples on it. *)
Definition sort_key (t : nat * Z) : Z * nat := (- snd t, fst t).

Definition key_leb (a b : Z * nat) : bool :=
  (fst a <? fst b) || ((fst a =? fst b) && (snd a <=? snd b)%nat).

(** [list.sort(key=...)] is a stable sort; on a list it is modelled by the
    stable insertion sort. *)
Fixpoint insert_by {A K} (leb : K -> K -> bool) (key : A -> K) (x : A)
    (l : list A) : list A :=
  match l with
  | [] => [x]
  | y :: r => if leb (key x) (key y) then x :: l
              else y :: insert_by leb key x r
  end.

Fixpoint sort_by {A K} (leb : K -> K -> bool) (key : A -> K) (l : list A)
  : list A :=
  match l with
  | [] => []
  | x :: r => insert_by leb key x (sort_by leb key r)
  end.

(** [enumerate(l)], counting from [i]. *)
Fixpoint enumerate_from {A} (i : nat) (l : list A) : list (nat * A) :=
  match l with
  | [] => []
  | x :: r => (i, x) :: enumerate_from (S i) r
  end.

Definition enumerate {A} (l : list A) : list (nat * A) := enumerate_from 0 l.

Definition sum (l : list Z) : Z := fold_left Z.add l 0.

(** [max(l)] on a non-empty list. *)
Definition max_of (x : Z) (l : list Z) : Z := fold_left Z.max l x.

(** [l[-n:]] *)
Definition last_n {A} (n : nat) (l : list A) : list A :=
  skipn (length l - n) l.

(** [int(x.get("score", 0))] *)
Definition score_of (x : json) : result Z :=
  rbind (py_get x "score" (JInt 0)) py_int.

(** [total / count] for a positive [count]: the quotient of two ints is the
    binary64 nearest to it, and an [OverflowError] when that lies beyond
    the largest one, which is so from [2^1024 - 2^970] on. *)
Definition true_div_overflows (total count : Z) : bool :=
  (2 ^ 1024 - 2 ^ 970) * count <=? Z.abs total.

(** [round(sum(scores) / count, 2) if count else 0.0] *)
Definition average_of (scores : list Z) : result pyfloat :=
  let count := Z.of_nat (length scores) in
  if negb (count =? 0)
  then if true_div_overflows (sum scores) count then Raise OverflowError
       else Ok (Round2Div (sum scores) count)
  else Ok FloatZero.

(** The body of [compute_stats] once the scores are extracted and the
    average is computed. *)
Definition stats_of_scores (scores : list Z) (average : pyfloat) : stats :=
  let count := Z.of_nat (length scores) in
  let best := match scores with [] => 0 | x :: r => max_of x r end in
  let recent := rev (last_n 10 scores) in
  let indexed := sort_by key_leb sort_key (enumerate scores) in
  let top := map snd (firstn 5 indexed) in
  {| count := count; average := average; best := best;
     recent := recent; top := top |}.

Definition compute_stats (landings : list json) : result stats :=
  rbind (mapM score_of landings) (fun scores =>
  rbind (average_of scores) (fun average =>
  Ok (stats_of_scores scores average))).

End Stats.

(* ===================================================================== *)
(** ** The broadcast hub ([SSEHub], the same class in both programs) *)
(* ===================================================================== *)

Module SSEHub.

Section Payload.

Context {payload : Type}.

(** A [queue.Queue]: [maxsize = 0] is unbounded. *)
Record queue : Type := { maxsize : nat; items : list payload }.

(** The [Queue] objects by address, and the hub's list [clients] of
    addresses. *)
Record hub : Type := {
  queues : gmap nat queue;
  clients : list nat;
}.

(** [Queue()] *)
Definition new_queue : queue := {| maxsize := 0; items := [] |}.

(** [q.put_nowait(item)] *)
Definition put_nowait (item : payload) (q : queue) : result queue :=
  if ((0 <? maxsize q) && (maxsize q <=? length (items q)))%nat
  then Raise Full
  else Ok {| maxsize := maxsize q; items := items q ++ [item] |}.

(** [put_nowait] on the queue at an address (every registered address
    holds a queue; a dangling one would raise all the same). *)
Definition put_nowait_at (a : nat) (item : payload) : py hub unit := fun h =>
  match queues h !! a with
  | None => (Raise AttributeError, h)
  | Some q =>
      match put_nowait item q with
      | Ok q' => (Ok tt, {| queues := <[a := q']> (queues h);
                            clients := clients h |})
      | Raise e => (Raise e, h)
      end
  end.

Definition register : py hub nat := fun h =>
  let a := fresh (dom (queues h)) in
  (Ok a, {| queues := <[a := new_queue]> (queues h);
            clients := clients h ++ [a] |}).

(** [list.remove(x)]: the first occurrence goes, [ValueError] when there is
    none. *)
Fixpoint list_remove (a : nat) (l : list nat) : result (list nat) :=
  match l with
  | [] => Raise ValueError
  | b :: r => if Nat.eqb a b then Ok r
              else rbind (list_remove a r) (fun r' => Ok (b :: r'))
  end.

Definition unregister (a : nat) : py hub unit :=
  try_catch_if (fun e => match e with ValueError => true | _ => false end)
    (fun h => match list_remove a (clients h) with
              | Ok l => (Ok tt, {| queues := queues h; clients := l |})
              | Raise e => (Raise e, h)
              end)
    (ret tt).

Definition broadcast (item : payload) : py hub unit :=
  (clients_snapshot <- gets clients;;
   for_each clients_snapshot
     (fun q => try_catch (put_nowait_at q item) (ret tt)))%py.

End Payload.

Arguments queue : clear implicits.
Arguments hub : clear implicits.

End SSEHub.

(* ===================================================================== *)
(** ** MD5 ([hashlib.md5], RFC 1321) on 32-bit words kept in [Z] *)
(* ===================================================================== *)

Module MD5.

Definition w32 (x : Z) : Z := Z.land x 0xffffffff.

Definition rotl (x c : Z) : Z :=
  w32 (Z.lor (Z.shiftl x c) (Z.shiftr x (32 - c))).

Definition lnot32 (x : Z) : Z := Z.lxor x 0xffffffff.

(** [floor(2^32 * abs(sin(i + 1)))] *)
Definition K : list Z :=
  [0xd76aa478; 0xe8c7b756; 0x242070db; 0xc1bdceee;
   0xf57c0faf; 0x4787c62a; 0xa8304613; 0xfd469501;
   0x698098d8; 0x8b44f7af; 0xffff5bb1; 0x895cd7be;
   0x6b901122; 0xfd987193; 0xa679438e; 0x49b40821;
   0xf61e2562; 0xc040b340; 0x265e5a51; 0xe9b6c7aa;
   0xd62f105d; 0x02441453; 0xd8a1e681; 0xe7d3fbc8;
   0x21e1cde6; 0xc33707d6; 0xf4d50d87; 0x455a14ed;
   0xa9e3e905; 0xfcefa3f8; 0x676f02d9; 0x8d2a4c8a;
   0xfffa3942; 0x8771f681; 0x6d9d6122; 0xfde5380c;
   0xa4beea44; 0x4bdecfa9; 0xf6bb4b60; 0xbebfbc70;
   0x289b7ec6; 0xeaa127fa; 0xd4ef3085; 0x04881d05;
   0xd9d4d039; 0xe6db99e5; 0x1fa27cf8; 0xc4ac5665;
   0xf4292244; 0x432aff97; 0xab9423a7; 0xfc93a039;
   0x655b59c3; 0x8f0ccc92; 0xffeff47d; 0x85845dd1;
   0x6fa87e4f; 0xfe2ce6e0; 0xa3014314; 0x4e0811a1;
   0xf7537e82; 0xbd3af235; 0x2ad7d2bb; 0xeb86d391].

Definition shifts : list Z :=
  [7; 12; 17; 22; 7; 12; 17; 22; 7; 12; 17; 22; 7; 12; 17; 22;
   5; 9; 14; 20; 5; 9; 14; 20; 5; 9; 14; 20; 5; 9; 14; 20;
   4; 11; 16; 23; 4; 11; 16; 23; 4; 11; 16; 23; 4; 11; 16; 23;
   6; 10; 15; 21; 6; 10; 15; 21; 6; 10; 15; 21; 6; 10; 15; 21].

Record state : Type := { va : Z; vb : Z; vc : Z; vd : Z }.

Definition init : state :=
  {| va := 0x67452301; vb := 0xefcdab89; vc := 0x98badcfe; vd := 0x10325476 |}.

(** One of the 64 operations on the block [m]. *)
Definition step (m : list Z) (s : state) (i : Z) : state :=
  let '(f, g) :=
    if i <? 16 then
      (Z.lor (Z.land (vb s) (vc s)) (Z.land (lnot32 (vb s)) (vd s)), i)
    else if i <? 32 then
      (Z.lor (Z.land (vd s) (vb s)) (Z.land (lnot32 (vd s)) (vc s)),
       (5 * i + 1) mod 16)
    else if i <? 48 then
      (Z.lxor (vb s) (Z.lxor (vc s) (vd s)), (3 * i + 5) mod 16)
    else
      (Z.lxor (vc s) (Z.lor (vb s) (lnot32 (vd s))), (7 * i) mod 16) in
  let n := Z.to_nat i in
  let f' := w32 (f + va s + nth n K 0 + nth (Z.to_nat g) m 0) in
  {| va := vd s; vd := vc s; vc := vb s;
     vb := w32 (vb s + rotl f' (nth n shifts 0)) |}.

Definition block (s : state) (m : list Z) : state :=
  let r := fold_left (step m) (map Z.of_nat (seq 0 64)) s in
  {| va := w32 (va s + va r); vb := w32 (vb s + vb r);
     vc := w32 (vc s + vc r); vd := w32 (vd s + vd r) |}.

(** Little-endian bytes of a word. *)
Definition le_bytes (k : nat) (x : Z) : list Z :=
  map (fun i => Z.land (Z.shiftr x (8 * Z.of_nat i)) 0xff) (seq 0 k).

Fixpoint le_words (fuel : nat) (l : list Z) : list Z :=
  match fuel, l with
  | S fuel', b0 :: b1 :: b2 :: b3 :: r =>
      (b0 + Z.shiftl b1 8 + Z.shiftl b2 16 + Z.shiftl b3 24)
        :: le_words fuel' r
  | _, _ => []
  end.

Fixpoint blocks (fuel : nat) (ws : list Z) : list (list Z) :=
  match fuel, ws with
  | S fuel', _ :: _ => firstn 16 ws :: blocks fuel' (skipn 16 ws)
  | _, _ => []
  end.

Definition pad (msg : list Z) : list Z :=
  let len := Z.of_nat (length msg) in
  msg ++ [0x80] ++ repeat 0 (Z.to_nat ((55 - len) mod 64))
      ++ le_bytes 8 (Z.land (8 * len) 0xffffffffffffffff).

Definition digest (msg : list Z) : list Z :=
  let bytes := pad msg in
  let ws := le_words (length bytes) bytes in
  let s := fold_left block (blocks (length ws) ws) init in
  le_bytes 4 (va s) ++ le_bytes 4 (vb s) ++ le_bytes 4 (vc s)
    ++ le_bytes 4 (vd s).

Definition hex_digit (n : Z) : ascii :=
  ascii_of_nat (Z.to_nat (if n <? 10 then 48 + n else 87 + n)).

Definition hex_of_bytes (l : list Z) : string :=
  string_of_list_ascii
    (flat_map (fun b => [hex_digit (Z.shiftr b 4); hex_digit (Z.land b 15)]) l).

(** [hashlib.md5(s.encode("utf-8")).hexdigest()] *)
Definition hexdigest (s : string) : string :=
  hex_of_bytes
    (digest (map (fun c => Z.of_nat (nat_of_ascii c)) (list_ascii_of_string s))).

End MD5.


(** [hashlib.md5(s.encode("utf-8")).hexdigest()[:12]] *)
Definition md5_hex12 (s : string) : string :=
  String.substring 0 12 (MD5.hexdigest s).

(* ===================================================================== *)
(** ** Amazon Polly as the programs see it, and Flask's dispatch *)
(* ===================================================================== *)

(** The outcome of [synthesize_speech]: the audio stream, a
    [botocore.exceptions.ClientError], or any other exception. *)
Inductive speech : Type :=
| Audio (bytes : string)
| Refused
| Failed.

Record voice : Type := {
  Id : string;
  LanguageName : string;
  LanguageCode : string;
}.

(** The service: [describe_voices region engine] is the voices of the pages
    received before a failure, if any;
    [synthesize_speech region Text OutputFormat VoiceId Engine]. *)
Record polly : Type := {
  describe_voices : string -> string -> list voice;
  synthesize_speech :
    string -> string -> string -> string -> option string -> speech;
}.

(** The requests sent to the service, latest last. *)
Inductive polly_call : Type :=
| DescribeVoices (region engine : string)
| SynthesizeSpeech (region text format voice : string)
    (engine : option string).

Definition is_synthesis (c : polly_call) : bool :=
  match c with
  | SynthesizeSpeech _ _ _ _ _ => true
  | DescribeVoices _ _ => false
  end.

Definition is_client_error (e : exn) : bool :=
  match e with
  | ClientError => true
  | _ => false
  end.

Definition speech_result (s : speech) : result string :=
  match s with
  | Audio bytes => Ok bytes
  | Refused => Raise ClientError
  | Failed => Raise OtherError
  end.

(** Werkzeug's [int] converter, as the rule ["/vote/<int:score>"] uses it:
    a segment matches when it is a non-empty run of digits, without a
    sign, that [int] converts, which it does up to [int_max_str_digits]
    digits.  The digits are the ASCII ones: a segment with a digit of
    another script, which the converter reads too, is not matched here. *)
Definition int_converter (segment : string) : option Z :=
  let l := list_ascii_of_string segment in
  if forallb is_digit l && (length l <=? int_max_str_digits)%nat
  then fold_left (fun acc c => option_map (fun a => 10 * a + digit_value c) acc)
         l (match l with [] => None | _ => Some 0 end)
  else None.

(** A response: the status code and, for a JSON answer, its body. *)
Record response (A : Type) : Type := { status : Z; body : option A }.
Arguments status {A} r.
Arguments body {A} r.

(** A view function under Flask: [jsonify] of its value answers 200, an
    exception that escapes it answers 500. *)
Definition flask_view {S A} (view : py S A) (s : S) : response A * S :=
  match view s with
  | (Ok a, s') => ({| status := 200; body := Some a |}, s')
  | (Raise _, s') => ({| status := 500; body := None |}, s')
  end.

Definition not_found {S A} (s : S) : response A * S :=
  ({| status := 404; body := None |}, s).

(** [random.choice(seq)] with the number drawn: the element of a list, the
    character of a string; a dict has no integer key, a number no
    length. *)
Definition random_choice (drawn : nat) (seq : json) : result json :=
  match seq with
  | JList l =>
      match l !! (drawn mod length l)%nat with
      | Some x => Ok x
      | None => Raise IndexError
      end
  | JStr s =>
      match String.get (drawn mod String.length s)%nat s with
      | Some c => Ok (JStr (String c EmptyString))
      | None => Raise IndexError
      end
  | JDict [] => Raise IndexError
  | JDict _ => Raise KeyError
  | JNull | JBool _ | JInt _ => Raise TypeError
  end.

(** [max(1, min(10, int(score)))] *)
Definition clamp (score : Z) : Z := Z.max 1 (Z.min 10 score).

(** [level_for_score], the same in both programs. *)
Definition level_for_score (score : Z) : string :=
  if score <=? 3 then "bad"
  else if score <=? 6 then "ok"
  else if score <=? 8 then "good"
  else "great".

(** A computation on a part of the state. *)
Definition zoom {S T A} (get : S -> T) (set : T -> S -> S) (m : py T A)
  : py S A :=
  fun s => let '(r, t) := m (get s) in (r, set t s).

(* ===================================================================== *)
(** ** app.py: quotes, audio and the routes *)
(* ===================================================================== *)

Module App.

(** The module constants, read from the environment at import. *)
Record settings : Type := {
  BANNER_DURATION_MS : Z;
  DATA_FILE : string;
  QUOTES_FILE : string;
  AWS_ACCESS_KEY_ID : option string;
  AWS_SECRET_ACCESS_KEY : option string;
  AWS_REGION : string;
  POLLY_VOICE_ID : string;
  POLLY_OUTPUT_FORMAT : string;
}.

(** What a request meets outside the process: the service, the number
    [random] draws, the clock ([utc_now_iso]). *)
Record outside : Type := {
  aws : polly;
  drawn : nat;
  utc_now_iso : string;
}.

Definition SCORE_MESSAGES (score : Z) : option string :=
  match score with
  | 1 => Some "Mayday? That was‚Ä¶ educational."
  | 2 => Some "Hard arrival. Teeth still rattling."
  | 3 => Some "Firm. The landing gear filed a complaint."
  | 4 => Some "Not bad, not smooth. We felt it."
  | 5 => Some "Acceptable. Coffee only trembled."
  | 6 => Some "Decent touch. Cabin crew kept pouring."
  | 7 => Some "Nice! Most passengers missed it."
  | 8 => Some "Smooth operator. Butter adjacent."
  | 9 => Some "Greased it. Polite applause engaged."
  | 10 => Some "Absolute butter. Chief pilot approved!"
  | _ => None
  end.

(** The event [{"type": "vote", ...}]. *)
Record vote_payload : Type := {
  score : Z;
  message : string;
  quote : json;
  audio_url : string;
  level : string;
  duration_ms : Z;
  ts : string;
}.

(** What travels through the hub: [{"type": "hello"}] or a vote. *)
Inductive event : Type :=
| Hello
| Vote (p : vote_payload).

Record world : Type := {
  fs : filesystem;
  hub : SSEHub.hub event;
  polly_calls : list polly_call;
}.

Definition on_fs {A} : py filesystem A -> py world A :=
  zoom fs (fun t w => {| fs := t; hub := hub w;
                         polly_calls := polly_calls w |}).

Definition on_hub {A} : py (SSEHub.hub event) A -> py world A :=
  zoom hub (fun t w => {| fs := fs w; hub := t;
                          polly_calls := polly_calls w |}).

(** A request to the service is logged, then answered. *)
Definition call_polly {A} (c : polly_call) (answer : result A) : py world A :=
  fun w => (answer, {| fs := fs w; hub := hub w;
                       polly_calls := polly_calls w ++ [c] |}).

Definition load_quotes (cfg : settings) : py filesystem json :=
  try_catch_if missing_or_undecodable
    (data <- Fs.load_json (QUOTES_FILE cfg);;
     lift (py_get data "quotes" (JDict [])))%py
    (ret (JDict [])).

Definition get_random_quote (cfg : settings) (env : outside) (score : Z)
  : py filesystem json :=
  (quotes <- load_quotes cfg;;
   score_quotes <- lift (py_get quotes (str_of_int score) (JList []));;
   if truthy score_quotes then lift (random_choice (drawn env) score_quotes)
   else ret (JStr "Well, that happened."))%py.

(** [text.encode("utf-8")]: only a string has it. *)
Definition encode (text : json) : result string :=
  match text with
  | JStr s => Ok s
  | _ => Raise AttributeError
  end.

Definition present (key : option string) : bool :=
  match key with
  | Some k => negb (String.eqb k "")
  | None => false
  end.

Definition generate_audio_url (cfg : settings) (env : outside) (text : json)
  : py world string :=
  if negb (present (AWS_ACCESS_KEY_ID cfg))
     || negb (present (AWS_SECRET_ACCESS_KEY cfg))
  then ret ""
  else
    try_catch
      (bytes <- lift (encode text);;
       let text_hash := md5_hex12 bytes in
       let audio_filename :=
         "quote_" +:+ text_hash +:+ "." +:+ POLLY_OUTPUT_FORMAT cfg in
       let audio_path := Fs.join "static" audio_filename in
       cached <- on_fs (gets (Fs.path_exists audio_path));;
       if cached then ret ("/static/" +:+ audio_filename)
       else
         audio <- call_polly
                    (SynthesizeSpeech (AWS_REGION cfg) bytes
                       (POLLY_OUTPUT_FORMAT cfg) (POLLY_VOICE_ID cfg) None)
                    (speech_result
                       (synthesize_speech (aws env) (AWS_REGION cfg) bytes
                          (POLLY_OUTPUT_FORMAT cfg) (POLLY_VOICE_ID cfg)
                          None));;
         on_fs (Fs.mkdir (Fs.parent audio_path));;;
         on_fs (Fs.write_file audio_path (Binary audio));;;
         ret ("/static/" +:+ audio_filename))%py
      (ret "").

Definition vote (cfg : settings) (env : outside) (score : Z)
  : py world vote_payload :=
  (let clamped := clamp score in
   let ts := utc_now_iso env in
   quote <- on_fs (get_random_quote cfg env clamped);;
   audio_url <- generate_audio_url cfg env quote;;
   let payload :=
     {| score := clamped;
        message := from_option id "" (SCORE_MESSAGES clamped);
        quote := quote;
        audio_url := audio_url;
        level := level_for_score clamped;
        duration_ms := BANNER_DURATION_MS cfg;
        ts := ts |} in
   on_hub (SSEHub.broadcast (Vote payload));;;
   ret payload)%py.

(** The body [{"ok": true}] of the answer to [POST /reset]. *)
Inductive reset_body : Type := OkTrue.

Definition reset : py world reset_body :=
  (on_hub (SSEHub.broadcast Hello);;;
   ret OkTrue)%py.

Definition stats (cfg : settings) : py world Stats.stats :=
  (landings <- on_fs (DataStore.get_landings (DATA_FILE cfg));;
   lift (Stats.compute_stats landings))%py.

(** [GET /vote/<int:score>] *)
Definition get_vote (cfg : settings) (env : outside) (segment : string)
    (w : world) : response vote_payload * world :=
  match int_converter segment with
  | Some n => flask_view (vote cfg env n) w
  | None => not_found w
  end.

(** [POST /reset] *)
Definition post_reset (w : world) : response reset_body * world :=
  flask_view reset w.

End App.

(* ===================================================================== *)
(** ** main.py: quotes, the indexed audio cache and the vote route *)
(* ===================================================================== *)

(** More of [str]. *)
Definition py_lower (s : string) : string :=
  string_of_list_ascii
    (map (fun c => let n := nat_of_ascii c in
                   if ((65 <=? n) && (n <=? 90))%nat
                   then ascii_of_nat (n + 32) else c)
       (list_ascii_of_string s)).

(** [sub in s] *)
Definition contains (sub s : string) : bool :=
  match String.index 0 sub s with
  | Some _ => true
  | None => false
  end.

(** [s.replace(old, new)] for a non-empty [old]. *)
Fixpoint replace_from (fuel : nat) (old new s : string) : string :=
  match fuel with
  | O => s
  | S fuel' =>
      if String.prefix old s
      then new +:+ replace_from fuel' old new
                     (String.substring (String.length old)
                        (String.length s - String.length old) s)
      else match s with
           | EmptyString => EmptyString
           | String c r => String c (replace_from fuel' old new r)
           end
  end.

Definition py_replace (old new s : string) : string :=
  replace_from (String.length s) old new s.

(** [s.split()]: the runs of characters between blanks. *)
Fixpoint split_go (cur : list ascii) (l : list ascii) : list string :=
  match l with
  | [] => match cur with
          | [] => []
          | _ => [string_of_list_ascii (rev cur)]
          end
  | c :: r =>
      if is_space c
      then match cur with
           | [] => split_go [] r
           | _ => string_of_list_ascii (rev cur) :: split_go [] r
           end
      else split_go (c :: cur) r
  end.

Definition py_split (s : string) : list string :=
  split_go [] (list_ascii_of_string s).

(** [s.isalpha()] on ASCII text. *)
Definition py_isalpha (s : string) : bool :=
  let l := list_ascii_of_string s in
  match l with
  | [] => false
  | _ => forallb is_alpha l
  end.

(** [max(l, key=len)]: the first of the longest. *)
Definition longest (x : string) (l : list string) : string :=
  fold_left (fun best t =>
               if (String.length best <? String.length t)%nat then t else best)
    l x.

(** The double quote. *)
Definition dquote : ascii := ascii_of_nat 34.

(** A character inside [repr] of a string that is quoted with [quote]: the
    backslash and the quote are escaped, a control character is written
    by its name or its code.  A byte beyond ASCII is kept, as a printable
    character is. *)
Definition repr_char (quote c : ascii) : string :=
  let n := nat_of_ascii c in
  if Ascii.eqb c "\" then "\\"
  else if Ascii.eqb c quote then String "\" (String quote "")
  else if (n =? 9)%nat then "\t"
  else if (n =? 10)%nat then "\n"
  else if (n =? 13)%nat then "\r"
  else if ((n <? 32) || (n =? 127))%nat
       then "\x" +:+ String (MD5.hex_digit (Z.of_nat (n / 16)))
                       (String (MD5.hex_digit (Z.of_nat (n mod 16))) "")
  else String c "".

(** [repr(s)] of a string: single quotes, unless the string holds one and
    no double quote. *)
Definition repr_str (s : string) : string :=
  let l := list_ascii_of_string s in
  let quote :=
    if existsb (Ascii.eqb "'") l && negb (existsb (Ascii.eqb dquote) l)
    then dquote else "'"%char in
  String quote (String.concat "" (map (repr_char quote) l))
    +:+ String quote "".

(** [repr(x)], which is what [str] gives of a value inside a container. *)
Fixpoint py_repr (x : json) : string :=
  match x with
  | JNull => "None"
  | JBool b => if b then "True" else "False"
  | JInt n => str_of_int n
  | JStr s => repr_str s
  | JList l =>
      "[" +:+ String.concat ", " (map py_repr l) +:+ "]"
  | JDict d =>
      "{" +:+ String.concat ", "
                (map (fun kv => repr_str (fst kv) +:+ ": " +:+ py_repr (snd kv)) d)
          +:+ "}"
  end.

(** [f"{x}"] *)
Definition py_format (x : json) : string :=
  match x with
  | JStr s => s
  | _ => py_repr x
  end.

Module Main.

(** The module globals as they stand when a request is served (the
    settings window rewrites them). *)
Record settings : Type := {
  BANNER_DURATION_MS : Z;
  QUOTES_FILE : string;
  DEFAULT_QUOTES_FILE : string;
  AWS_REGION : string;
  POLLY_VOICE_ID : string;
  POLLY_OUTPUT_FORMAT : string;
  ADD_STATIC_NOISE : bool;
  EFFECT_PRESET : string;
  STATIC_NOISE_LEVEL : pyfloat;
  RADIO_NOISE_LEVEL : pyfloat;
  WIND_NOISE_LEVEL : pyfloat;
  MESSAGES : list (string * string);
  static_folder : string;
}.

(** [Path(app.static_folder) / 'audio' / 'audio_index.json'] *)
Definition AUDIO_INDEX_PATH (cfg : settings) : string :=
  Fs.join (Fs.join (static_folder cfg) "audio") "audio_index.json".

(** The order in which a [set] of strings is iterated, given the elements
    in the order they were added: some arrangement of the elements, each
    once. *)
Record set_iteration : Type := {
  iterate : list string -> list string;
  iterate_arranges : forall l, iterate l ≡ₚ remove_dups l;
}.

(** What a request meets outside the process: the service, the number
    [random] draws, the clock when the index entry is stamped and when
    the event is, and the order in which the interpreter iterates a
    set. *)
Record outside : Type := {
  aws : polly;
  drawn : nat;
  gmtime_created : string;
  gmtime_event : string;
  set_order : set_iteration;
}.

Record effects : Type := {
  static_noise : bool;
  preset : string;
  static_noise_level : pyfloat;
  radio_noise_level : pyfloat;
  wind_noise_level : pyfloat;
}.

(** The event [{'type': 'vote', ...}]. *)
Record vote_payload : Type := {
  enable_tts : bool;
  enable_dingdong : bool;
  score : Z;
  message : string;
  quote : json;
  audio_url : string;
  level : string;
  duration_ms : Z;
  effects_ : effects;
  ts : string;
}.

(** What travels through the hub. *)
Inductive event : Type :=
| Theme (hue_deg : Z)
| Preview (active : bool) (score : Z)
| Vote (p : vote_payload).

(** [environ] is [os.environ]; [dotenv] is the assignments of the [.env]
    file. *)
Record world : Type := {
  fs : filesystem;
  hub : SSEHub.hub event;
  polly_calls : list polly_call;
  environ : gmap string string;
  dotenv : gmap string string;
}.

Definition on_fs {A} : py filesystem A -> py world A :=
  zoom fs (fun t w => {| fs := t; hub := hub w;
                         polly_calls := polly_calls w;
                         environ := environ w; dotenv := dotenv w |}).

Definition on_hub {A} : py (SSEHub.hub event) A -> py world A :=
  zoom hub (fun t w => {| fs := fs w; hub := t;
                          polly_calls := polly_calls w;
                          environ := environ w; dotenv := dotenv w |}).

Definition call_polly {A} (c : polly_call) (answer : result A) : py world A :=
  fun w => (answer, {| fs := fs w; hub := hub w;
                       polly_calls := polly_calls w ++ [c];
                       environ := environ w; dotenv := dotenv w |}).

(** [load_dotenv(override=True)] *)
Definition load_dotenv : py world unit :=
  modify (fun w => {| fs := fs w; hub := hub w;
                      polly_calls := polly_calls w;
                      environ := dotenv w ∪ environ w; dotenv := dotenv w |}).

(** [os.environ.get(name, default).strip().lower() in
    {'1', 'true', 'yes', 'on'}] *)
Definition env_flag (name default : string) : py world bool :=
  gets (fun w =>
          let v := from_option id default (environ w !! name) in
          bool_decide (py_lower (py_strip v) ∈ ["1"; "true"; "yes"; "on"])).

(** The bundled payload of [_load_default_quotes_payload], used when the
    file of defaults cannot be loaded. *)
Definition minimal_fallback : json :=
  JDict
    [("quotes", JDict [
     ("1", JList [JStr "Well, that was... educational.";
                  JStr "Physics called—they want an explanation."]);
     ("2", JList [JStr "Hard arrival. Teeth still rattling."]);
     ("3", JList [JStr "Firm. The landing gear filed a complaint."]);
     ("4", JList [JStr "Not bad, not smooth. We felt it."]);
     ("5", JList [JStr "Acceptable. Coffee only trembled."]);
     ("6", JList [JStr "Decent touch. Cabin crew kept pouring."]);
     ("7", JList [JStr "Nice! Most passengers missed it."]);
     ("8", JList [JStr "Smooth operator. Butter adjacent."]);
     ("9", JList [JStr "Greased it. Polite applause engaged."]);
     ("10", JList [JStr "Absolute butter."; JStr "Chief pilot approved!"])]);
     ("messages", JDict [
     ("1", JStr "Mayday? That was… educational.");
     ("2", JStr "Hard arrival. Teeth still rattling.");
     ("3", JStr "Firm. The landing gear filed a complaint.");
     ("4", JStr "Not bad, not smooth. We felt it.");
     ("5", JStr "Acceptable. Coffee only trembled.");
     ("6", JStr "Decent touch. Cabin crew kept pouring.");
     ("7", JStr "Nice! Most passengers missed it.");
     ("8", JStr "Smooth operator. Butter adjacent.");
     ("9", JStr "Greased it. Polite applause engaged.");
     ("10", JStr "Absolute butter. Chief pilot approved!")])].

Definition _load_default_quotes_payload (cfg : settings)
  : py filesystem json :=
  try_catch (Fs.load_json (DEFAULT_QUOTES_FILE cfg)) (ret minimal_fallback).

(** [x.items()]: only a dict has it. *)
Definition py_items (x : json) : result dict :=
  match x with
  | JDict d => Ok d
  | _ => Raise AttributeError
  end.

(** The first loop of [load_quotes]: a list is copied, anything else
    becomes the empty list. *)
Definition merge_defaults (defaults : dict) : dict :=
  fold_left (fun merged kv =>
               dict_set (fst kv)
                 (match snd kv with
                  | JList l => JList l
                  | _ => JList []
                  end) merged)
    defaults [].

(** The second loop: a list replaces the entry, anything else leaves what
    is there, or the empty list. *)
Definition merge_user (user_quotes : dict) (merged : dict) : dict :=
  fold_left (fun merged kv =>
               dict_set (fst kv)
                 (match snd kv with
                  | JList l => JList l
                  | _ => from_option id (JList []) (dict_get (fst kv) merged)
                  end) merged)
    user_quotes merged.

Definition load_quotes (cfg : settings) : py filesystem dict :=
  (payload <- _load_default_quotes_payload cfg;;
   defaults <- lift (py_get payload "quotes" (JDict []));;
   user_quotes <- try_catch
                    (data <- Fs.load_json (QUOTES_FILE cfg);;
                     lift (py_get data "quotes" (JDict [])))
                    (ret (JDict []));;
   default_items <- lift (py_items defaults);;
   user_items <- lift (py_items user_quotes);;
   ret (merge_user user_items (merge_defaults default_items)))%py.

Definition get_random_quote (cfg : settings) (env : outside) (score : Z)
  : py filesystem json :=
  try_catch
    (quotes <- load_quotes cfg;;
     let score_quotes :=
       from_option id (JList []) (dict_get (str_of_int score) quotes) in
     if truthy score_quotes then lift (random_choice (drawn env) score_quotes)
     else ret (JStr "Well, that happened."))%py
    (ret (JStr "Well, that happened.")).

(** An entry of the catalogue built by [list_region_voices]. *)
Record catalog_entry : Type := {
  entry_id : string;
  entry_language_name : string;
  entry_language_code : string;
  SupportedEngines : list string;
}.

(** [set.add], on a set kept sorted as [sorted(list(...))] leaves it. *)
Fixpoint add_sorted (x : string) (l : list string) : list string :=
  match l with
  | [] => [x]
  | y :: r => if String.eqb x y then l
              else if String.ltb x y then x :: l
              else y :: add_sorted x r
  end.

(** [voices.setdefault(vid, {...})['SupportedEngines'].add(engine)] *)
Fixpoint add_voice (v : voice) (engine : string) (voices : list catalog_entry)
  : list catalog_entry :=
  match voices with
  | [] => [{| entry_id := Id v; entry_language_name := LanguageName v;
              entry_language_code := LanguageCode v;
              SupportedEngines := [engine] |}]
  | e :: r =>
      if String.eqb (entry_id e) (Id v)
      then {| entry_id := entry_id e;
              entry_language_name := entry_language_name e;
              entry_language_code := entry_language_code e;
              SupportedEngines := add_sorted engine (SupportedEngines e) |}
             :: r
      else e :: add_voice v engine r
  end.

Definition collect_voices (engine : string) (page : list voice)
    (voices : list catalog_entry) : list catalog_entry :=
  fold_left (fun acc v => if String.eqb (Id v) "" then acc
                          else add_voice v engine acc)
    page voices.

(** [list_region_voices(build_polly(region))]: the standard voices are
    asked for, then the neural ones. *)
Definition list_region_voices (env : outside) (region : string)
  : py world (list catalog_entry) :=
  (standard <- call_polly (DescribeVoices region "standard")
                 (Ok (describe_voices (aws env) region "standard"));;
   neural <- call_polly (DescribeVoices region "neural")
               (Ok (describe_voices (aws env) region "neural"));;
   ret (collect_voices "neural" neural
          (collect_voices "standard" standard [])))%py.

Definition pick_engine_for_voice (voice_id : string)
    (catalog : list catalog_entry) : string :=
  let engines :=
    match filter (fun e => entry_id e = voice_id) catalog with
    | [] => []
    | e :: r => SupportedEngines (List.last r e)
    end in
  if bool_decide ("neural" ∈ engines) then "neural" else "standard".

(** The ids of the catalogue form a set; the loop visits them in the order
    of the interpreter and returns at the first that occurs in the label.
    The tokens are told apart as ASCII text is. *)
Definition sanitize_voice_id (env : outside) (raw_voice : string)
    (catalog : list catalog_entry) : string :=
  let s := py_strip raw_voice in
  if String.eqb s "" then ""
  else
    let ids := filter (fun i => i <> "") (map entry_id catalog) in
    if bool_decide (s ∈ ids) then s
    else
      match filter (fun vid => contains vid s = true)
              (iterate (set_order env) ids) with
      | vid :: _ => vid
      | [] =>
          let tokens :=
            filter (fun t => py_isalpha t = true)
              (py_split (py_replace "·" " " (py_replace "•" " " s))) in
          match tokens with
          | t :: r => longest t r
          | [] => s
          end
      end.

(** [''.join(c for c in vid if c.isalnum() or c in ('-', '_'))] for an id
    of ASCII text. *)
Definition safe_voice_of (vid : string) : string :=
  string_of_list_ascii
    (filter (fun c => is_alnum c || Ascii.eqb c "-" || Ascii.eqb c "_" = true)
       (list_ascii_of_string vid)).

(** [f"quote_{safe_voice}_{engine}_{text_hash}.{POLLY_OUTPUT_FORMAT}"] *)
Definition audio_filename_of (safe_voice engine text_hash format : string)
  : string :=
  "quote_" +:+ safe_voice +:+ "_" +:+ engine +:+ "_" +:+ text_hash
    +:+ "." +:+ format.

(** [f"{text}|voice={vid}|engine={engine}|fmt={...}|region={...}"] *)
Definition key_material (text vid engine format region : string) : string :=
  text +:+ "|voice=" +:+ vid +:+ "|engine=" +:+ engine +:+ "|fmt=" +:+ format
    +:+ "|region=" +:+ region.

Definition key_hash_of (text vid engine format region : string) : string :=
  md5_hex12 (key_material text vid engine format region).

(** [text.encode('utf-8')] *)
Definition encode (text : json) : result string :=
  match text with
  | JStr s => Ok s
  | _ => Raise AttributeError
  end.

(** The index file as [generate_audio_url] loads it. *)
Definition load_index (cfg : settings) : py filesystem json :=
  (present <- gets (Fs.path_exists (AUDIO_INDEX_PATH cfg));;
   if present
   then try_catch (Fs.load_json (AUDIO_INDEX_PATH cfg)) (ret (JDict []))
   else ret (JDict []))%py.

(** A path segment must be a string. *)
Definition path_part (x : json) : result string :=
  match x with
  | JStr s => Ok s
  | _ => Raise TypeError
  end.

(** [entry[key]] on a dict. *)
Definition subscript (entry : json) (key : string) : result json :=
  match entry with
  | JDict d => match dict_get key d with
               | Some v => Ok v
               | None => Raise KeyError
               end
  | _ => Raise TypeError
  end.

(** The reuse of an indexed file: [Some url] is [return url], [None] goes
    on to the synthesis. *)
Definition lookup_cached (cfg : settings) (entry : json)
  : py filesystem (option string) :=
  if truthy entry then
    (name <- lift (py_get entry "filename" (JStr ""));;
     part <- lift (path_part name);;
     let existing_new :=
       Fs.join (Fs.join (static_folder cfg) "audio") part in
     let existing_old := Fs.join (static_folder cfg) part in
     new_there <- gets (Fs.path_exists existing_new);;
     if new_there then
       (filename <- lift (subscript entry "filename");;
        ret (Some ("/static/audio/" +:+ py_format filename)))
     else
       old_there <- gets (Fs.path_exists existing_old);;
       if old_there then
         (filename <- lift (subscript entry "filename");;
          ret (Some ("/static/" +:+ py_format filename)))
       else ret None)%py
  else ret None.

Definition synthesize (cfg : settings) (env : outside)
    (text vid engine : string) : py world string :=
  call_polly
    (SynthesizeSpeech (AWS_REGION cfg) text (POLLY_OUTPUT_FORMAT cfg) vid
       (Some engine))
    (speech_result
       (synthesize_speech (aws env) (AWS_REGION cfg) text
          (POLLY_OUTPUT_FORMAT cfg) vid (Some engine))).

(** The synthesis with its one retry: [Some (audio, engine)] with the
    engine that answered, [None] for the [return ""] of the second
    [ClientError]. *)
Definition synthesize_with_retry (cfg : settings) (env : outside)
    (text vid engine : string) : py world (option (string * string)) :=
  try_catch_if is_client_error
    (audio <- synthesize cfg env text vid engine;;
     ret (Some (audio, engine)))%py
    (let alt := if String.eqb engine "neural" then "standard" else "neural" in
     try_catch_if is_client_error
       (audio <- synthesize cfg env text vid alt;;
        ret (Some (audio, alt)))%py
       (ret None)).

(** The entry written to the index. *)
Definition index_entry (text vid engine format region audio_filename
                        created_ts : string) : json :=
  JDict [("text", JStr text); ("voice", JStr vid); ("engine", JStr engine);
         ("format", JStr format); ("region", JStr region);
         ("filename", JStr audio_filename); ("created_ts", JStr created_ts);
         ("play_count", JInt 0)].

(** [index[key] = value] *)
Definition set_item (index : json) (key : string) (value : json)
  : result json :=
  match index with
  | JDict d => Ok (JDict (dict_set key value d))
  | _ => Raise TypeError
  end.

Definition generate_audio_url (cfg : settings) (env : outside) (text : json)
  : py world string :=
  (load_dotenv;;;
   tts_enabled <- env_flag "ENABLE_TTS" "true";;
   if negb tts_enabled then ret ""
   else
     try_catch
       (let vid_raw := py_strip (POLLY_VOICE_ID cfg) in
        if String.eqb vid_raw "" then ret ""
        else
          catalog <- list_region_voices env (AWS_REGION cfg);;
          let vid := sanitize_voice_id env vid_raw catalog in
          let engine := pick_engine_for_voice vid catalog in
          bytes <- lift (encode text);;
          let text_hash := md5_hex12 bytes in
          let safe_voice := safe_voice_of vid in
          index <- on_fs (load_index cfg);;
          let key_hash :=
            key_hash_of bytes vid engine (POLLY_OUTPUT_FORMAT cfg)
              (AWS_REGION cfg) in
          entry <- lift (py_get index key_hash JNull);;
          cached <- on_fs (lookup_cached cfg entry);;
          match cached with
          | Some url => ret url
          | None =>
              answer <- synthesize_with_retry cfg env bytes vid engine;;
              match answer with
              | None => ret ""
              | Some (audio, engine) =>
                  let audio_filename :=
                    audio_filename_of safe_voice engine text_hash
                      (POLLY_OUTPUT_FORMAT cfg) in
                  let audio_path :=
                    Fs.join (Fs.join (static_folder cfg) "audio")
                      audio_filename in
                  let key_hash :=
                    key_hash_of bytes vid engine (POLLY_OUTPUT_FORMAT cfg)
                      (AWS_REGION cfg) in
                  on_fs (Fs.mkdir (Fs.parent audio_path));;;
                  on_fs (Fs.write_file audio_path (Binary audio));;;
                  index' <- lift (set_item index key_hash
                                    (index_entry bytes vid engine
                                       (POLLY_OUTPUT_FORMAT cfg)
                                       (AWS_REGION cfg) audio_filename
                                       (gmtime_created env)));;
                  try_catch
                    (on_fs (Fs.mkdir (Fs.parent (AUDIO_INDEX_PATH cfg)));;;
                     on_fs (Fs.write_file (AUDIO_INDEX_PATH cfg)
                              (Document index')))
                    (ret tt);;;
                  ret ("/static/audio/" +:+ audio_filename)
              end
          end)
       (ret ""))%py.

(** [entry['play_count'] = int(entry.get('play_count', 0)) + 1] *)
Definition bump_play_count (entry : json) : result json :=
  rbind (py_get entry "play_count" (JInt 0)) (fun c =>
  rbind (py_int c) (fun n =>
  set_item entry "play_count" (JInt (n + 1)))).

Definition _increment_audio_play (cfg : settings) (env : outside)
    (text : json) : py world unit :=
  try_catch
    (let vid_raw := py_strip (POLLY_VOICE_ID cfg) in
     catalog <- list_region_voices env (AWS_REGION cfg);;
     let vid := sanitize_voice_id env vid_raw catalog in
     let engine := pick_engine_for_voice vid catalog in
     let key_hash :=
       key_hash_of (py_format text) vid engine (POLLY_OUTPUT_FORMAT cfg)
         (AWS_REGION cfg) in
     present <- on_fs (gets (Fs.path_exists (AUDIO_INDEX_PATH cfg)));;
     index <- (if present then on_fs (Fs.load_json (AUDIO_INDEX_PATH cfg))
               else ret (JDict []));;
     entry <- lift (py_get index key_hash JNull);;
     if truthy entry then
       (entry' <- lift (bump_play_count entry);;
        index' <- lift (set_item index key_hash entry');;
        on_fs (Fs.write_file (AUDIO_INDEX_PATH cfg) (Document index')))
     else ret tt)%py
    (ret tt).

(** The audio lines of [vote]: nothing is generated or reused when TTS is
    off, and a play is counted when a locator comes back. *)
Definition vote_audio (cfg : settings) (env : outside) (tts_enabled : bool)
    (quote : json) : py world string :=
  (if tts_enabled then
     (audio_url <- generate_audio_url cfg env quote;;
      (if negb (String.eqb audio_url "")
       then _increment_audio_play cfg env quote else ret tt);;;
      ret audio_url)
   else ret "")%py.

Definition vote (cfg : settings) (env : outside) (score : Z)
  : py world vote_payload :=
  (let clamped := clamp score in
   quote <- on_fs (get_random_quote cfg env clamped);;
   load_dotenv;;;
   tts_enabled <- env_flag "ENABLE_TTS" "true";;
   dingdong_enabled <- env_flag "ENABLE_DINGDONG" "false";;
   audio_url <- vote_audio cfg env tts_enabled quote;;
   let payload :=
     {| enable_tts := tts_enabled;
        enable_dingdong := dingdong_enabled;
        score := clamped;
        message :=
          from_option id ""
            (snd <$> List.find
                       (fun kv => String.eqb (fst kv) (str_of_int clamped))
                       (MESSAGES cfg));
        quote := quote;
        audio_url := audio_url;
        level := level_for_score clamped;
        duration_ms := BANNER_DURATION_MS cfg;
        effects_ :=
          {| static_noise := ADD_STATIC_NOISE cfg;
             preset := if String.eqb (EFFECT_PRESET cfg) "" then "none"
                       else EFFECT_PRESET cfg;
             static_noise_level := OrZero (STATIC_NOISE_LEVEL cfg);
             radio_noise_level := OrZero (RADIO_NOISE_LEVEL cfg);
             wind_noise_level := OrZero (WIND_NOISE_LEVEL cfg) |};
        ts := gmtime_event env |} in
   on_hub (SSEHub.broadcast (Vote payload));;;
   ret payload)%py.

(** [GET /vote/<int:score>] *)
Definition get_vote (cfg : settings) (env : outside) (segment : string)
    (w : world) : response vote_payload * world :=
  match int_converter segment with
  | Some n => flask_view (vote cfg env n) w
  | None => not_found w
  end.

End Main.

(* ===================================================================== *)
(** ** Settings, services and worlds used in the examples *)
(* ===================================================================== *)

Definition empty_fs : filesystem := {| files := ∅; dirs := ∅ |}.

(** A service that knows no voice and answers every synthesis. *)
Definition polly_answering : polly :=
  {| describe_voices := fun _ _ => [];
     synthesize_speech := fun _ _ _ _ _ => Audio "ID3" |}.

(** A service that refuses every synthesis. *)
Definition polly_refusing : polly :=
  {| describe_voices := fun _ _ => [];
     synthesize_speech := fun _ _ _ _ _ => Refused |}.

(** A service that lists no voice, refuses the standard engine and answers
    the neural one. *)
Definition polly_neural_only : polly :=
  {| describe_voices := fun _ _ => [];
     synthesize_speech := fun _ _ _ _ engine =>
       if bool_decide (engine = Some "neural") then Audio "ID3" else Refused |}.

Definition app_settings : App.settings :=
  {| App.BANNER_DURATION_MS := 8000;
     App.DATA_FILE := "landings.json";
     App.QUOTES_FILE := "quotes.json";
     App.AWS_ACCESS_KEY_ID := Some "AKIAEXAMPLE";
     App.AWS_SECRET_ACCESS_KEY := Some "secret";
     App.AWS_REGION := "us-east-1";
     App.POLLY_VOICE_ID := "Joanna";
     App.POLLY_OUTPUT_FORMAT := "mp3" |}.

(** The same settings with another voice. *)
Definition app_settings_with_voice (voice_id : string) : App.settings :=
  {| App.BANNER_DURATION_MS := App.BANNER_DURATION_MS app_settings;
     App.DATA_FILE := App.DATA_FILE app_settings;
     App.QUOTES_FILE := App.QUOTES_FILE app_settings;
     App.AWS_ACCESS_KEY_ID := App.AWS_ACCESS_KEY_ID app_settings;
     App.AWS_SECRET_ACCESS_KEY := App.AWS_SECRET_ACCESS_KEY app_settings;
     App.AWS_REGION := App.AWS_REGION app_settings;
     App.POLLY_VOICE_ID := voice_id;
     App.POLLY_OUTPUT_FORMAT := App.POLLY_OUTPUT_FORMAT app_settings |}.

Definition app_outside (service : polly) : App.outside :=
  {| App.aws := service; App.drawn := 0;
     App.utc_now_iso := "2024-05-01T10:00:00Z" |}.

(** The world of app.py after import, with one overlay connected: the
    store has created its log, the overlay's queue is registered. *)
Definition app_world : App.world :=
  {| App.fs := snd (DataStore.__init__ "landings.json" empty_fs);
     App.hub := snd (SSEHub.register {| SSEHub.queues := ∅; SSEHub.clients := [] |});
     App.polly_calls := [] |}.

Definition main_settings : Main.settings :=
  {| Main.BANNER_DURATION_MS := 8000;
     Main.QUOTES_FILE := "quotes.json";
     Main.DEFAULT_QUOTES_FILE := "quotes.default.json";
     Main.AWS_REGION := "us-east-1";
     Main.POLLY_VOICE_ID := "Joanna";
     Main.POLLY_OUTPUT_FORMAT := "mp3";
     Main.ADD_STATIC_NOISE := false;
     Main.EFFECT_PRESET := "none";
     Main.STATIC_NOISE_LEVEL := FloatOf "0.02";
     Main.RADIO_NOISE_LEVEL := FloatOf "0.03";
     Main.WIND_NOISE_LEVEL := FloatOf "0.03";
     Main.MESSAGES := [("7", "Nice! Most passengers missed it.")];
     Main.static_folder := "static" |}.

(** The same settings in another region. *)
Definition main_settings_in (region : string) : Main.settings :=
  {| Main.BANNER_DURATION_MS := Main.BANNER_DURATION_MS main_settings;
     Main.QUOTES_FILE := Main.QUOTES_FILE main_settings;
     Main.DEFAULT_QUOTES_FILE := Main.DEFAULT_QUOTES_FILE main_settings;
     Main.AWS_REGION := region;
     Main.POLLY_VOICE_ID := Main.POLLY_VOICE_ID main_settings;
     Main.POLLY_OUTPUT_FORMAT := Main.POLLY_OUTPUT_FORMAT main_settings;
     Main.ADD_STATIC_NOISE := Main.ADD_STATIC_NOISE main_settings;
     Main.EFFECT_PRESET := Main.EFFECT_PRESET main_settings;
     Main.STATIC_NOISE_LEVEL := Main.STATIC_NOISE_LEVEL main_settings;
     Main.RADIO_NOISE_LEVEL := Main.RADIO_NOISE_LEVEL main_settings;
     Main.WIND_NOISE_LEVEL := Main.WIND_NOISE_LEVEL main_settings;
     Main.MESSAGES := Main.MESSAGES main_settings;
     Main.static_folder := Main.static_folder main_settings |}.

(** A set iterated in the order its elements were added, and one iterated
    in the opposite order. *)
Definition as_added : Main.set_iteration :=
  {| Main.iterate := remove_dups;
     Main.iterate_arranges := fun l => Permutation_refl (remove_dups l) |}.

Definition last_added_first : Main.set_iteration :=
  {| Main.iterate := fun l => rev (remove_dups l);
     Main.iterate_arranges :=
       fun l => Permutation_sym (Permutation_rev (remove_dups l)) |}.

Definition main_outside (service : polly) : Main.outside :=
  {| Main.aws := service; Main.drawn := 0;
     Main.gmtime_created := "2024-05-01T10:00:00Z";
     Main.gmtime_event := "2024-05-01T10:00:01Z";
     Main.set_order := as_added |}.

(** The world of main.py at start, with one overlay connected and nothing
    cached. *)
Definition main_world : Main.world :=
  {| Main.fs := empty_fs;
     Main.hub := snd (SSEHub.register {| SSEHub.queues := ∅; SSEHub.clients := [] |});
     Main.polly_calls := [];
     Main.environ := ∅;
     Main.dotenv := ∅ |}.

(* ===================================================================== *)
(** ** Vocabulary of the properties *)
(* ===================================================================== *)

(** The order of the ranking: a higher score first, and of two equal scores
    the one voted earlier. *)
Definition ranks_before (a b : nat * Z) : Prop :=
  snd b < snd a \/ (snd a = snd b /\ (fst a < fst b)%nat).

(** The order [list.sort] sees: the order of the keys. *)
Definition key_le (a b : nat * Z) : Prop :=
  Stats.key_leb (Stats.sort_key a) (Stats.sort_key b) = true.

(** The average of the scores is a float: there is no score, or the sum
    stays below [2^1024 - 2^970] times their number in absolute value. *)
Definition average_is_float (scores : list Z) : Prop :=
  scores = [] \/
  Z.abs (Stats.sum scores) < (2 ^ 1024 - 2 ^ 970) * Z.of_nat (length scores).

(** The record of a vote as the log keeps it. *)
Definition vote_record (v : Z * string) : json :=
  JDict [("score", JInt (fst v)); ("ts", JStr (snd v))].

(** Neither the log nor its temporary sibling is a directory, and a
    temporary file left over, if any, can be read. *)
Definition regular (path : string) (fs : filesystem) : Prop :=
  (path ∉ dirs fs) /\ ((path +:+ ".tmp") ∉ dirs fs) /\
  from_option readable true (files fs !! (path +:+ ".tmp")) = true.

(** The directory of the log can be made: its path is not a file, and is
    neither the log nor its temporary sibling. *)
Definition has_directory (path : string) (fs : filesystem) : Prop :=
  files fs !! Fs.parent path = None /\
  Fs.parent path <> path /\ Fs.parent path <> path +:+ ".tmp".

(** The file at [path] holds the document [j] and can be read. *)
Definition holds (path : string) (j : json) (fs : filesystem) : Prop :=
  files fs !! path = Some {| readable := true; data := Document j |}.

(** The file is absent, unreadable, or not an object with a list under
    ["landings"]. *)
Definition unusable (path : string) (fs : filesystem) : Prop :=
  files fs !! path = None \/
  exists f, files fs !! path = Some f /\
    (readable f = false \/
     (exists b, data f = Binary b) \/
     (exists j, data f = Document j /\
                DataStore.valid_structure j = false)).

(** A run of calls [append(score, ts)], in call order. *)
Definition append_all (path : string) (votes : list (Z * string))
  : py filesystem unit :=
  for_each votes (fun v => DataStore.append path (fst v) (snd v)).

(** What one [try: q.put_nowait(item) except Exception: pass] leaves of the
    queue [q]. *)
Definition offer {payload} (item : payload) (q : SSEHub.queue payload)
  : SSEHub.queue payload :=
  match SSEHub.put_nowait item q with
  | Ok q' => q'
  | Raise _ => q
  end.

(** The state a computation leaves is related to the one it found. *)
Definition keeps {S A} (R : S -> S -> Prop) (m : py S A) : Prop :=
  forall s, R s (snd (m s)).


(** The directory [static] and what lies below it. *)
Definition under_static (p : string) : Prop :=
  p = "static" \/ exists rest, p = "static/" +:+ rest.

(** What app.py's audio step may change: nothing of the hub, and of the
    files only those under [static]. *)
Definition app_frame (w w' : App.world) : Prop :=
  App.hub w' = App.hub w /\
  forall path, ~ under_static path ->
    files (App.fs w') !! path = files (App.fs w) !! path /\
    (path ∈ dirs (App.fs w') <-> path ∈ dirs (App.fs w)).

(** What main.py's audio steps leave alone: the hub and the [.env]
    assignments. *)
Definition main_frame (w w' : Main.world) : Prop :=
  Main.hub w' = Main.hub w /\ Main.dotenv w' = Main.dotenv w.

(** The catalogue main.py builds from the service's two answers, and the
    voice and engine it settles on. *)
Definition catalog_of (env : Main.outside) (region : string)
  : list Main.catalog_entry :=
  Main.collect_voices "neural" (describe_voices (Main.aws env) region "neural")
    (Main.collect_voices "standard"
       (describe_voices (Main.aws env) region "standard") []).

Definition voice_of (cfg : Main.settings) (env : Main.outside) : string :=
  Main.sanitize_voice_id env (py_strip (Main.POLLY_VOICE_ID cfg))
    (catalog_of env (Main.AWS_REGION cfg)).

Definition engine_of (cfg : Main.settings) (env : Main.outside) : string :=
  Main.pick_engine_for_voice (voice_of cfg env)
    (catalog_of env (Main.AWS_REGION cfg)).

(** The file app.py keeps the audio of a text in. *)
Definition app_audio_path (cfg : App.settings) (text : string) : string :=
  Fs.join "static"
    ("quote_" +:+ md5_hex12 text +:+ "." +:+ App.POLLY_OUTPUT_FORMAT cfg).



(** TTS is enabled once the [.env] file is reloaded. *)
Definition tts_on (w : Main.world) : Prop :=
  fst (Main.env_flag "ENABLE_TTS" "true" (snd (Main.load_dotenv w))) = Ok true.

(** The directory main.py keeps the audio files in. *)
Definition audio_dir (cfg : Main.settings) : string :=
  Fs.join (Main.static_folder cfg) "audio".

(** The service answers no synthesis with audio, whatever the text, the
    voice and the engine: it refuses, or fails. *)
Definition synthesis_fails (service : polly) : Prop :=
  forall region text format voice engine audio,
    synthesize_speech service region text format voice engine
    <> Audio audio.

(** Nothing is cached: no entry of the index, if there is an index that
    loads as an object, names a file that is there, in the audio directory
    or, where older versions kept it, in the static folder. *)
Definition nothing_cached (cfg : Main.settings) (t : filesystem) : Prop :=
  forall idx key e fn,
    fst (Main.load_index cfg t) = Ok (JDict idx) ->
    dict_get key idx = Some (JDict e) ->
    dict_get "filename" e = Some (JStr fn) ->
    Fs.path_exists (Fs.join (audio_dir cfg) fn) t = false /\
    Fs.path_exists (Fs.join (Main.static_folder cfg) fn) t = false.

(** Where a locator of main.py can come from: a file that an entry of the
    index names was there, or the service answered an engine with
    audio. *)
Definition main_audio_source (cfg : Main.settings) (env : Main.outside)
    (w : Main.world) (text : json) : Prop :=
  exists t, text = JStr t /\
    (~ nothing_cached cfg (Main.fs w) \/
     exists voice engine bytes,
       synthesize_speech (Main.aws env) (Main.AWS_REGION cfg) t
         (Main.POLLY_OUTPUT_FORMAT cfg) voice (Some engine)
       = Audio bytes).

(** The engine main.py asks when the one asked first is refused. *)
Definition alternate (engine : string) : string :=
  if String.eqb engine "neural" then "standard" else "neural".

(** The key under which main.py looks a text up: the one of the engine
    picked from the catalogue. *)
Definition lookup_key (cfg : Main.settings) (env : Main.outside)
    (text : string) : string :=
  Main.key_hash_of text (voice_of cfg env) (engine_of cfg env)
    (Main.POLLY_OUTPUT_FORMAT cfg) (Main.AWS_REGION cfg).

(** The two requests for the catalogue that every resolution sends. *)
Definition catalog_calls (cfg : Main.settings) : list polly_call :=
  [DescribeVoices (Main.AWS_REGION cfg) "standard";
   DescribeVoices (Main.AWS_REGION cfg) "neural"].

(** The entry the lookup reads: the one under the key of the request,
    [None] when there is none. *)
Definition entry_of (cfg : Main.settings) (env : Main.outside) (t : string)
    (idx : dict) : json :=
  from_option id JNull (dict_get (lookup_key cfg env t) idx).

(** The world after the steps every resolution takes before the lookup:
    the [.env] file is reloaded and the catalogue is asked for. *)
Definition looked_up (cfg : Main.settings) (w : Main.world) : Main.world :=
  {| Main.fs := Main.fs w; Main.hub := Main.hub w;
     Main.polly_calls := Main.polly_calls w ++ catalog_calls cfg;
     Main.environ := Main.dotenv w ∪ Main.environ w;
     Main.dotenv := Main.dotenv w |}.

(** The number of synthesis requests in a log. *)
Definition syntheses (calls : list polly_call) : nat :=
  length (filter (fun c => is_synthesis c = true) calls).

(** The file main.py writes the audio of a text to, for the voice it
    settles on and the engine that answers. *)
Definition audio_name_of (cfg : Main.settings) (env : Main.outside)
    (engine text : string) : string :=
  Main.audio_filename_of (Main.safe_voice_of (voice_of cfg env)) engine
    (md5_hex12 text) (Main.POLLY_OUTPUT_FORMAT cfg).

Definition audio_path_of (cfg : Main.settings) (env : Main.outside)
    (engine text : string) : string :=
  Fs.join (audio_dir cfg) (audio_name_of cfg env engine text).

(** The audio file and the index can be written: their paths are not
    directories, and their directories are not files. *)
Definition cache_writable (cfg : Main.settings) (apath : string)
    (t : filesystem) : Prop :=
  files t !! Fs.parent apath = None /\
  (apath ∉ dirs t) /\ apath <> Fs.parent apath /\
  files t !! Fs.parent (Main.AUDIO_INDEX_PATH cfg) = None /\
  Fs.parent (Main.AUDIO_INDEX_PATH cfg) <> apath /\
  (Main.AUDIO_INDEX_PATH cfg ∉ dirs t) /\
  Main.AUDIO_INDEX_PATH cfg <> Fs.parent (Main.AUDIO_INDEX_PATH cfg) /\
  Main.AUDIO_INDEX_PATH cfg <> Fs.parent apath.

(** The files after a synthesis: the audio, then the index with the new
    entry. *)
Definition after_synthesis (cfg : Main.settings) (apath : string)
    (audio : string) (index : json) (t : filesystem) : filesystem :=
  let with_audio :=
    <[apath := {| readable := from_option readable true (files t !! apath);
                  data := Binary audio |}]> (files t) in
  {| files :=
       <[Main.AUDIO_INDEX_PATH cfg :=
           {| readable := from_option readable true
                            (with_audio !! Main.AUDIO_INDEX_PATH cfg);
              data := Document index |}]> with_audio;
     dirs := {[Fs.parent (Main.AUDIO_INDEX_PATH cfg)]}
               ∪ ({[Fs.parent apath]} ∪ dirs t) |}.

(** The synthesis requests of a log that the service answers with audio. *)
Definition is_answered (service : polly) (c : polly_call) : bool :=
  match c with
  | SynthesizeSpeech region text format voice engine =>
      match synthesize_speech service region text format voice engine with
      | Audio _ => true
      | _ => false
      end
  | DescribeVoices _ _ => false
  end.

Definition answered (service : polly) (calls : list polly_call)
  : list polly_call :=
  filter (fun c => is_answered service c = true) calls.

(* ===================================================================== *)
(** ** The event stream ([stream] and its generator [gen], the same in both
       programs) *)
(* ===================================================================== *)

Module Stream.

Section Payload.

Context {payload : Type}.

(** What the generator yields: [sse_format] of the hello, [sse_format] of
    an item of the queue, or the keep-alive comment. *)
Inductive frame : Type :=
| HelloFrame
| EventFrame (item : payload)
| KeepAlive.

(** Where the generator stands: created and not started, suspended at the
    [yield] of the hello (before the [try]), suspended at a [yield] of the
    loop (inside the [try]), or finished. *)
Inductive position : Type :=
| Created
| AtHello
| InLoop
| Finished.

(** The generator object: the queue [q] of its closure, and where it
    stands. *)
Record generator : Type := { q : nat; at_ : position }.

(** [q.get(timeout=60)]: the oldest item; [None] is the [Empty] raised when
    the queue is still empty after the wait. *)
Definition get (a : nat) : py (SSEHub.hub payload) (option payload) := fun h =>
  match SSEHub.queues h !! a with
  | None => (Raise AttributeError, h)
  | Some qu =>
      match SSEHub.items qu with
      | [] => (Ok None, h)
      | item :: rest =>
          (Ok (Some item),
           {| SSEHub.queues :=
                <[a := {| SSEHub.maxsize := SSEHub.maxsize qu;
                          SSEHub.items := rest |}]> (SSEHub.queues h);
              SSEHub.clients := SSEHub.clients h |})
      end
  end.

(** The view [stream]: the queue is registered and the generator created;
    nothing of its body has run. *)
Definition stream : py (SSEHub.hub payload) generator :=
  (a <- SSEHub.register;;
   ret {| q := a; at_ := Created |})%py.

(** [next(g)]: the generator runs to its next [yield]; [None] is
    [StopIteration].  An exception that leaves the loop passes the
    [finally] on its way out. *)
Definition next (g : generator)
  : py (SSEHub.hub payload) (option frame * generator) :=
  match at_ g with
  | Created => ret (Some HelloFrame, {| q := q g; at_ := AtHello |})
  | AtHello | InLoop =>
      fun h =>
        match get (q g) h with
        | (Ok (Some item), h') =>
            (Ok (Some (EventFrame item), {| q := q g; at_ := InLoop |}), h')
        | (Ok None, h') =>
            (Ok (Some KeepAlive, {| q := q g; at_ := InLoop |}), h')
        | (Raise e, h') =>
            (SSEHub.unregister (q g);;; raise e)%py h'
        end
  | Finished => ret (None, g)
  end.

(** [g.close()]: [GeneratorExit] is raised at the [yield] where the
    generator is suspended.  A generator that was not started runs nothing;
    at the hello the exception leaves the body, which has not entered the
    [try]; in the loop the clause [except GeneratorExit] and the [finally]
    run. *)
Definition close (g : generator) : py (SSEHub.hub payload) generator :=
  match at_ g with
  | Created | AtHello | Finished => ret {| q := q g; at_ := Finished |}
  | InLoop =>
      (SSEHub.unregister (q g);;;
       ret {| q := q g; at_ := Finished |})%py
  end.

End Payload.

Arguments frame : clear implicits.

End Stream.

(* ===================================================================== *)
(** ** main.py: the messages, and the routes of the overlay controls *)
(* ===================================================================== *)

(** [d[k] = v] on a dict of strings: an existing key keeps its position, a
    new one goes last. *)
Fixpoint assoc_set (k v : string) (d : list (string * string))
  : list (string * string) :=
  match d with
  | [] => [(k, v)]
  | (k', v') :: r =>
      if String.eqb k k' then (k', v) :: r else (k', v') :: assoc_set k v r
  end.

(** [d.get(k)] on a dict of strings, as [vote] reads [MESSAGES]. *)
Definition message_for (d : list (string * string)) (k : string)
  : option string :=
  snd <$> List.find (fun kv => String.eqb (fst kv) k) d.

(** [merged[str(k)] = str(v)] for the items of a dict, in their order. *)
Definition merge_messages (items : dict) (merged : list (string * string))
  : list (string * string) :=
  fold_left (fun m kv => assoc_set (fst kv) (py_format (snd kv)) m)
    items merged.

Definition load_messages (cfg : Main.settings)
  : py filesystem (list (string * string)) :=
  (payload <- Main._load_default_quotes_payload cfg;;
   defaults <- lift (py_get payload "messages" (JDict []));;
   user_msgs <- try_catch
                  (data <- Fs.load_json (Main.QUOTES_FILE cfg);;
                   lift (py_get data "messages" (JDict [])))
                  (ret (JDict []));;
   default_items <- lift (Main.py_items defaults);;
   let merged := merge_messages default_items [] in
   user_items <- lift (Main.py_items user_msgs);;
   ret (merge_messages user_items merged))%py.

Module Overlay.

(** The server of main.py: its world, and the global [OVERLAY_HUE_DEG]
    that [update_theme] assigns. *)
Record server : Type := {
  world : Main.world;
  OVERLAY_HUE_DEG : Z;
}.

Definition on_world {A} : py Main.world A -> py server A :=
  zoom world (fun t s => {| world := t;
                            OVERLAY_HUE_DEG := OVERLAY_HUE_DEG s |}).

(** [request.get_json(silent=True) or {}]: the body is [None] when the
    request has none or it is not JSON. *)
Definition request_data (body : option json) : json :=
  match body with
  | Some j => if truthy j then j else JDict []
  | None => JDict []
  end.

(** [save_env_var(key, value)]: [set_key] rewrites the [.env] file, and
    raises when the file cannot be written. *)
Definition save_env_var (writable : bool) (key value : string)
  : py Main.world unit :=
  if writable
  then modify (fun w => {| Main.fs := Main.fs w; Main.hub := Main.hub w;
                           Main.polly_calls := Main.polly_calls w;
                           Main.environ := Main.environ w;
                           Main.dotenv := <[key := value]> (Main.dotenv w) |})
  else raise OtherError.

(** [try: int(data.get(key, default))  except Exception: fallback] *)
Definition int_field (data : json) (key : string) (default fallback : Z)
  : Z :=
  match rbind (py_get data key (JInt default)) py_int with
  | Ok n => n
  | Raise _ => fallback
  end.

(** The body [{'ok': True, 'hue_deg': deg}]. *)
Record theme_body : Type := { theme_ok : bool; theme_hue_deg : Z }.

(** The body [{'ok': True, 'active': active, 'score': score}]. *)
Record preview_body : Type := {
  preview_ok : bool;
  preview_active : bool;
  preview_score : Z;
}.

(** [POST /theme] *)
Definition update_theme (env_writable : bool) (body : option json)
  : py server theme_body :=
  (let data := request_data body in
   let deg := int_field data "hue_deg" 0 0 in
   let deg := Z.max 0 (Z.min 360 deg) in
   try_catch
     (on_world (save_env_var env_writable "OVERLAY_HUE_DEG" (str_of_int deg)))
     (ret tt);;;
   modify (fun s => {| world := world s; OVERLAY_HUE_DEG := deg |});;;
   try_catch (on_world (Main.on_hub (SSEHub.broadcast (Main.Theme deg))))
     (ret tt);;;
   ret {| theme_ok := true; theme_hue_deg := deg |})%py.

(** [POST /preview] *)
Definition overlay_preview (body : option json)
  : py Main.world preview_body :=
  (let data := request_data body in
   let active :=
     match py_get data "active" (JBool false) with
     | Ok v => truthy v
     | Raise _ => false
     end in
   let score := int_field data "score" 1 1 in
   let score := Z.max 1 (Z.min 10 score) in
   try_catch (Main.on_hub (SSEHub.broadcast (Main.Preview active score)))
     (ret tt);;;
   ret {| preview_ok := true; preview_active := active;
          preview_score := score |})%py.

End Overlay.

(* ===================================================================== *)
(** ** Further settings used in the examples *)
(* ===================================================================== *)

(** app.py started without the AWS credentials. *)
Definition app_settings_without_keys : App.settings :=
  {| App.BANNER_DURATION_MS := App.BANNER_DURATION_MS app_settings;
     App.DATA_FILE := App.DATA_FILE app_settings;
     App.QUOTES_FILE := App.QUOTES_FILE app_settings;
     App.AWS_ACCESS_KEY_ID := None;
     App.AWS_SECRET_ACCESS_KEY := Some "";
     App.AWS_REGION := App.AWS_REGION app_settings;
     App.POLLY_VOICE_ID := App.POLLY_VOICE_ID app_settings;
     App.POLLY_OUTPUT_FORMAT := App.POLLY_OUTPUT_FORMAT app_settings |}.

(** A service that lists two standard voices, the id of the first inside
    the id of the second, and answers every synthesis. *)
Definition polly_two_voices : polly :=
  {| describe_voices := fun _ engine =>
       if String.eqb engine "standard"
       then [{| Id := "Daniel"; LanguageName := "German";
                LanguageCode := "de-DE" |};
             {| Id := "Danielle"; LanguageName := "US English";
                LanguageCode := "en-US" |}]
       else [];
     synthesize_speech := fun _ _ _ _ _ => Audio "ID3" |}.

(** The outside of main.py with a set order of one's choice. *)
Definition main_outside_iterating (order : Main.set_iteration)
    (service : polly) : Main.outside :=
  {| Main.aws := service; Main.drawn := 0;
     Main.gmtime_created := "2024-05-01T10:00:00Z";
     Main.gmtime_event := "2024-05-01T10:00:01Z";
     Main.set_order := order |}.

(* ===================================================================== *)
(** ** Vocabulary of the further properties *)
(* ===================================================================== *)
(** A hub as [register], [unregister] and [broadcast] make it from the
    empty one: an address is registered once, and holds a queue without
    bound. *)
Definition sound_hub {payload} (h : SSEHub.hub payload) : Prop :=
  NoDup (SSEHub.clients h) /\
  forall a, a ∈ SSEHub.clients h ->
    exists qu, SSEHub.queues h !! a = Some qu /\ SSEHub.maxsize qu = 0%nat.

(** The queue with the items [more] behind those it holds. *)
Definition extended {payload} (more : list payload)
    (qu : SSEHub.queue payload) : SSEHub.queue payload :=
  {| SSEHub.maxsize := SSEHub.maxsize qu;
     SSEHub.items := SSEHub.items qu ++ more |}.

(** A run of calls [broadcast(e)], in call order. *)
Definition broadcast_all {payload} (events : list payload)
  : py (SSEHub.hub payload) unit :=
  for_each events SSEHub.broadcast.

(** The first [n] frames the server takes from a generator, fewer when it
    stops before. *)
Fixpoint frames {payload} (n : nat) (g : Stream.generator)
  : py (SSEHub.hub payload) (list (Stream.frame payload) * Stream.generator) :=
  match n with
  | O => ret ([], g)
  | S n' =>
      (r <- Stream.next g;;
       match fst r with
       | None => ret ([], snd r)
       | Some f =>
           r' <- frames n' (snd r);;
           ret (f :: fst r', snd r')
       end)%py
  end.

(** No score can be taken from the record [x], for the exception [e]: the
    record has no [get], or [int] refuses its score; a score that is a
    string is ASCII text. *)
Definition no_score (x : json) (e : exn) : Prop :=
  Stats.score_of x = Raise e /\
  forall d s, x = JDict d -> dict_get "score" d = Some (JStr s) ->
              ascii_text s.

(** A value that is no container, and whose [str] is therefore the text
    [py_format] gives: a string, a boolean, [None], or an integer that can
    be written ([str] refuses one of more than 4300 digits). *)
Definition scalar (v : json) : Prop :=
  match v with
  | JStr _ | JBool _ | JNull => True
  | JInt n => Z.abs n < 10 ^ 4300
  | JList _ | JDict _ => False
  end.

(** Both credentials of app.py are set and not empty. *)
Definition has_credentials (cfg : App.settings) : bool :=
  App.present (App.AWS_ACCESS_KEY_ID cfg)
  && App.present (App.AWS_SECRET_ACCESS_KEY cfg).

(** The locator app.py gives for the audio of a text. *)
Definition app_audio_url (cfg : App.settings) (text : string) : string :=
  "/static/" +:+ "quote_" +:+ md5_hex12 text +:+ "."
    +:+ App.POLLY_OUTPUT_FORMAT cfg.

(** The request app.py sends for a text. *)
Definition app_synthesis (cfg : App.settings) (text : string) : polly_call :=
  SynthesizeSpeech (App.AWS_REGION cfg) text (App.POLLY_OUTPUT_FORMAT cfg)
    (App.POLLY_VOICE_ID cfg) None.


(** The computation sends requests to the service, of which at most [k]
    are synthesis requests, and forgets none of the log. *)
Definition sends {A} (k : nat) (m : py Main.world A) : Prop :=
  forall w, exists l,
    Main.polly_calls (snd (m w)) = Main.polly_calls w ++ l /\
    (syntheses l <= k)%nat.

(** What [load_quotes] makes of a default: a value that is not a list
    becomes the empty list. *)
Definition as_list (v : json) : json :=
  match v with
  | JList l => JList l
  | _ => JList []
  end.

(** The section [name] of quotes.json as [load_quotes] and [load_messages]
    read it: the empty dict when the file cannot be used. *)
Definition user_section (cfg : Main.settings) (name : string)
    (t : filesystem) : json :=
  match fst (Fs.load_json (Main.QUOTES_FILE cfg) t) with
  | Ok (JDict d) => from_option id (JDict []) (dict_get name d)
  | _ => JDict []
  end.

(** The catalogue lists the engine for the voice. *)
Definition has_engine (vid engine : string)
    (catalog : list Main.catalog_entry) : Prop :=
  exists e, e ∈ catalog /\ Main.entry_id e = vid /\
            engine ∈ Main.SupportedEngines e.


(* ===================================================================== *)
(** * Properties *)
(* ===================================================================== *)

(** ** The statistics *)

Section StatsFacts.

Import Stats.

Lemma key_le_total a b : key_le a b \/ key_le b a.
Proof.
  unfold key_le, key_leb, sort_key; simpl.
  destruct (Z.ltb_spec (- snd a) (- snd b)); [by left |].
  destruct (Z.ltb_spec (- snd b) (- snd a)); [by right |].
  assert (- snd a = - snd b) as -> by lia.
  rewrite Z.eqb_refl; simpl.
  destruct (Nat.leb_spec (fst a) (fst b)); [by left | right].
  apply Nat.leb_le; lia.
Qed.

Lemma key_le_trans a b c : key_le a b -> key_le b c -> key_le a c.
Proof.
  unfold key_le, key_leb, sort_key; simpl.
  rewrite !orb_true_iff, !andb_true_iff, !Z.ltb_lt, !Z.eqb_eq, !Nat.leb_le.
  lia.
Qed.

Lemma key_le_strict a b : key_le a b -> fst a <> fst b -> ranks_before a b.
Proof.
  unfold key_le, key_leb, sort_key, ranks_before; simpl.
  rewrite !orb_true_iff, !andb_true_iff, !Z.ltb_lt, !Z.eqb_eq, !Nat.leb_le.
  lia.
Qed.

Lemma insert_by_perm {A K} (leb : K -> K -> bool) (key : A -> K) x l :
  Permutation (insert_by leb key x l) (x :: l).
Proof.
  induction l as [|y l IH]; simpl; [done |].
  destruct (leb (key x) (key y)); [done |].
  rewrite IH. apply perm_swap.
Qed.

Lemma sort_by_perm {A K} (leb : K -> K -> bool) (key : A -> K) l :
  Permutation (sort_by leb key l) l.
Proof.
  induction l as [|x l IH]; simpl; [done |].
  rewrite insert_by_perm. by constructor.
Qed.

Lemma insert_by_sorted x l :
  StronglySorted key_le l ->
  StronglySorted key_le (insert_by key_leb sort_key x l).
Proof.
  induction 1 as [|y l Hs IH Hy]; simpl.
  - repeat constructor.
  - destruct (key_leb (sort_key x) (sort_key y)) eqn:E.
    + constructor; [by constructor |].
      constructor; [done |].
      eapply Forall_impl; [exact Hy |]. intros z Hz.
      by apply key_le_trans with y.
    + constructor; [done |].
      rewrite insert_by_perm. constructor; [| done].
      destruct (key_le_total x y) as [Hxy | Hyx]; [| done].
      unfold key_le in Hxy. congruence.
Qed.

Lemma sort_by_sorted l :
  StronglySorted key_le (sort_by key_leb sort_key l).
Proof.
  induction l; simpl; [constructor | by apply insert_by_sorted].
Qed.

Lemma sorted_strict l :
  StronglySorted key_le l -> NoDup (map fst l) ->
  StronglySorted ranks_before l.
Proof.
  induction 1 as [|a l Hs IH Ha]; simpl; intros Hnd; [constructor |].
  apply NoDup_cons in Hnd as [Hnotin Hnd].
  constructor; [by apply IH |].
  apply Forall_forall. intros b Hb.
  apply key_le_strict.
  - by apply (proj1 (Forall_forall _ _) Ha).
  - intros Heq. apply Hnotin. rewrite Heq.
    apply list_elem_of_In. apply in_map. by apply list_elem_of_In.
Qed.

Lemma fst_enumerate_from {A} i (l : list A) :
  map fst (enumerate_from i l) = List.seq i (length l).
Proof.
  revert i; induction l as [|x l IH]; intros i; simpl; [done |].
  by rewrite IH.
Qed.

Lemma snd_enumerate_from {A} i (l : list A) :
  map snd (enumerate_from i l) = l.
Proof.
  revert i; induction l as [|x l IH]; intros i; simpl; [done |].
  by rewrite IH.
Qed.

(** The ranking computed for [top] is the one list that holds every vote
    with its position and is ordered by [ranks_before]. *)
Lemma ranking_sorted (scores : list Z) :
  let ranked := sort_by key_leb sort_key (enumerate scores) in
  Permutation ranked (enumerate scores) /\ StronglySorted ranks_before ranked.
Proof.
  simpl. split; [apply sort_by_perm |].
  apply sorted_strict; [apply sort_by_sorted |].
  rewrite (Permutation_map fst (sort_by_perm key_leb sort_key _)).
  unfold enumerate. rewrite fst_enumerate_from. apply NoDup_ListNoDup, seq_NoDup.
Qed.

Lemma scores_of_records (votes : list (Z * string)) :
  mapM score_of
    (map (fun v => JDict [("score", JInt (fst v)); ("ts", JStr (snd v))]) votes)
  = Ok (map fst votes).
Proof.
  induction votes as [|[s t] votes IH]; simpl; [done |].
  simpl in IH. by rewrite IH.
Qed.

Lemma mapM_app {A B} (f : A -> result B) l1 l2 r1 r2 :
  mapM f l1 = Ok r1 -> mapM f l2 = Ok r2 -> mapM f (l1 ++ l2) = Ok (r1 ++ r2).
Proof.
  revert r1; induction l1 as [|x l1 IH]; simpl; intros r1 H1 H2.
  - by inversion H1.
  - destruct (f x) as [y|]; simpl in *; [| done].
    destruct (mapM f l1) as [ys|]; simpl in *; [| done].
    inversion H1; subst. by rewrite (IH ys eq_refl H2).
Qed.

Lemma sum_from (l : list Z) (a : Z) : fold_left Z.add l a = a + sum l.
Proof.
  unfold sum. revert a; induction l as [|x l IH]; intros a; simpl; [lia |].
  rewrite (IH (a + x)), (IH (0 + x)). lia.
Qed.

Lemma sum_app (l1 l2 : list Z) : sum (l1 ++ l2) = sum l1 + sum l2.
Proof.
  unfold sum at 1. rewrite fold_left_app. fold (sum l1). by rewrite sum_from.
Qed.

Lemma sum_cons (x : Z) (l : list Z) : sum (x :: l) = x + sum l.
Proof. unfold sum at 1. simpl. by rewrite sum_from. Qed.

(** The average of scores whose average is a float. *)
Lemma average_of_float (scores : list Z) :
  average_is_float scores ->
  average_of scores
  = Ok (match scores with
        | [] => FloatZero
        | _ => Round2Div (sum scores) (Z.of_nat (length scores))
        end).
Proof.
  intros [-> | H]; [reflexivity |].
  destruct scores as [|x r]; [reflexivity |].
  unfold average_of, true_div_overflows.
  replace (Z.of_nat (length (x :: r)) =? 0) with false
    by (symmetry; apply Z.eqb_neq; simpl; lia).
  cbn [negb].
  by replace ((2 ^ 1024 - 2 ^ 970) * Z.of_nat (length (x :: r))
              <=? Z.abs (sum (x :: r))) with false
    by (symmetry; apply Z.leb_gt; exact H).
Qed.

Lemma average_of_overflow (scores : list Z) :
  ~ average_is_float scores -> average_of scores = Raise OverflowError.
Proof.
  intros H. destruct scores as [|x r]; [exfalso; apply H; by left |].
  unfold average_of, true_div_overflows.
  replace (Z.of_nat (length (x :: r)) =? 0) with false
    by (symmetry; apply Z.eqb_neq; simpl; lia).
  cbn [negb].
  destruct (Z.leb_spec ((2 ^ 1024 - 2 ^ 970) * Z.of_nat (length (x :: r)))
              (Z.abs (sum (x :: r)))) as [_ | Hlt]; [reflexivity |].
  exfalso. apply H. by right.
Qed.

(** [compute_stats] on records whose scores are read, and have a float for
    their average. *)
Lemma compute_stats_of_scores (landings : list json) (scores : list Z) :
  mapM score_of landings = Ok scores ->
  average_is_float scores ->
  compute_stats landings
  = Ok (stats_of_scores scores
          (match scores with
           | [] => FloatZero
           | _ => Round2Div (sum scores) (Z.of_nat (length scores))
           end)).
Proof.
  intros H Hf. unfold compute_stats. rewrite H. cbn [rbind].
  by rewrite (average_of_float scores Hf).
Qed.

Lemma compute_stats_overflow (landings : list json) (scores : list Z) :
  mapM score_of landings = Ok scores ->
  ~ average_is_float scores ->
  compute_stats landings = Raise OverflowError.
Proof.
  intros H Hf. unfold compute_stats. rewrite H. cbn [rbind].
  by rewrite (average_of_overflow scores Hf).
Qed.

Lemma sum_bounded (bound : Z) (l : list Z) :
  Forall (fun x => Z.abs x <= bound) l ->
  Z.abs (sum l) <= bound * Z.of_nat (length l).
Proof.
  induction 1 as [|x l Hx _ IH]; [simpl; unfold sum; simpl; lia |].
  rewrite sum_cons. cbn [length]. lia.
Qed.

(** Scores that the vote handler lets through have a float for their
    average. *)
Lemma clamped_scores_average (l : list Z) :
  Forall (fun x => 1 <= x <= 10) l -> average_is_float l.
Proof.
  intros H. destruct l as [|x r]; [by left | right].
  assert (Hb : Z.abs (sum (x :: r)) <= 10 * Z.of_nat (length (x :: r))).
  { apply sum_bounded. eapply Forall_impl; [exact H |]. simpl. lia. }
  assert (Hbig : 10 < 2 ^ 1024 - 2 ^ 970) by (vm_compute; reflexivity).
  assert (Hlen : 0 < Z.of_nat (length (x :: r))) by (simpl; lia).
  nia.
Qed.

End StatsFacts.

(** C5. For every sequence of recorded votes whose average is a float,
    [top] holds the scores of the first five entries of the ranking of all
    votes by descending score, two equal scores in the order they were
    cast; the average of votes with scores from 1 to 10 is a float, and
    where it is none [compute_stats] raises [OverflowError]; for the scores
    5, 9, 9, 3, 9 cast in that order [top] is 9, 9, 9, 5, 3. *)
Theorem top_five_by_score_then_position :
  (forall votes : list (Z * string),
      average_is_float (map fst votes) ->
      exists ranked st,
        Stats.compute_stats
          (map (fun v => JDict [("score", JInt (fst v)); ("ts", JStr (snd v))])
             votes) = Ok st /\
        Permutation ranked (Stats.enumerate (map fst votes)) /\
        StronglySorted ranks_before ranked /\
        Stats.top st = map snd (firstn 5 ranked)) /\
  (forall votes : list (Z * string),
      Forall (fun v => 1 <= fst v <= 10) votes ->
      average_is_float (map fst votes)) /\
  (forall votes : list (Z * string),
      ~ average_is_float (map fst votes) ->
      Stats.compute_stats
        (map (fun v => JDict [("score", JInt (fst v)); ("ts", JStr (snd v))])
           votes) = Raise OverflowError) /\
  (forall t1 t2 t3 t4 t5 : string,
      exists st,
        Stats.compute_stats
          (map (fun v => JDict [("score", JInt (fst v)); ("ts", JStr (snd v))])
             [(5, t1); (9, t2); (9, t3); (3, t4); (9, t5)]) = Ok st /\
        Stats.top st = [9; 9; 9; 5; 3]).
Proof.
  split; [| split; [| split]].
  - intros votes Hf.
    exists (Stats.sort_by Stats.key_leb Stats.sort_key
              (Stats.enumerate (map fst votes))).
    eexists. split.
    { apply compute_stats_of_scores; [apply scores_of_records | exact Hf]. }
    destruct (ranking_sorted (map fst votes)) as [Hp Hs].
    split; [exact Hp |]. split; [exact Hs |]. reflexivity.
  - intros votes H. apply clamped_scores_average.
    apply Forall_map. exact H.
  - intros votes Hf.
    apply (compute_stats_overflow _ (map fst votes));
      [apply scores_of_records | exact Hf].
  - intros. eexists. split; [vm_compute; reflexivity | reflexivity].
Qed.

(** C10. A record of the log that is an object without a ["score"] field
    is counted with the score 0: where the other records have scores that
    [int] reads and the average is a float, the statistics are those of the
    scores with a 0 at its place, so it adds one to [count] and nothing to
    the sum under [average], and it stands in [best], [recent] and [top] as
    0. *)
Theorem missing_score_counts_as_zero
    (before after : list json) (d : dict) (sb sa : list Z) :
  dict_get "score" d = None ->
  mapM Stats.score_of before = Ok sb ->
  mapM Stats.score_of after = Ok sa ->
  average_is_float (sb ++ 0 :: sa) ->
  let count := Z.of_nat (length sb) + 1 + Z.of_nat (length sa) in
  let average := Round2Div (Stats.sum sb + 0 + Stats.sum sa) count in
  let st := Stats.stats_of_scores (sb ++ 0 :: sa) average in
  Stats.compute_stats (before ++ JDict d :: after) = Ok st /\
  Stats.count st = count /\
  Stats.average st = average.
Proof.
  intros Hd Hb Ha Hf count average st.
  assert (Hone : mapM Stats.score_of (JDict d :: after) = Ok (0 :: sa)).
  { simpl. unfold Stats.score_of at 1. simpl. rewrite Hd. simpl.
    by rewrite Ha. }
  assert (Hcount : Z.of_nat (length (sb ++ 0 :: sa)) = count).
  { subst count. rewrite length_app. simpl. lia. }
  split; [| split; [exact Hcount | reflexivity]].
  rewrite (compute_stats_of_scores _ (sb ++ 0 :: sa)
             (mapM_app _ _ _ _ _ Hb Hone) Hf).
  subst st average. do 2 f_equal.
  assert (Hm : forall x y : pyfloat,
             match sb ++ 0 :: sa with [] => x | _ => y end = y)
    by (intros; by destruct sb).
  rewrite Hm, Hcount. f_equal.
  rewrite sum_app, sum_cons. lia.
Qed.

Lemma missing_score_counts_as_zero_witness :
  Stats.compute_stats
    [JDict [("score", JInt 7); ("ts", JStr "a")];
     JDict [("ts", JStr "b")];
     JDict [("score", JStr " 4 "); ("ts", JStr "c")]]
  = Ok {| Stats.count := 3; Stats.average := Round2Div 11 3;
          Stats.best := 7; Stats.recent := [4; 0; 7];
          Stats.top := [7; 4; 0] |}.
Proof.
  refine (proj1 (missing_score_counts_as_zero
                  [JDict [("score", JInt 7); ("ts", JStr "a")]]
                  [JDict [("score", JStr " 4 "); ("ts", JStr "c")]]
                  [("ts", JStr "b")] [7] [4]
                  eq_refl eq_refl _ _)).
  - vm_compute. reflexivity.
  - right. vm_compute. reflexivity.
Defined.

(** ** The vote store *)

Section StoreFacts.

Import DataStore.

Lemma app_nil_r_string (s : string) : s +:+ "" = s.
Proof.
  induction s as [|c s IH]; [done |].
  unfold String.append; fold String.append. by rewrite IH.
Qed.

Lemma tmp_differs (path : string) : path +:+ ".tmp" <> path.
Proof.
  intros H. rewrite <- (app_nil_r_string path) in H at 2.
  by apply (inj (String.append path)) in H.
Qed.

Lemma atomic_write_regular path j fs :
  regular path fs ->
  exists fs', _atomic_write path j fs = (Ok tt, fs') /\
              holds path j fs' /\ regular path fs' /\
              dirs fs' = dirs fs /\
              forall p, p <> path -> p <> path +:+ ".tmp" ->
                        files fs' !! p = files fs !! p.
Proof.
  intros (Hp & Ht & Hn).
  unfold _atomic_write, bind, Fs.write_file, Fs.os_replace.
  rewrite (bool_decide_eq_false_2 _ Ht), Hn. simpl.
  rewrite (bool_decide_eq_false_2 _ Hp), lookup_insert_eq.
  eexists; split; [reflexivity |].
  pose proof (tmp_differs path) as Hne.
  unfold holds, regular; simpl.
  repeat split; try done.
  - by rewrite lookup_insert_eq.
  - rewrite lookup_insert_ne by done. by rewrite lookup_delete_eq.
  - intros p H1 H2.
    rewrite lookup_insert_ne by done.
    rewrite lookup_delete_ne by done.
    by rewrite lookup_insert_ne.
Qed.

Lemma read_holds path j fs :
  path ∉ dirs fs -> holds path j fs -> _read path fs = (Ok j, fs).
Proof.
  intros Hp Hh. unfold _read, Fs.load_json, bind, Fs.open_read.
  rewrite (bool_decide_eq_false_2 _ Hp), Hh. reflexivity.
Qed.

Lemma read_unusable path fs :
  path ∉ dirs fs -> unusable path fs ->
  match _read path fs with
  | (Ok j, fs') => valid_structure j = false /\ fs' = fs
  | (Raise _, fs') => fs' = fs
  end.
Proof.
  intros Hp Hu. unfold _read, Fs.load_json, bind, Fs.open_read.
  rewrite (bool_decide_eq_false_2 _ Hp).
  destruct Hu as [-> | (f & -> & Hf)]; [done |].
  destruct f as [r d]; simpl in *.
  destruct Hf as [-> | [[b ->] | (j & -> & Hj)]]; try done.
  - destruct r; [| done]. simpl.
    by destruct (utf8_valid (list_ascii_of_string b)).
  - by destruct r.
Qed.

Lemma ensure_file_unusable path fs :
  regular path fs -> unusable path fs ->
  exists fs', _ensure_file path fs = (Ok tt, fs') /\
              holds path empty_log fs' /\ regular path fs'.
Proof.
  intros Hr Hu.
  destruct (atomic_write_regular path empty_log fs Hr)
    as (fs' & Hw & Hh & Hr' & _).
  exists fs'. split; [| done].
  unfold _ensure_file, bind, gets, try_catch.
  destruct (Fs.path_exists path fs); simpl; [| done].
  pose proof (read_unusable path fs (proj1 Hr) Hu) as Hread.
  destruct (_read path fs) as [[j|e] fs1].
  - destruct Hread as [-> ->]. simpl. done.
  - by subst fs1.
Qed.

(** One append to a log that holds the records [l]. *)
Lemma append_holds path d l score ts fs :
  regular path fs -> holds path (JDict d) fs ->
  dict_get "landings" d = Some (JList l) ->
  exists fs', append path score ts fs = (Ok tt, fs') /\
    holds path
      (JDict (dict_set "landings" (JList (l ++ [record score ts])) d)) fs' /\
    regular path fs'.
Proof.
  intros Hr Hh Hd.
  unfold append, bind, try_catch.
  rewrite (read_holds path _ fs (proj1 Hr) Hh).
  unfold lift, setdefault_append. rewrite Hd.
  destruct (atomic_write_regular path
              (JDict (dict_set "landings" (JList (l ++ [record score ts])) d))
              fs Hr) as (fs' & Hw & Hh' & Hr' & _).
  exists fs'. by rewrite Hw.
Qed.

Lemma dict_get_set k v d : dict_get k (dict_set k v d) = Some v.
Proof.
  induction d as [|[k' v'] d IH]; simpl.
  - by rewrite String.eqb_refl.
  - destruct (String.eqb k k') eqn:E; simpl; rewrite E; [done | exact IH].
Qed.

Lemma dict_set_same k v d : dict_get k d = Some v -> dict_set k v d = d.
Proof.
  induction d as [|[k' v'] d IH]; simpl; [done |].
  destruct (String.eqb k k') eqn:E; intros H.
  - by simplify_eq.
  - by rewrite (IH H).
Qed.

Lemma dict_set_set k v w d : dict_set k w (dict_set k v d) = dict_set k w d.
Proof.
  induction d as [|[k' v'] d IH]; simpl.
  - by rewrite String.eqb_refl.
  - destruct (String.eqb k k') eqn:E; simpl; rewrite E; [done |].
    by rewrite IH.
Qed.

Lemma get_landings_holds path d l fs :
  path ∉ dirs fs -> holds path (JDict d) fs ->
  dict_get "landings" d = Some (JList l) ->
  get_landings path fs = (Ok l, fs).
Proof.
  intros Hp Hh Hd. unfold get_landings, bind, try_catch.
  rewrite (read_holds path _ fs Hp Hh).
  unfold lift, py_get. by rewrite Hd.
Qed.

Lemma append_all_holds path votes : forall d l fs,
  regular path fs -> holds path (JDict d) fs ->
  dict_get "landings" d = Some (JList l) ->
  exists fs', append_all path votes fs = (Ok tt, fs') /\
    holds path
      (JDict (dict_set "landings"
                (JList (l ++ map (fun v => record (fst v) (snd v)) votes)) d))
      fs' /\
    regular path fs'.
Proof.
  induction votes as [|[s t] votes IH]; intros d l fs Hr Hh Hd.
  - exists fs. simpl. rewrite app_nil_r.
    by rewrite (dict_set_same _ _ _ Hd).
  - destruct (append_holds path d l s t fs Hr Hh Hd) as (fs1 & Ha & Hh1 & Hr1).
    destruct (IH _ (l ++ [record s t]) fs1 Hr1 Hh1 (dict_get_set _ _ _))
      as (fs2 & Hb & Hh2 & Hr2).
    exists fs2. split; [| split; [| done]].
    + unfold append_all in *. simpl. unfold bind at 1. simpl in Ha.
      by rewrite Ha.
    + rewrite dict_set_set, <- app_assoc in Hh2. exact Hh2.
Qed.

(** Making the directory of the log leaves the files as they are. *)
Lemma mkdir_parent path fs :
  regular path fs -> has_directory path fs ->
  exists fs0, Fs.mkdir (Fs.parent path) fs = (Ok tt, fs0) /\
    files fs0 = files fs /\ (Fs.parent path ∈ dirs fs0) /\ regular path fs0.
Proof.
  intros (Hp & Ht & Hn) (Hfile & Hne & Hnt).
  unfold Fs.mkdir. rewrite Hfile.
  rewrite bool_decide_eq_false_2 by (by intros [? ?]).
  eexists. split; [reflexivity |]. cbn [files dirs].
  split; [reflexivity |].
  split; [apply elem_of_union; left; by apply elem_of_singleton |].
  unfold regular. cbn [files dirs].
  split; [| split; [| done]];
    rewrite elem_of_union, elem_of_singleton; intros [E | E];
    first [congruence | done].
Qed.

Lemma unusable_files path fs fs0 :
  files fs0 = files fs -> unusable path fs -> unusable path fs0.
Proof. unfold unusable. by intros ->. Qed.

End StoreFacts.

(** C3. When the vote-log file is absent, unreadable or not an object with
    a list under ["landings"], loading the store ([DataStore(path)]: the
    directory is made, then [_ensure_file] runs) raises nothing and leaves
    the fresh log [{"landings": []}]; the next append succeeds, and the log
    then holds the one record [{"score": score, "ts": ts}] and nothing
    else. *)
Theorem unusable_log_is_replaced_and_next_append_persists
    (path : string) (fs : filesystem) (score : Z) (ts : string) :
  regular path fs -> has_directory path fs -> unusable path fs ->
  exists fs0 fs1 fs2,
    Fs.mkdir (Fs.parent path) fs = (Ok tt, fs0) /\
    DataStore._ensure_file path fs0 = (Ok tt, fs1) /\
    DataStore.__init__ path fs = (Ok tt, fs1) /\
    (Fs.parent path ∈ dirs fs1) /\
    holds path (JDict [("landings", JList [])]) fs1 /\
    DataStore.append path score ts fs1 = (Ok tt, fs2) /\
    holds path
      (JDict [("landings",
               JList [JDict [("score", JInt score); ("ts", JStr ts)]])]) fs2 /\
    DataStore.get_landings path fs2
    = (Ok [JDict [("score", JInt score); ("ts", JStr ts)]], fs2).
Proof.
  intros Hr Hd Hu.
  destruct (mkdir_parent path fs Hr Hd) as (fs0 & Hm & Hf0 & Hin & Hr0).
  destruct (ensure_file_unusable path fs0 Hr0 (unusable_files _ _ _ Hf0 Hu))
    as (fs1 & He & Hh1 & Hr1).
  destruct (atomic_write_regular path DataStore.empty_log fs0 Hr0)
    as (fs1' & Hw & _ & _ & Hdirs & _).
  destruct (append_holds path _ [] score ts fs1 Hr1 Hh1 eq_refl)
    as (fs2 & Ha & Hh2 & Hr2).
  exists fs0, fs1, fs2.
  split; [exact Hm |]. split; [exact He |].
  split; [unfold DataStore.__init__, bind; by rewrite Hm |].
  split.
  { assert (dirs fs1 = dirs fs0) as ->; [| exact Hin].
    revert He. unfold DataStore._ensure_file, bind, gets, try_catch.
    destruct (Fs.path_exists path fs0); simpl.
    - destruct (DataStore._read path fs0) as [[j|e] fsr] eqn:Er.
      + assert (fsr = fs0) as ->.
        { pose proof (read_unusable path fs0 (proj1 Hr0)
                        (unusable_files _ _ _ Hf0 Hu)) as Hread.
          rewrite Er in Hread. by destruct Hread. }
        destruct (negb (DataStore.valid_structure j)); simpl.
        * rewrite Hw. intros [= <-]. exact Hdirs.
        * by intros [= <-].
      + assert (fsr = fs0) as ->.
        { pose proof (read_unusable path fs0 (proj1 Hr0)
                        (unusable_files _ _ _ Hf0 Hu)) as Hread.
          by rewrite Er in Hread. }
        rewrite Hw. intros [= <-]. exact Hdirs.
    - rewrite Hw. intros [= <-]. exact Hdirs. }
  split; [exact Hh1 |]. split; [exact Ha |]. split; [exact Hh2 |].
  by apply (get_landings_holds path _ _ fs2 (proj1 Hr2) Hh2).
Qed.

Lemma unusable_log_is_replaced_and_next_append_persists_witness :
  let fs := {| files := {[ "data/landings.json" :=
                            {| readable := true;
                               data := Document (JList [JInt 3]) |} ]};
               dirs := ∅ |} in
  exists fs0 fs1 fs2,
    Fs.mkdir (Fs.parent "data/landings.json") fs = (Ok tt, fs0) /\
    DataStore._ensure_file "data/landings.json" fs0 = (Ok tt, fs1) /\
    DataStore.__init__ "data/landings.json" fs = (Ok tt, fs1) /\
    (Fs.parent "data/landings.json" ∈ dirs fs1) /\
    holds "data/landings.json" (JDict [("landings", JList [])]) fs1 /\
    DataStore.append "data/landings.json" 7 "2024-05-01T10:00:00Z" fs1
    = (Ok tt, fs2) /\
    holds "data/landings.json"
      (JDict [("landings",
               JList [JDict [("score", JInt 7);
                             ("ts", JStr "2024-05-01T10:00:00Z")]])]) fs2 /\
    DataStore.get_landings "data/landings.json" fs2
    = (Ok [JDict [("score", JInt 7);
                  ("ts", JStr "2024-05-01T10:00:00Z")]], fs2).
Proof.
  intros fs.
  apply (unusable_log_is_replaced_and_next_append_persists
           "data/landings.json" fs 7 "2024-05-01T10:00:00Z").
  - unfold regular; simpl. repeat split; try done; set_solver.
  - unfold has_directory. split; [reflexivity |].
    split; intros H; vm_compute in H; discriminate H.
  - right. eexists. split; [reflexivity |]. right; right.
    eexists. split; reflexivity.
Defined.

(** C4. Appends to a store are read back in call order: from a log that
    holds the records [old] (none, for an empty store), after the calls
    [append(score_i, ts_i)] the file holds, and [get_landings] reloads,
    [old] followed by the records [{"score": score_i, "ts": ts_i}] in the
    order of the calls. *)
Theorem appends_are_read_back_in_call_order
    (path : string) (fs : filesystem) (old : list json)
    (votes : list (Z * string)) :
  regular path fs ->
  holds path (JDict [("landings", JList old)]) fs ->
  let log :=
    old ++ map (fun v => JDict [("score", JInt (fst v)); ("ts", JStr (snd v))])
             votes in
  exists fs',
    append_all path votes fs = (Ok tt, fs') /\
    holds path (JDict [("landings", JList log)]) fs' /\
    DataStore.get_landings path fs' = (Ok log, fs').
Proof.
  intros Hr Hh log.
  destruct (append_all_holds path votes _ old fs Hr Hh eq_refl)
    as (fs' & Ha & Hh' & Hr').
  exists fs'. repeat split; try done.
  by apply (get_landings_holds path _ _ fs' (proj1 Hr') Hh').
Qed.

Lemma appends_are_read_back_in_call_order_witness :
  let fs := snd (DataStore.__init__ "landings.json" empty_fs) in
  exists fs',
    append_all "landings.json" [(7, "t1"); (2, "t2"); (7, "t3")] fs
    = (Ok tt, fs') /\
    holds "landings.json"
      (JDict [("landings",
               JList [JDict [("score", JInt 7); ("ts", JStr "t1")];
                      JDict [("score", JInt 2); ("ts", JStr "t2")];
                      JDict [("score", JInt 7); ("ts", JStr "t3")]])]) fs' /\
    DataStore.get_landings "landings.json" fs'
    = (Ok [JDict [("score", JInt 7); ("ts", JStr "t1")];
           JDict [("score", JInt 2); ("ts", JStr "t2")];
           JDict [("score", JInt 7); ("ts", JStr "t3")]], fs').
Proof.
  intros fs.
  apply (appends_are_read_back_in_call_order "landings.json" fs []
           [(7, "t1"); (2, "t2"); (7, "t3")]).
  - unfold regular. split; [| split].
    + intros H. vm_compute in H. set_solver.
    + intros H. vm_compute in H. set_solver.
    + vm_compute. reflexivity.
  - vm_compute. reflexivity.
Defined.

(** ** The broadcast hub *)

Section HubFacts.

Context {payload : Type}.

Implicit Types (h : SSEHub.hub payload) (q : SSEHub.queue payload).

Lemma offer_step (item : payload) (a : nat) h :
  exists h1,
    try_catch (SSEHub.put_nowait_at a item) (ret tt) h = (Ok tt, h1) /\
    SSEHub.clients h1 = SSEHub.clients h /\
    forall b, SSEHub.queues h1 !! b
              = (if decide (b = a) then offer item else id)
                  <$> SSEHub.queues h !! b.
Proof.
  unfold try_catch, SSEHub.put_nowait_at, ret.
  destruct (SSEHub.queues h !! a) as [q|] eqn:Hq.
  - destruct (SSEHub.put_nowait item q) as [q'|e] eqn:Hput.
    + eexists; split; [reflexivity |]. split; [done |]. simpl.
      intros b. destruct (decide (b = a)) as [-> |Hne].
      * rewrite lookup_insert_eq, Hq. simpl. unfold offer. by rewrite Hput.
      * rewrite lookup_insert_ne by done. by destruct (SSEHub.queues h !! b).
    + exists h. repeat split. intros b.
      destruct (decide (b = a)) as [-> |Hne].
      * rewrite Hq. simpl. unfold offer. by rewrite Hput.
      * by destruct (SSEHub.queues h !! b).
  - exists h. repeat split. intros b.
    destruct (decide (b = a)) as [-> |Hne].
    + by rewrite Hq.
    + by destruct (SSEHub.queues h !! b).
Qed.

Lemma count_occ_cons (a b : nat) (l : list nat) :
  count_occ Nat.eq_dec (a :: l) b
  = if Nat.eq_dec a b then S (count_occ Nat.eq_dec l b)
    else count_occ Nat.eq_dec l b.
Proof. reflexivity. Qed.

Lemma offer_loop (item : payload) (l : list nat) : forall h,
  exists h',
    for_each l (fun a => try_catch (SSEHub.put_nowait_at a item) (ret tt)) h
    = (Ok tt, h') /\
    SSEHub.clients h' = SSEHub.clients h /\
    forall b, SSEHub.queues h' !! b
              = Nat.iter (count_occ Nat.eq_dec l b) (offer item)
                  <$> SSEHub.queues h !! b.
Proof.
  induction l as [|a l IH]; intros h.
  - exists h. repeat split. intros b. simpl. by destruct (SSEHub.queues h !! b).
  - destruct (offer_step item a h) as (h1 & Hs & Hc1 & Hq1).
    destruct (IH h1) as (h' & Hl & Hc & Hq).
    exists h'. split; [| split].
    + simpl. unfold bind at 1. by rewrite Hs.
    + congruence.
    + intros b. rewrite Hq, Hq1.
      rewrite count_occ_cons.
      destruct (Nat.eq_dec a b) as [-> |Hne].
      * rewrite decide_True by done.
        destruct (SSEHub.queues h !! b) as [q|]; simpl; [| done].
        f_equal. symmetry. exact (Nat.iter_succ_r _ _ _).
      * rewrite decide_False by done. by destruct (SSEHub.queues h !! b).
Qed.

Lemma broadcast_returns
    (item : payload) h :
  exists h', SSEHub.broadcast item h = (Ok tt, h').
Proof.
  destruct (offer_loop item (SSEHub.clients h) h) as (h' & Hl & _).
  by exists h'.
Qed.

End HubFacts.

(** C8. Broadcasting an event never raises, whatever the event and the
    registered queues: it returns normally with the registrations
    unchanged, and each queue object has been offered the event once per
    registration, on its own; a queue that refuses it keeps its content
    and the others still receive it, and a queue that is not registered is
    not touched. *)
Theorem broadcast_never_raises_and_isolates_failures
    {payload : Type} (item : payload) (h : SSEHub.hub payload) :
  exists h',
    SSEHub.broadcast item h = (Ok tt, h') /\
    SSEHub.clients h' = SSEHub.clients h /\
    (forall a, SSEHub.queues h' !! a
               = Nat.iter (count_occ Nat.eq_dec (SSEHub.clients h) a)
                   (offer item) <$> SSEHub.queues h !! a) /\
    (forall q, SSEHub.put_nowait item q = Raise Full /\ offer item q = q \/
               SSEHub.items (offer item q) = SSEHub.items q ++ [item]).
Proof.
  destruct (offer_loop item (SSEHub.clients h) h) as (h' & Hl & Hc & Hq).
  exists h'. repeat split; try done.
  intros q. unfold offer, SSEHub.put_nowait.
  destruct (_ && _)%bool; [by left | by right].
Qed.

(** ** Computations that keep a relation, computations that never raise *)

Section Frames.

Context {S : Type} (R : S -> S -> Prop) `{!PreOrder R}.

Lemma keeps_ret {A} (a : A) : keeps R (ret a).
Proof. intros s. simpl. reflexivity. Qed.

Lemma keeps_raise {A} (e : exn) : keeps R (raise (A := A) e).
Proof. intros s. simpl. reflexivity. Qed.

Lemma keeps_lift {A} (r : result A) : keeps R (lift r).
Proof. intros s. simpl. reflexivity. Qed.

Lemma keeps_gets {A} (f : S -> A) : keeps R (gets f).
Proof. intros s. simpl. reflexivity. Qed.

Lemma keeps_bind {A B} (m : py S A) (k : A -> py S B) :
  keeps R m -> (forall a, keeps R (k a)) -> keeps R (bind m k).
Proof.
  intros Hm Hk s. unfold bind. specialize (Hm s).
  destruct (m s) as [[a|e] s1]; simpl in *; [| done].
  etrans; [exact Hm | apply Hk].
Qed.

Lemma keeps_try_catch {A} (m h : py S A) :
  keeps R m -> keeps R h -> keeps R (try_catch m h).
Proof.
  intros Hm Hh s. unfold try_catch. specialize (Hm s).
  destruct (m s) as [[a|e] s1]; simpl in *; [done |].
  etrans; [exact Hm | apply Hh].
Qed.

Lemma keeps_try_catch_if {A} (c : exn -> bool) (m h : py S A) :
  keeps R m -> keeps R h -> keeps R (try_catch_if c m h).
Proof.
  intros Hm Hh s. unfold try_catch_if. specialize (Hm s).
  destruct (m s) as [[a|e] s1]; simpl in *; [done |].
  destruct (c e); [| done].
  etrans; [exact Hm | apply Hh].
Qed.

End Frames.

Lemma bind_ok {S A B} (m : py S A) (k : A -> py S B) s a s' :
  m s = (Ok a, s') -> bind m k s = k a s'.
Proof. intros H. unfold bind. by rewrite H. Qed.

Lemma bind_raise {S A B} (m : py S A) (k : A -> py S B) s e s' :
  m s = (Raise e, s') -> bind m k s = (Raise e, s').
Proof. intros H. unfold bind. by rewrite H. Qed.

Lemma bind_inv {S A B} (m : py S A) (k : A -> py S B) s b s' :
  bind m k s = (Ok b, s') ->
  exists a s1, m s = (Ok a, s1) /\ k a s1 = (Ok b, s').
Proof.
  unfold bind. destruct (m s) as [[a|e] s1]; [| done].
  intros H. by exists a, s1.
Qed.




(** ** The routes *)

Lemma clamp_range (s : Z) : 1 <= clamp s <= 10.
Proof. unfold clamp. lia. Qed.


Lemma clamp_in_range (s : Z) : 1 <= s <= 10 -> clamp s = s.
Proof. unfold clamp. lia. Qed.



Lemma int_converter_rejects_sign (rest : string) :
  int_converter (String "-" rest) = None.
Proof. reflexivity. Qed.




(** *** app.py *)

Section AppFacts.

Import App.

#[local] Instance app_frame_preorder : PreOrder app_frame.
Proof.
  split.
  - intros w. split; [done |]. by intros.
  - intros w1 w2 w3 [Hh1 Hf1] [Hh2 Hf2]. split; [congruence |].
    intros path Hp. destruct (Hf1 path Hp) as [E1 D1].
    destruct (Hf2 path Hp) as [E2 D2].
    split; [congruence | by rewrite D2].
Qed.








Lemma try_catch_inv {S A} (m h : py S A) s b s' :
  try_catch m h s = (Ok b, s') ->
  m s = (Ok b, s') \/ exists e s1, m s = (Raise e, s1) /\ h s1 = (Ok b, s').
Proof.
  unfold try_catch. destruct (m s) as [[a|e] s1]; intros H.
  - left. by simplify_eq.
  - right. by exists e, s1.
Qed.



Lemma on_fs_hub {A} (m : py filesystem A) w :
  hub (snd (on_fs m w)) = hub w /\
  polly_calls (snd (on_fs m w)) = polly_calls w.
Proof. unfold on_fs, zoom. by destruct (m (fs w)). Qed.

Lemma on_hub_run {A} (m : py (SSEHub.hub event) A) w r h :
  m (hub w) = (r, h) ->
  on_hub m w = (r, {| fs := fs w; hub := h; polly_calls := polly_calls w |}).
Proof. intros H. unfold on_hub, zoom. by rewrite H. Qed.

Lemma app_load_json_readonly (path : string) : keeps eq (Fs.load_json path).
Proof.
  intros t. unfold Fs.load_json, bind, Fs.open_read.
  case_bool_decide; [done |].
  destruct (files t !! path) as [[[] [b|j]]|]; try done.
  simpl. by destruct (utf8_valid (list_ascii_of_string b)).
Qed.

Lemma app_get_random_quote_readonly cfg env s :
  keeps eq (get_random_quote cfg env s).
Proof.
  unfold get_random_quote, load_quotes.
  apply keeps_bind; [apply _ | | intros quotes].
  - apply keeps_try_catch_if; [apply _ | | apply keeps_ret; apply _].
    apply keeps_bind; [apply _ | apply app_load_json_readonly |].
    intros data. apply keeps_lift; apply _.
  - apply keeps_bind; [apply _ | apply keeps_lift; apply _ |].
    intros sq. destruct (truthy sq);
      [apply keeps_lift; apply _ | apply keeps_ret; apply _].
Qed.

Lemma app_on_fs_readonly {A} (m : py filesystem A) w :
  keeps eq m -> snd (on_fs m w) = w.
Proof.
  intros H. unfold on_fs, zoom. specialize (H (fs w)).
  destruct (m (fs w)) as [r t]. simpl in *. subst. by destruct w.
Qed.

(** The steps of a vote that returns. *)
Lemma vote_steps cfg env s w p w' :
  vote cfg env s w = (Ok p, w') ->
  exists quote url w2,
    on_fs (get_random_quote cfg env (clamp s)) w = (Ok quote, w) /\
    generate_audio_url cfg env quote w = (Ok url, w2) /\
    p = {| score := clamp s;
           message := from_option id "" (SCORE_MESSAGES (clamp s));
           quote := quote; audio_url := url;
           level := level_for_score (clamp s);
           duration_ms := BANNER_DURATION_MS cfg;
           ts := utc_now_iso env |} /\
    SSEHub.broadcast (Vote p) (hub w2) = (Ok tt, hub w') /\
    fs w' = fs w2 /\ polly_calls w' = polly_calls w2.
Proof.
  unfold vote. intros H.
  apply bind_inv in H as (quote & w1 & Hq & H).
  assert (w1 = w) as ->.
  { pose proof (app_on_fs_readonly _ w
                  (app_get_random_quote_readonly cfg env (clamp s))) as E.
    by rewrite Hq in E. }
  apply bind_inv in H as (url & w2 & Hu & H).
  apply bind_inv in H as ([] & w3 & Hb & H).
  unfold ret in H. simplify_eq.
  exists quote, url, w2. repeat split; try done.
  - destruct (broadcast_returns
                (Vote {| score := clamp s;
                         message := from_option id "" (SCORE_MESSAGES (clamp s));
                         quote := quote; audio_url := url;
                         level := level_for_score (clamp s);
                         duration_ms := BANNER_DURATION_MS cfg;
                         ts := utc_now_iso env |}) (hub w2)) as (h' & Hh).
    rewrite (on_hub_run _ _ _ _ Hh) in Hb. by simplify_eq.
  - unfold on_hub, zoom in Hb. destruct (SSEHub.broadcast _ _). by simplify_eq.
  - unfold on_hub, zoom in Hb. destruct (SSEHub.broadcast _ _). by simplify_eq.
Qed.

End AppFacts.

(** *** main.py *)

Section MainFacts.

Import Main.

#[local] Arguments md5_hex12 : simpl never.
#[local] Arguments key_hash_of : simpl never.
#[local] Arguments sanitize_voice_id : simpl never.
#[local] Arguments pick_engine_for_voice : simpl never.
#[local] Arguments py_strip : simpl never.
#[local] Arguments safe_voice_of : simpl never.

#[local] Instance main_frame_preorder : PreOrder main_frame.
Proof.
  split.
  - by intros w.
  - intros w1 w2 w3 [H1 H2] [H3 H4]. split; congruence.
Qed.










Ltac readonly_step :=
  lazymatch goal with
  | |- keeps _ (bind _ _) => apply keeps_bind; [apply _ | | intros ?]
  | |- keeps _ (try_catch _ _) => apply keeps_try_catch; [apply _ | |]
  | |- keeps _ (try_catch_if _ _ _) =>
      apply keeps_try_catch_if; [apply _ | |]
  | |- keeps _ (ret _) => apply keeps_ret; apply _
  | |- keeps _ (lift _) => apply keeps_lift; apply _
  | |- keeps _ (gets _) => apply keeps_gets; apply _
  | |- keeps _ (Fs.load_json _) => apply app_load_json_readonly
  | |- keeps _ (if ?b then _ else _) => destruct b
  | |- keeps _ (let _ := _ in _) => cbv zeta
  end.










(** **** The audio cache: a hit *)

Lemma load_index_holds cfg idx t :
  holds (AUDIO_INDEX_PATH cfg) idx t -> AUDIO_INDEX_PATH cfg ∉ dirs t ->
  load_index cfg t = (Ok idx, t).
Proof.
  intros Hh Hd. unfold load_index, bind, gets, Fs.path_exists.
  unfold holds in Hh. rewrite Hh.
  rewrite bool_decide_eq_true_2 by eauto. simpl.
  unfold try_catch, Fs.load_json, bind, Fs.open_read.
  rewrite (bool_decide_eq_false_2 _ Hd), Hh. done.
Qed.

Lemma lookup_cached_hit cfg e fn t :
  e <> [] -> dict_get "filename" e = Some (JStr fn) ->
  Fs.path_exists (Fs.join (audio_dir cfg) fn) t = true ->
  lookup_cached cfg (JDict e) t = (Ok (Some ("/static/audio/" +:+ fn)), t).
Proof.
  intros He Hfn Hex. unfold lookup_cached.
  destruct e as [|kv e]; [done |]. cbn [truthy].
  unfold bind, lift, py_get, gets. rewrite Hfn. cbn [from_option id path_part].
  fold (audio_dir cfg). rewrite Hex.
  unfold subscript. rewrite Hfn. done.
Qed.

Lemma main_on_fs_run {A} (m : py filesystem A) w r :
  m (fs w) = (r, fs w) -> on_fs m w = (r, w).
Proof. intros H. unfold on_fs, zoom. rewrite H. by destruct w. Qed.

Lemma list_region_voices_run env region w :
  list_region_voices env region w
  = (Ok (catalog_of env region),
     {| fs := fs w; hub := hub w;
        polly_calls := polly_calls w
                       ++ [DescribeVoices region "standard";
                           DescribeVoices region "neural"];
        environ := environ w; dotenv := dotenv w |}).
Proof.
  unfold list_region_voices, bind, call_polly, ret. simpl.
  by rewrite <- app_assoc.
Qed.

Lemma tts_on_run w :
  tts_on w ->
  env_flag "ENABLE_TTS" "true" (snd (load_dotenv w))
  = (Ok true, snd (load_dotenv w)).
Proof.
  unfold tts_on, env_flag, gets. simpl. intros H. by injection H as ->.
Qed.

Lemma lookup_cached_readonly cfg entry : keeps eq (lookup_cached cfg entry).
Proof. unfold lookup_cached. repeat readonly_step. Qed.

Lemma lookup_cached_run cfg entry t :
  lookup_cached cfg entry t = (fst (lookup_cached cfg entry t), t).
Proof.
  pose proof (lookup_cached_readonly cfg entry t) as H.
  destruct (lookup_cached cfg entry t) as [r t']. simpl in *. by subst.
Qed.

Lemma load_index_readonly cfg : keeps eq (load_index cfg).
Proof. unfold load_index. repeat readonly_step. Qed.

Lemma load_index_run cfg t :
  load_index cfg t = (fst (load_index cfg t), t).
Proof.
  pose proof (load_index_readonly cfg t) as H.
  destruct (load_index cfg t) as [r t']. simpl in *. by subst.
Qed.


(** A resolution up to the lookup, for a text, with TTS on, a voice set
    and an index that loads as an object: what is left is the lookup's
    result and what follows it. *)
Lemma generate_audio_url_to_lookup cfg env t w idx :
  tts_on w ->
  py_strip (POLLY_VOICE_ID cfg) <> "" ->
  load_index cfg (fs w) = (Ok (JDict idx), fs w) ->
  exists rest : option string -> py world string,
    generate_audio_url cfg env (JStr t) w
    = try_catch
        (cached <- on_fs (lookup_cached cfg (entry_of cfg env t idx));;
         rest cached)%py
        (ret "") (looked_up cfg w) /\
    (forall url, rest (Some url) = ret url) /\
    rest None
    = (answer <- synthesize_with_retry cfg env t (voice_of cfg env)
                   (engine_of cfg env);;
       match answer with
       | None => ret ""
       | Some (audio, engine) =>
           let audio_filename := audio_name_of cfg env engine t in
           let audio_path := Fs.join (audio_dir cfg) audio_filename in
           let key_hash :=
             key_hash_of t (voice_of cfg env) engine (POLLY_OUTPUT_FORMAT cfg)
               (AWS_REGION cfg) in
           on_fs (Fs.mkdir (Fs.parent audio_path));;;
           on_fs (Fs.write_file audio_path (Binary audio));;;
           index' <- lift (set_item (JDict idx) key_hash
                             (index_entry t (voice_of cfg env) engine
                                (POLLY_OUTPUT_FORMAT cfg) (AWS_REGION cfg)
                                audio_filename (gmtime_created env)));;
           try_catch
             (on_fs (Fs.mkdir (Fs.parent (AUDIO_INDEX_PATH cfg)));;;
              on_fs (Fs.write_file (AUDIO_INDEX_PATH cfg)
                       (Document index')))
             (ret tt);;;
           ret ("/static/audio/" +:+ audio_filename)
       end)%py.
Proof.
  intros Htts Hvoice Hidx.
  eexists. split.
  - unfold generate_audio_url.
    rewrite (bind_ok _ _ w tt (snd (load_dotenv w))) by done.
    rewrite (bind_ok _ _ _ _ _ (tts_on_run w Htts)).
    cbn [negb]. unfold try_catch.
    apply String.eqb_neq in Hvoice. rewrite Hvoice.
    rewrite (bind_ok _ _ _ _ _ (list_region_voices_run _ _ _)).
    fold (voice_of cfg env). fold (engine_of cfg env).
    rewrite (bind_ok (lift (encode (JStr t))) _ _ t _ eq_refl).
    erewrite (bind_ok (on_fs (load_index cfg)));
      [| apply main_on_fs_run; exact Hidx].
    fold (lookup_key cfg env t).
    rewrite (bind_ok (lift (py_get (JDict idx) (lookup_key cfg env t) JNull))
               _ _ (entry_of cfg env t idx) _ eq_refl).
    reflexivity.
  - split; [intros url; reflexivity | reflexivity].
Qed.

(** The lookup finds a file: its locator is returned, and nothing else
    happens. *)
Lemma generate_audio_url_found cfg env t w idx url :
  tts_on w ->
  py_strip (POLLY_VOICE_ID cfg) <> "" ->
  load_index cfg (fs w) = (Ok (JDict idx), fs w) ->
  fst (lookup_cached cfg (entry_of cfg env t idx) (fs w)) = Ok (Some url) ->
  generate_audio_url cfg env (JStr t) w = (Ok url, looked_up cfg w).
Proof.
  intros Htts Hvoice Hidx Hlook.
  destruct (generate_audio_url_to_lookup cfg env t w idx Htts Hvoice Hidx)
    as (rest & -> & Hrest & _).
  unfold try_catch.
  erewrite (bind_ok (on_fs (lookup_cached cfg _)));
    [| apply main_on_fs_run; cbn [looked_up fs];
       rewrite lookup_cached_run, Hlook; reflexivity].
  by rewrite Hrest.
Qed.

(** The lookup raises: the resolution gives the empty locator, and nothing
    else happens. *)
Lemma generate_audio_url_lookup_raises cfg env t w idx e :
  tts_on w ->
  py_strip (POLLY_VOICE_ID cfg) <> "" ->
  load_index cfg (fs w) = (Ok (JDict idx), fs w) ->
  fst (lookup_cached cfg (entry_of cfg env t idx) (fs w)) = Raise e ->
  generate_audio_url cfg env (JStr t) w = (Ok "", looked_up cfg w).
Proof.
  intros Htts Hvoice Hidx Hlook.
  destruct (generate_audio_url_to_lookup cfg env t w idx Htts Hvoice Hidx)
    as (rest & -> & _ & _).
  unfold try_catch.
  erewrite (bind_raise (on_fs (lookup_cached cfg _)));
    [reflexivity |].
  apply main_on_fs_run. cbn [looked_up fs].
  rewrite lookup_cached_run, Hlook. reflexivity.
Qed.

Lemma generate_audio_url_hit cfg env t w idx e fn :
  tts_on w ->
  py_strip (POLLY_VOICE_ID cfg) <> "" ->
  holds (AUDIO_INDEX_PATH cfg) (JDict idx) (fs w) ->
  AUDIO_INDEX_PATH cfg ∉ dirs (fs w) ->
  dict_get (lookup_key cfg env t) idx = Some (JDict e) ->
  e <> [] ->
  dict_get "filename" e = Some (JStr fn) ->
  Fs.path_exists (Fs.join (audio_dir cfg) fn) (fs w) = true ->
  generate_audio_url cfg env (JStr t) w
  = (Ok ("/static/audio/" +:+ fn),
     {| fs := fs w; hub := hub w;
        polly_calls := polly_calls w ++ catalog_calls cfg;
        environ := dotenv w ∪ environ w; dotenv := dotenv w |}).
Proof.
  intros Htts Hvoice Hidx Hnd Hentry He Hfn Hfile.
  apply (generate_audio_url_found cfg env t w idx); [done | done | |].
  - by apply load_index_holds.
  - unfold entry_of. rewrite Hentry. cbn [from_option id].
    by rewrite (lookup_cached_hit cfg e fn (fs w) He Hfn Hfile).
Qed.

(** **** The audio cache: a miss answered by the engine asked first *)

Lemma synthesize_with_retry_first cfg env t vid engine audio w :
  synthesize_speech (aws env) (AWS_REGION cfg) t (POLLY_OUTPUT_FORMAT cfg)
    vid (Some engine) = Audio audio ->
  synthesize_with_retry cfg env t vid engine w
  = (Ok (Some (audio, engine)),
     {| fs := fs w; hub := hub w;
        polly_calls :=
          polly_calls w
            ++ [SynthesizeSpeech (AWS_REGION cfg) t (POLLY_OUTPUT_FORMAT cfg)
                  vid (Some engine)];
        environ := environ w; dotenv := dotenv w |}).
Proof.
  intros H. unfold synthesize_with_retry, try_catch_if, bind, synthesize,
    call_polly. rewrite H. reflexivity.
Qed.

Lemma main_on_fs_step {A} (m : py filesystem A) w r t :
  m (fs w) = (r, t) ->
  on_fs m w = (r, {| fs := t; hub := hub w; polly_calls := polly_calls w;
                     environ := environ w; dotenv := dotenv w |}).
Proof. intros H. unfold on_fs, zoom. by rewrite H. Qed.

Lemma mkdir_run (p : string) (t : filesystem) :
  files t !! p = None ->
  Fs.mkdir p t = (Ok tt, {| files := files t; dirs := {[p]} ∪ dirs t |}).
Proof.
  intros H. unfold Fs.mkdir. rewrite H.
  rewrite bool_decide_eq_false_2; [done |]. by intros [x Hx].
Qed.

Lemma write_file_run (p : string) (d : fdata) (t : filesystem) :
  p ∉ dirs t ->
  Fs.write_file p d t
  = (Ok tt,
     set_files (insert p {| readable := from_option readable true
                                          (files t !! p);
                            data := d |}) t).
Proof. intros H. unfold Fs.write_file. by rewrite (bool_decide_eq_false_2 _ H). Qed.

Lemma persist_index_run cfg (index : json) w :
  files (fs w) !! Fs.parent (AUDIO_INDEX_PATH cfg) = None ->
  AUDIO_INDEX_PATH cfg ∉ dirs (fs w) ->
  AUDIO_INDEX_PATH cfg <> Fs.parent (AUDIO_INDEX_PATH cfg) ->
  try_catch
    (on_fs (Fs.mkdir (Fs.parent (AUDIO_INDEX_PATH cfg)));;;
     on_fs (Fs.write_file (AUDIO_INDEX_PATH cfg) (Document index)))%py
    (ret tt) w
  = (Ok tt,
     {| fs :=
          {| files :=
               <[AUDIO_INDEX_PATH cfg :=
                   {| readable :=
                        from_option readable true
                          (files (fs w) !! AUDIO_INDEX_PATH cfg);
                      data := Document index |}]> (files (fs w));
             dirs := {[Fs.parent (AUDIO_INDEX_PATH cfg)]} ∪ dirs (fs w) |};
        hub := hub w; polly_calls := polly_calls w;
        environ := environ w; dotenv := dotenv w |}).
Proof.
  intros H1 H2 H3. unfold try_catch.
  erewrite (bind_ok (on_fs (Fs.mkdir _)));
    [| apply main_on_fs_step, mkdir_run; exact H1].
  erewrite (main_on_fs_step (Fs.write_file _ _));
    [| apply write_file_run; simpl;
       rewrite elem_of_union, elem_of_singleton; tauto].
  reflexivity.
Qed.

(** The engine asked first is refused and the alternate one answers. *)
Lemma synthesize_with_retry_second cfg env t vid engine audio w :
  synthesize_speech (aws env) (AWS_REGION cfg) t (POLLY_OUTPUT_FORMAT cfg)
    vid (Some engine) = Refused ->
  synthesize_speech (aws env) (AWS_REGION cfg) t (POLLY_OUTPUT_FORMAT cfg)
    vid (Some (alternate engine)) = Audio audio ->
  synthesize_with_retry cfg env t vid engine w
  = (Ok (Some (audio, alternate engine)),
     {| fs := fs w; hub := hub w;
        polly_calls :=
          polly_calls w
            ++ [SynthesizeSpeech (AWS_REGION cfg) t (POLLY_OUTPUT_FORMAT cfg)
                  vid (Some engine);
                SynthesizeSpeech (AWS_REGION cfg) t (POLLY_OUTPUT_FORMAT cfg)
                  vid (Some (alternate engine))];
        environ := environ w; dotenv := dotenv w |}).
Proof.
  intros H1 H2. unfold synthesize_with_retry, try_catch_if, bind, synthesize,
    call_polly. rewrite H1. cbn [speech_result is_client_error].
  fold (alternate engine). rewrite H2. cbn [speech_result polly_calls].
  unfold ret. by rewrite <- app_assoc.
Qed.

(** A miss that an engine answers: the audio is written to the file of
    that engine, and the entry is stored under the key of that engine. *)
Lemma generate_audio_url_stores cfg env t w idx audio engine calls :
  let apath := audio_path_of cfg env engine t in
  let key :=
    key_hash_of t (voice_of cfg env) engine (POLLY_OUTPUT_FORMAT cfg)
      (AWS_REGION cfg) in
  let entry :=
    index_entry t (voice_of cfg env) engine (POLLY_OUTPUT_FORMAT cfg)
      (AWS_REGION cfg) (audio_name_of cfg env engine t)
      (gmtime_created env) in
  tts_on w ->
  py_strip (POLLY_VOICE_ID cfg) <> "" ->
  load_index cfg (fs w) = (Ok (JDict idx), fs w) ->
  fst (lookup_cached cfg (entry_of cfg env t idx) (fs w)) = Ok None ->
  synthesize_with_retry cfg env t (voice_of cfg env) (engine_of cfg env)
    (looked_up cfg w)
  = (Ok (Some (audio, engine)),
     {| fs := fs w; hub := hub w;
        polly_calls := polly_calls w ++ catalog_calls cfg ++ calls;
        environ := dotenv w ∪ environ w; dotenv := dotenv w |}) ->
  cache_writable cfg apath (fs w) ->
  generate_audio_url cfg env (JStr t) w
  = (Ok ("/static/audio/" +:+ audio_name_of cfg env engine t),
     {| fs := after_synthesis cfg apath audio
                (JDict (dict_set key entry idx)) (fs w);
        hub := hub w;
        polly_calls := polly_calls w ++ catalog_calls cfg ++ calls;
        environ := dotenv w ∪ environ w; dotenv := dotenv w |}).
Proof.
  intros apath key entry Htts Hvoice Hidx Hlook Hsynth
    (W1 & W2 & W3 & W4 & W5 & W6 & W7 & W8).
  subst apath key entry.
  destruct (generate_audio_url_to_lookup cfg env t w idx Htts Hvoice Hidx)
    as (rest & -> & _ & Hrest).
  unfold try_catch.
  erewrite (bind_ok (on_fs (lookup_cached cfg _)));
    [| apply main_on_fs_run; cbn [looked_up fs];
       rewrite lookup_cached_run, Hlook; reflexivity].
  rewrite Hrest.
  rewrite (bind_ok _ _ _ _ _ Hsynth).
  cbv beta iota zeta.
  fold (audio_path_of cfg env engine t).
  erewrite (bind_ok (on_fs (Fs.mkdir _)));
    [| apply main_on_fs_step, mkdir_run; exact W1].
  erewrite (bind_ok (on_fs (Fs.write_file _ _)));
    [| apply main_on_fs_step, write_file_run; simpl;
       rewrite elem_of_union, elem_of_singleton; tauto].
  erewrite (bind_ok (lift _)); [| reflexivity].
  erewrite (bind_ok (try_catch _ _));
    [| apply persist_index_run; simpl;
       [ rewrite lookup_insert_ne by done; exact W4
       | rewrite elem_of_union, elem_of_singleton; tauto
       | exact W7 ] ].
  unfold ret, after_synthesis, set_files. simpl. reflexivity.
Qed.

Lemma generate_audio_url_miss cfg env t w idx audio :
  let engine := engine_of cfg env in
  let apath := audio_path_of cfg env engine t in
  let entry :=
    index_entry t (voice_of cfg env) engine (POLLY_OUTPUT_FORMAT cfg)
      (AWS_REGION cfg) (audio_name_of cfg env engine t)
      (gmtime_created env) in
  tts_on w ->
  py_strip (POLLY_VOICE_ID cfg) <> "" ->
  load_index cfg (fs w) = (Ok (JDict idx), fs w) ->
  dict_get (lookup_key cfg env t) idx = None ->
  synthesize_speech (aws env) (AWS_REGION cfg) t (POLLY_OUTPUT_FORMAT cfg)
    (voice_of cfg env) (Some engine) = Audio audio ->
  cache_writable cfg apath (fs w) ->
  generate_audio_url cfg env (JStr t) w
  = (Ok ("/static/audio/" +:+ audio_name_of cfg env engine t),
     {| fs := after_synthesis cfg apath audio
                (JDict (dict_set (lookup_key cfg env t) entry idx)) (fs w);
        hub := hub w;
        polly_calls :=
          polly_calls w ++ catalog_calls cfg
            ++ [SynthesizeSpeech (AWS_REGION cfg) t (POLLY_OUTPUT_FORMAT cfg)
                  (voice_of cfg env) (Some engine)];
        environ := dotenv w ∪ environ w; dotenv := dotenv w |}).
Proof.
  intros engine apath entry Htts Hvoice Hidx Hmiss Hsynth Hw.
  subst engine apath entry.
  apply (generate_audio_url_stores cfg env t w idx audio (engine_of cfg env)
           [SynthesizeSpeech (AWS_REGION cfg) t (POLLY_OUTPUT_FORMAT cfg)
              (voice_of cfg env) (Some (engine_of cfg env))]);
    [done | done | done | | | done].
  - unfold entry_of. by rewrite Hmiss.
  - rewrite (synthesize_with_retry_first cfg env t _ _ audio _ Hsynth).
    cbn [looked_up fs hub polly_calls environ dotenv].
    by rewrite <- app_assoc.
Qed.

(** A miss that the alternate engine answers. *)
Lemma generate_audio_url_miss_fallback cfg env t w idx audio :
  let engine := alternate (engine_of cfg env) in
  let apath := audio_path_of cfg env engine t in
  let key :=
    key_hash_of t (voice_of cfg env) engine (POLLY_OUTPUT_FORMAT cfg)
      (AWS_REGION cfg) in
  let entry :=
    index_entry t (voice_of cfg env) engine (POLLY_OUTPUT_FORMAT cfg)
      (AWS_REGION cfg) (audio_name_of cfg env engine t)
      (gmtime_created env) in
  tts_on w ->
  py_strip (POLLY_VOICE_ID cfg) <> "" ->
  load_index cfg (fs w) = (Ok (JDict idx), fs w) ->
  fst (lookup_cached cfg (entry_of cfg env t idx) (fs w)) = Ok None ->
  synthesize_speech (aws env) (AWS_REGION cfg) t (POLLY_OUTPUT_FORMAT cfg)
    (voice_of cfg env) (Some (engine_of cfg env)) = Refused ->
  synthesize_speech (aws env) (AWS_REGION cfg) t (POLLY_OUTPUT_FORMAT cfg)
    (voice_of cfg env) (Some engine) = Audio audio ->
  cache_writable cfg apath (fs w) ->
  generate_audio_url cfg env (JStr t) w
  = (Ok ("/static/audio/" +:+ audio_name_of cfg env engine t),
     {| fs := after_synthesis cfg apath audio
                (JDict (dict_set key entry idx)) (fs w);
        hub := hub w;
        polly_calls :=
          polly_calls w ++ catalog_calls cfg
            ++ [SynthesizeSpeech (AWS_REGION cfg) t (POLLY_OUTPUT_FORMAT cfg)
                  (voice_of cfg env) (Some (engine_of cfg env));
                SynthesizeSpeech (AWS_REGION cfg) t (POLLY_OUTPUT_FORMAT cfg)
                  (voice_of cfg env) (Some engine)];
        environ := dotenv w ∪ environ w; dotenv := dotenv w |}).
Proof.
  intros engine apath key entry Htts Hvoice Hidx Hlook Hfirst Hsecond Hw.
  subst engine apath key entry.
  apply (generate_audio_url_stores cfg env t w idx audio
           (alternate (engine_of cfg env)));
    [done | done | done | done | | done].
  rewrite (synthesize_with_retry_second cfg env t _ _ audio _ Hfirst Hsecond).
  cbn [looked_up fs hub polly_calls environ dotenv].
  by rewrite <- app_assoc.
Qed.

(** **** Where a locator comes from *)

Lemma synthesize_with_retry_some cfg env t vid engine w audio engine' w' :
  synthesize_with_retry cfg env t vid engine w
  = (Ok (Some (audio, engine')), w') ->
  (engine' = engine \/ engine' = alternate engine) /\
  synthesize_speech (aws env) (AWS_REGION cfg) t (POLLY_OUTPUT_FORMAT cfg)
    vid (Some engine') = Audio audio.
Proof.
  unfold synthesize_with_retry, try_catch_if, bind, synthesize, call_polly,
    ret. fold (alternate engine).
  destruct (synthesize_speech (aws env) (AWS_REGION cfg) t
              (POLLY_OUTPUT_FORMAT cfg) vid (Some engine)) eqn:E1; simpl.
  - intros H. simplify_eq. auto.
  - destruct (synthesize_speech (aws env) (AWS_REGION cfg) t
                (POLLY_OUTPUT_FORMAT cfg) vid
                (Some (alternate engine))) eqn:E2; simpl; intros H;
      simplify_eq. auto.
  - done.
Qed.

Lemma load_index_absent cfg t :
  Fs.path_exists (AUDIO_INDEX_PATH cfg) t = false ->
  load_index cfg t = (Ok (JDict []), t).
Proof. intros H. unfold load_index, bind, gets. by rewrite H. Qed.

(** A lookup that finds a file has read its name in an object. *)
Lemma lookup_cached_some cfg entry t url :
  fst (lookup_cached cfg entry t) = Ok (Some url) ->
  exists e fn,
    entry = JDict e /\ dict_get "filename" e = Some (JStr fn) /\
    (Fs.path_exists (Fs.join (audio_dir cfg) fn) t = true \/
     Fs.path_exists (Fs.join (static_folder cfg) fn) t = true).
Proof.
  unfold lookup_cached. destruct (truthy entry); [| done].
  destruct entry as [| | | | |e]; try done.
  unfold bind, lift, py_get, gets, subscript. fold (audio_dir cfg).
  destruct (dict_get "filename" e) as [v|] eqn:Hf; cbn [from_option id].
  - destruct v as [| | |fn| |]; try done. cbn [path_part].
    destruct (Fs.path_exists (Fs.join (audio_dir cfg) fn) t) eqn:Hnew.
    + intros _. exists e, fn. auto.
    + destruct (Fs.path_exists (Fs.join (static_folder cfg) fn) t) eqn:Hold;
        [| done].
      intros _. exists e, fn. auto.
  - cbn [path_part].
    destruct (Fs.path_exists (Fs.join (audio_dir cfg) "") t); [done |].
    by destruct (Fs.path_exists (Fs.join (static_folder cfg) "") t).
Qed.

(** Where a locator comes from: a file that an entry of the index names,
    or the audio with which the service answers the engine asked first or
    the alternate one, for the voice settled on. *)
Lemma main_generate_origin cfg env text w url w' :
  generate_audio_url cfg env text w = (Ok url, w') ->
  url = "" \/
  exists t, text = JStr t /\
    (~ nothing_cached cfg (fs w) \/
     exists engine bytes,
       (engine = engine_of cfg env \/
        engine = alternate (engine_of cfg env)) /\
       synthesize_speech (aws env) (AWS_REGION cfg) t
         (POLLY_OUTPUT_FORMAT cfg) (voice_of cfg env) (Some engine)
       = Audio bytes).
Proof.
  unfold generate_audio_url. intros H.
  apply bind_inv in H as ([] & w0 & H0 & H).
  assert (w0 = snd (load_dotenv w)) as -> by (by rewrite H0). clear H0.
  apply bind_inv in H as (tts & w1 & H1 & H).
  unfold env_flag, gets in H1. injection H1 as _ <-.
  destruct (negb tts); [left; unfold ret in H; by simplify_eq |].
  apply try_catch_inv in H as [H | (e & s1 & _ & H)];
    [| left; unfold ret in H; by simplify_eq].
  destruct (String.eqb _ _); [left; unfold ret in H; by simplify_eq |].
  rewrite (bind_ok _ _ _ _ _ (list_region_voices_run _ _ _)) in H.
  fold (voice_of cfg env) in H. fold (engine_of cfg env) in H.
  apply bind_inv in H as (t & w2 & Ht & H).
  unfold lift in Ht. injection Ht as Ht <-.
  destruct text; try done. simpl in Ht. injection Ht as ->.
  apply bind_inv in H as (index & w3 & Hi & H).
  unfold on_fs, zoom in Hi. cbn [fs load_dotenv modify snd] in Hi.
  rewrite (load_index_run cfg (fs w)) in Hi. injection Hi as Hi <-.
  apply bind_inv in H as (entry & w4 & He & H).
  unfold lift in He. injection He as He <-.
  apply bind_inv in H as (cached & w5 & Hc & H).
  unfold on_fs, zoom in Hc. cbn [fs] in Hc.
  rewrite (lookup_cached_run cfg entry (fs w)) in Hc. injection Hc as Hc <-.
  destruct cached as [u|].
  - right. exists t. split; [done |]. left. intros Hnothing.
    apply lookup_cached_some in Hc as (e & fn & -> & Hfn & Hthere).
    destruct index as [| | | | |idx]; try discriminate He.
    cbn [py_get] in He. injection He as He.
    destruct (dict_get _ idx) as [v|] eqn:Hk; cbn [from_option id] in He;
      [| discriminate He].
    subst v.
    destruct (Hnothing idx _ e fn Hi Hk Hfn) as [Hnew Hold].
    destruct Hthere as [Hy | Hy]; congruence.
  - apply bind_inv in H as (answer & w6 & Ha & H).
    destruct answer as [[audio engine]|];
      [| left; unfold ret in H; by simplify_eq].
    right. exists t. split; [done |].
    right. exists engine, audio.
    by apply synthesize_with_retry_some in Ha.
Qed.

Lemma main_generate_source cfg env text w url w' :
  generate_audio_url cfg env text w = (Ok url, w') ->
  url = "" \/ main_audio_source cfg env w text.
Proof.
  intros H. apply main_generate_origin in H
    as [-> | (t & -> & [Hn | (engine & bytes & _ & Hs)])]; [by left | |].
  - right. exists t. split; [done | by left].
  - right. exists t. split; [done |]. right. by eexists _, _, _.
Qed.

(** When the service answers no synthesis and nothing is cached, the
    locator is empty. *)
Lemma main_generate_empty cfg env text w url w' :
  synthesis_fails (aws env) -> nothing_cached cfg (fs w) ->
  generate_audio_url cfg env text w = (Ok url, w') -> url = "".
Proof.
  intros Hfails Hnothing H.
  apply main_generate_source in H
    as [-> | (t & _ & [Hn | (voice & engine & bytes & Hs)])];
    [done | by destruct (Hn Hnothing) | by destruct (Hfails _ _ _ _ _ _ Hs)].
Qed.




End MainFacts.

(** **** A repeat after a miss *)

Section RepeatFacts.

Import Main.

#[local] Arguments md5_hex12 : simpl never.
#[local] Arguments key_hash_of : simpl never.
#[local] Arguments sanitize_voice_id : simpl never.
#[local] Arguments pick_engine_for_voice : simpl never.
#[local] Arguments py_strip : simpl never.
#[local] Arguments safe_voice_of : simpl never.

Lemma syntheses_app (a b : list polly_call) :
  syntheses (a ++ b) = (syntheses a + syntheses b)%nat.
Proof. unfold syntheses. by rewrite filter_app, length_app. Qed.

Lemma syntheses_catalog_calls cfg : syntheses (catalog_calls cfg) = 0%nat.
Proof. reflexivity. Qed.

Lemma index_is_not_audio cfg env engine t :
  AUDIO_INDEX_PATH cfg <> audio_path_of cfg env engine t.
Proof.
  unfold AUDIO_INDEX_PATH, audio_path_of, audio_name_of, audio_filename_of.
  fold (audio_dir cfg).
  change (Fs.join (audio_dir cfg) "audio_index.json")
    with (audio_dir cfg +:+ "/audio_index.json").
  change (Fs.join (audio_dir cfg)
            ("quote_" +:+ safe_voice_of (voice_of cfg env) +:+ "_" +:+ engine
               +:+ "_" +:+ md5_hex12 t +:+ "." +:+ POLLY_OUTPUT_FORMAT cfg))
    with (audio_dir cfg +:+ "/quote_"
            +:+ safe_voice_of (voice_of cfg env) +:+ "_" +:+ engine
            +:+ "_" +:+ md5_hex12 t +:+ "." +:+ POLLY_OUTPUT_FORMAT cfg).
  intros H. apply (inj (String.append (audio_dir cfg))) in H.
  discriminate H.
Qed.

Lemma tts_on_reloaded w w' :
  environ w' = dotenv w ∪ environ w -> dotenv w' = dotenv w ->
  tts_on w -> tts_on w'.
Proof.
  unfold tts_on, env_flag, gets, load_dotenv, modify. simpl.
  intros -> ->. by rewrite (assoc_L (∪)), (idemp_L (∪)).
Qed.

Lemma lookup_key_same cfg env env' t :
  voice_of cfg env' = voice_of cfg env ->
  engine_of cfg env' = engine_of cfg env ->
  lookup_key cfg env' t = lookup_key cfg env t.
Proof. unfold lookup_key. by intros -> ->. Qed.

Lemma syntheses_looked_up cfg w :
  syntheses (polly_calls (looked_up cfg w)) = syntheses (polly_calls w).
Proof.
  cbn [looked_up polly_calls].
  by rewrite syntheses_app, syntheses_catalog_calls, Nat.add_0_r.
Qed.

(** Two resolutions of the same text, the second for the same voice and
    engine: whatever the lookup of the first gives, the second returns the
    same locator without a synthesis and without a write; the first
    synthesizes when its lookup finds nothing, and only then. *)
Lemma resolved_twice cfg env env' t w idx audio :
  tts_on w ->
  py_strip (POLLY_VOICE_ID cfg) <> "" ->
  load_index cfg (fs w) = (Ok (JDict idx), fs w) ->
  from_option readable true (files (fs w) !! AUDIO_INDEX_PATH cfg) = true ->
  synthesize_speech (aws env) (AWS_REGION cfg) t (POLLY_OUTPUT_FORMAT cfg)
    (voice_of cfg env) (Some (engine_of cfg env)) = Audio audio ->
  cache_writable cfg (audio_path_of cfg env (engine_of cfg env) t) (fs w) ->
  voice_of cfg env' = voice_of cfg env ->
  engine_of cfg env' = engine_of cfg env ->
  exists url w1 w2,
    generate_audio_url cfg env (JStr t) w = (Ok url, w1) /\
    generate_audio_url cfg env' (JStr t) w1 = (Ok url, w2) /\
    (syntheses (polly_calls w1) <= S (syntheses (polly_calls w)))%nat /\
    syntheses (polly_calls w2) = syntheses (polly_calls w1) /\
    fs w2 = fs w1 /\
    (fst (lookup_cached cfg (entry_of cfg env t idx) (fs w)) = Ok None ->
     url = "/static/audio/" +:+ audio_name_of cfg env (engine_of cfg env) t /\
     syntheses (polly_calls w1) = S (syntheses (polly_calls w))).
Proof.
  intros Htts Hvoice Hidx Hmode Hsynth Hw Hv He.
  pose proof (lookup_key_same cfg env env' t Hv He) as Hkey.
  assert (Hentry : entry_of cfg env' t idx = entry_of cfg env t idx)
    by (unfold entry_of; by rewrite Hkey).
  assert (Htts1 : tts_on (looked_up cfg w))
    by (by apply (tts_on_reloaded w)).
  destruct (fst (lookup_cached cfg (entry_of cfg env t idx) (fs w)))
    as [[url|]|e] eqn:Hlook.
  - exists url, (looked_up cfg w), (looked_up cfg (looked_up cfg w)).
    split; [by apply (generate_audio_url_found cfg env t w idx) |].
    split.
    { apply (generate_audio_url_found cfg env' t _ idx); try done.
      by rewrite Hentry. }
    rewrite !syntheses_looked_up.
    split; [lia |]. split; [done |]. split; [done |]. discriminate.
  - pose proof (generate_audio_url_stores cfg env t w idx audio
                  (engine_of cfg env)
                  [SynthesizeSpeech (AWS_REGION cfg) t
                     (POLLY_OUTPUT_FORMAT cfg) (voice_of cfg env)
                     (Some (engine_of cfg env))]
                  Htts Hvoice Hidx Hlook) as H1.
    cbv zeta in H1.
    rewrite (synthesize_with_retry_first cfg env t _ _ audio _ Hsynth) in H1.
    cbn [looked_up fs hub polly_calls environ dotenv] in H1.
    rewrite <- app_assoc in H1. specialize (H1 eq_refl Hw).
    destruct Hw as (W1 & W2 & W3 & W4 & W5 & W6 & W7 & W8).
    pose proof (index_is_not_audio cfg env (engine_of cfg env) t) as Hne.
    eexists _, _, _. split; [exact H1 |].
    split; [| split; [| split; [| split]]].
    + eapply generate_audio_url_hit with
        (e := [("text", JStr t); ("voice", JStr (voice_of cfg env));
               ("engine", JStr (engine_of cfg env));
               ("format", JStr (POLLY_OUTPUT_FORMAT cfg));
               ("region", JStr (AWS_REGION cfg));
               ("filename",
                JStr (audio_name_of cfg env (engine_of cfg env) t));
               ("created_ts", JStr (gmtime_created env));
               ("play_count", JInt 0)]).
      * by apply (tts_on_reloaded w).
      * done.
      * unfold holds, after_synthesis. simpl.
        rewrite lookup_insert_eq, lookup_insert_ne by done.
        by rewrite Hmode.
      * unfold after_synthesis. simpl.
        rewrite !elem_of_union, !elem_of_singleton. tauto.
      * rewrite Hkey. apply dict_get_set.
      * done.
      * reflexivity.
      * unfold Fs.path_exists, after_synthesis. simpl.
        fold (audio_path_of cfg env (engine_of cfg env) t).
        rewrite lookup_insert_ne, lookup_insert_eq by done.
        rewrite bool_decide_eq_true_2 by eauto. done.
    + cbn [polly_calls]. rewrite !syntheses_app, syntheses_catalog_calls.
      unfold syntheses at 2. simpl. lia.
    + cbn [polly_calls].
      by rewrite !syntheses_app, syntheses_catalog_calls, !Nat.add_0_r.
    + reflexivity.
    + intros _. split; [reflexivity |].
      cbn [polly_calls]. rewrite !syntheses_app, syntheses_catalog_calls.
      unfold syntheses at 2. simpl. lia.
  - exists "", (looked_up cfg w), (looked_up cfg (looked_up cfg w)).
    split; [by apply (generate_audio_url_lookup_raises cfg env t w idx e) |].
    split.
    { apply (generate_audio_url_lookup_raises cfg env' t _ idx e); try done.
      by rewrite Hentry. }
    rewrite !syntheses_looked_up.
    split; [lia |]. split; [done |]. split; [done |]. discriminate.
Qed.

End RepeatFacts.

(** *** app.py never raises after the quote *)

Section AppTotality.

Import App.




End AppTotality.

(** ** The vote and reset routes *)







(** C9. [POST /reset] answers 200 with [{"ok": true}], publishes
    [{"type": "hello"}] to the hub, and leaves every file, the vote log
    among them, as it was: the store's [reset] is not called. *)
Theorem reset_route_broadcasts_hello_and_keeps_the_log (w : App.world) :
  exists w',
    App.post_reset w = ({| status := 200; body := Some App.OkTrue |}, w') /\
    SSEHub.broadcast App.Hello (App.hub w) = (Ok tt, App.hub w') /\
    App.fs w' = App.fs w /\
    App.polly_calls w' = App.polly_calls w /\
    (forall path, DataStore.get_landings path (App.fs w')
                  = DataStore.get_landings path (App.fs w)).
Proof.
  destruct (broadcast_returns App.Hello (App.hub w)) as (h' & Hh).
  exists {| App.fs := App.fs w; App.hub := h';
            App.polly_calls := App.polly_calls w |}.
  unfold App.post_reset, flask_view, App.reset, bind, App.on_hub, zoom.
  rewrite Hh. simpl. repeat split; done.
Qed.

(** ** The audio cache *)

(** The side conditions of a first synthesis into an empty directory tree. *)
Ltac cold_cache_writable :=
  unfold cache_writable;
  repeat match goal with
         | |- _ /\ _ => split
         | |- _ !! _ = None => vm_compute; reflexivity
         | |- _ ∉ _ => apply not_elem_of_empty
         | |- _ <> _ => let H := fresh in
                        intros H; vm_compute in H; discriminate H
         end.

(** C6, which fails as stated.  When the engine asked first is refused
    and the alternate one answers, the entry is stored under the alternate
    engine's key: the same request, repeated, misses again and the speech is
    synthesized a second time.  And a repeat that does hit still calls the
    provider, for the voice catalogue. *)
Lemma fallback_is_synthesized_again_on_a_repeat :
  (exists url w1 w2,
      Main.generate_audio_url main_settings (main_outside polly_neural_only)
        (JStr "Well, that happened.") main_world = (Ok url, w1) /\
      Main.generate_audio_url main_settings (main_outside polly_neural_only)
        (JStr "Well, that happened.") w1 = (Ok url, w2) /\
      url = "/static/audio/quote_Joanna_neural_084d04be6037.mp3" /\
      answered polly_neural_only (Main.polly_calls w1)
      = [SynthesizeSpeech "us-east-1" "Well, that happened." "mp3" "Joanna"
           (Some "neural")] /\
      answered polly_neural_only (Main.polly_calls w2)
      = [SynthesizeSpeech "us-east-1" "Well, that happened." "mp3" "Joanna"
           (Some "neural");
         SynthesizeSpeech "us-east-1" "Well, that happened." "mp3" "Joanna"
           (Some "neural")]) /\
  (exists url w1 w2,
      Main.generate_audio_url main_settings (main_outside polly_answering)
        (JStr "Well, that happened.") main_world = (Ok url, w1) /\
      Main.generate_audio_url main_settings (main_outside polly_answering)
        (JStr "Well, that happened.") w1 = (Ok url, w2) /\
      Main.fs w2 = Main.fs w1 /\
      Main.polly_calls w2
      = Main.polly_calls w1
          ++ [DescribeVoices "us-east-1" "standard";
              DescribeVoices "us-east-1" "neural"]).
Proof.
  split.
  - eexists _, _, _.
    split; [vm_compute; reflexivity |].
    split; [vm_compute; reflexivity |].
    split; [reflexivity |].
    split; vm_compute; reflexivity.
  - eexists _, _, _.
    split; [vm_compute; reflexivity |].
    split; [vm_compute; reflexivity |].
    split; vm_compute; reflexivity.
Qed.

(** C6, amended. With TTS on and a voice setting of ASCII text that is
    not blank: when the index holds the key of the request (the one of the
    engine picked from the catalogue) and the file it names exists, the
    stored locator is returned with no synthesis request and no write (the
    two catalogue requests are still sent); and when the index loads as an
    object and can be read back, the engine asked first answers and the
    cache can be written, two resolutions of the same text, the second for
    the same voice and engine, synthesize at most once: the second returns
    the locator of the first with no synthesis and no write, and the first
    synthesizes exactly when its lookup finds nothing. *)
Theorem cached_audio_is_reused_without_synthesis
    (cfg : Main.settings) (env : Main.outside) (t : string)
    (w : Main.world) :
  tts_on w ->
  ascii_text (Main.POLLY_VOICE_ID cfg) ->
  py_strip (Main.POLLY_VOICE_ID cfg) <> "" ->
  (forall idx e fn,
      holds (Main.AUDIO_INDEX_PATH cfg) (JDict idx) (Main.fs w) ->
      Main.AUDIO_INDEX_PATH cfg ∉ dirs (Main.fs w) ->
      dict_get (lookup_key cfg env t) idx = Some (JDict e) ->
      dict_get "filename" e = Some (JStr fn) ->
      Fs.path_exists (Fs.join (audio_dir cfg) fn) (Main.fs w) = true ->
      exists w',
        Main.generate_audio_url cfg env (JStr t) w
        = (Ok ("/static/audio/" +:+ fn), w') /\
        Main.fs w' = Main.fs w /\
        Main.polly_calls w' = Main.polly_calls w ++ catalog_calls cfg /\
        syntheses (Main.polly_calls w') = syntheses (Main.polly_calls w)) /\
  (forall idx audio env',
      Main.load_index cfg (Main.fs w) = (Ok (JDict idx), Main.fs w) ->
      from_option readable true
        (files (Main.fs w) !! Main.AUDIO_INDEX_PATH cfg) = true ->
      synthesize_speech (Main.aws env) (Main.AWS_REGION cfg) t
        (Main.POLLY_OUTPUT_FORMAT cfg) (voice_of cfg env)
        (Some (engine_of cfg env)) = Audio audio ->
      cache_writable cfg (audio_path_of cfg env (engine_of cfg env) t)
        (Main.fs w) ->
      voice_of cfg env' = voice_of cfg env ->
      engine_of cfg env' = engine_of cfg env ->
      exists url w1 w2,
        Main.generate_audio_url cfg env (JStr t) w = (Ok url, w1) /\
        Main.generate_audio_url cfg env' (JStr t) w1 = (Ok url, w2) /\
        (syntheses (Main.polly_calls w1)
         <= S (syntheses (Main.polly_calls w)))%nat /\
        syntheses (Main.polly_calls w2) = syntheses (Main.polly_calls w1) /\
        Main.fs w2 = Main.fs w1 /\
        (fst (Main.lookup_cached cfg (entry_of cfg env t idx) (Main.fs w))
         = Ok None ->
         url = "/static/audio/"
                 +:+ audio_name_of cfg env (engine_of cfg env) t /\
         syntheses (Main.polly_calls w1)
         = S (syntheses (Main.polly_calls w)))).
Proof.
  intros Htts _ Hvoice. split.
  - intros idx e fn Hidx Hnd Hentry Hfn Hfile.
    assert (He : e <> []) by (intros ->; discriminate Hfn).
    eexists. split;
      [exact (generate_audio_url_hit cfg env t w idx e fn Htts Hvoice Hidx
                Hnd Hentry He Hfn Hfile) |].
    simpl. repeat split.
    by rewrite syntheses_app, syntheses_catalog_calls, Nat.add_0_r.
  - intros idx audio env' Hidx Hmode Hsynth Hw Hv He.
    by apply (resolved_twice cfg env env' t w idx audio).
Qed.

Lemma cached_audio_is_reused_without_synthesis_witness :
  let env := main_outside polly_answering in
  let text := "Well, that happened." in
  (exists url w1 w2,
      Main.generate_audio_url main_settings env (JStr text) main_world
      = (Ok url, w1) /\
      Main.generate_audio_url main_settings env (JStr text) w1
      = (Ok url, w2) /\
      url = "/static/audio/"
              +:+ audio_name_of main_settings env
                    (engine_of main_settings env) text /\
      syntheses (Main.polly_calls w1) = 1%nat /\
      syntheses (Main.polly_calls w2) = 1%nat /\
      Main.fs w2 = Main.fs w1) /\
  (let cached :=
     snd (Main.generate_audio_url main_settings env (JStr text) main_world) in
   exists w',
     Main.generate_audio_url main_settings env (JStr text) cached
     = (Ok ("/static/audio/"
              +:+ audio_name_of main_settings env
                    (engine_of main_settings env) text), w') /\
     Main.fs w' = Main.fs cached /\
     syntheses (Main.polly_calls w') = syntheses (Main.polly_calls cached)).
Proof.
  intros env text.
  assert (Hascii : ascii_text (Main.POLLY_VOICE_ID main_settings)).
  { unfold ascii_text. apply (bool_decide_unpack _). vm_compute; reflexivity. }
  assert (Hvoice : py_strip (Main.POLLY_VOICE_ID main_settings) <> "")
    by (vm_compute; discriminate).
  split.
  - assert (Htts : tts_on main_world) by (vm_compute; reflexivity).
    destruct (cached_audio_is_reused_without_synthesis
                main_settings env text main_world Htts Hascii Hvoice)
      as [_ Hrepeat].
    destruct (Hrepeat [] "ID3" env)
      as (url & w1 & w2 & H1 & H2 & _ & S2 & Hfs & Hmiss).
    + vm_compute; reflexivity.
    + vm_compute; reflexivity.
    + vm_compute; reflexivity.
    + cold_cache_writable.
    + reflexivity.
    + reflexivity.
    + destruct Hmiss as [Hurl S1]; [vm_compute; reflexivity |].
      exists url, w1, w2. rewrite S2, S1.
      split; [exact H1 |]. split; [exact H2 |]. split; [exact Hurl |].
      split; [reflexivity |]. split; [reflexivity | exact Hfs].
  - intros cached.
    assert (Htts : tts_on cached) by (vm_compute; reflexivity).
    destruct (cached_audio_is_reused_without_synthesis
                main_settings env text cached Htts Hascii Hvoice)
      as [Hhit _].
    destruct (Hhit
                [(lookup_key main_settings env text,
                  Main.index_entry text (voice_of main_settings env)
                    (engine_of main_settings env)
                    (Main.POLLY_OUTPUT_FORMAT main_settings)
                    (Main.AWS_REGION main_settings)
                    (audio_name_of main_settings env
                       (engine_of main_settings env) text)
                    (Main.gmtime_created env))]
                [("text", JStr text);
                 ("voice", JStr (voice_of main_settings env));
                 ("engine", JStr (engine_of main_settings env));
                 ("format", JStr (Main.POLLY_OUTPUT_FORMAT main_settings));
                 ("region", JStr (Main.AWS_REGION main_settings));
                 ("filename",
                  JStr (audio_name_of main_settings env
                          (engine_of main_settings env) text));
                 ("created_ts", JStr (Main.gmtime_created env));
                 ("play_count", JInt 0)]
                (audio_name_of main_settings env
                   (engine_of main_settings env) text))
      as (w' & Hg & Hfs & _ & Hs).
    + vm_compute; reflexivity.
    + intros H. vm_compute in H. discriminate H.
    + vm_compute; reflexivity.
    + vm_compute; reflexivity.
    + vm_compute; reflexivity.
    + exists w'. split; [exact Hg |]. split; [exact Hfs | exact Hs].
Defined.

(** C7, which fails as stated: requests that differ can resolve to one
    artifact.  In app.py the file is named after the text and the format
    alone, so the same text with another voice is answered from the file
    made with the first voice, without a synthesis; in main.py the file name
    leaves the region out, so the same request in another region, under
    another key, is written to and answered from the same file; and the
    key material of two different requests can be the same string. *)
Lemma requests_that_differ_share_an_artifact :
  (exists url w1 w2,
      App.generate_audio_url (app_settings_with_voice "Joanna")
        (app_outside polly_answering) (JStr "Well, that happened.") app_world
      = (Ok url, w1) /\
      App.generate_audio_url (app_settings_with_voice "Brian")
        (app_outside polly_answering) (JStr "Well, that happened.") w1
      = (Ok url, w2) /\
      url = "/static/quote_084d04be6037.mp3" /\
      App.polly_calls w2 = App.polly_calls w1) /\
  (exists url w1 w2,
      Main.generate_audio_url (main_settings_in "us-east-1")
        (main_outside polly_answering) (JStr "Well, that happened.")
        main_world = (Ok url, w1) /\
      Main.generate_audio_url (main_settings_in "eu-west-1")
        (main_outside polly_answering) (JStr "Well, that happened.") w1
      = (Ok url, w2) /\
      url = "/static/audio/quote_Joanna_standard_084d04be6037.mp3" /\
      lookup_key (main_settings_in "us-east-1") (main_outside polly_answering)
        "Well, that happened."
      <> lookup_key (main_settings_in "eu-west-1")
           (main_outside polly_answering) "Well, that happened.") /\
  Main.key_hash_of "a|voice=b" "c" "standard" "mp3" "us-east-1"
  = Main.key_hash_of "a" "b|voice=c" "standard" "mp3" "us-east-1".
Proof.
  split; [| split].
  - eexists _, _, _.
    split; [vm_compute; reflexivity |].
    split; [vm_compute; reflexivity |].
    split; [reflexivity | vm_compute; reflexivity].
  - eexists _, _, _.
    split; [vm_compute; reflexivity |].
    split; [vm_compute; reflexivity |].
    split; [reflexivity |].
    intros H. vm_compute in H. discriminate H.
  - vm_compute; reflexivity.
Qed.

(** C7, amended. With TTS on, a voice setting of ASCII text that is not
    blank and an index that loads as an object: the key is the first
    twelve hexadecimal digits of the MD5 of the text, the voice, the
    engine, the format and the region set in one line, and of nothing
    else.  The lookup reads the index under the key of the engine picked
    from the catalogue; and whatever the index holds and the clock reads,
    a miss that an engine answers (the one asked first, or the alternate
    one when the first is refused) writes the audio to the file of that
    engine and stores, under the key of the tuple with that engine, the
    entry that records the tuple and the file. *)
Theorem cache_key_is_determined_by_the_request
    (cfg : Main.settings) (env : Main.outside) (t : string)
    (w : Main.world) (idx : dict) :
  let voice := voice_of cfg env in
  let engine := engine_of cfg env in
  let key_of := fun e : string =>
    md5_hex12 (t +:+ "|voice=" +:+ voice +:+ "|engine=" +:+ e
                 +:+ "|fmt=" +:+ Main.POLLY_OUTPUT_FORMAT cfg
                 +:+ "|region=" +:+ Main.AWS_REGION cfg) in
  let entry_for := fun e : string =>
    JDict [("text", JStr t); ("voice", JStr voice); ("engine", JStr e);
           ("format", JStr (Main.POLLY_OUTPUT_FORMAT cfg));
           ("region", JStr (Main.AWS_REGION cfg));
           ("filename", JStr (audio_name_of cfg env e t));
           ("created_ts", JStr (Main.gmtime_created env));
           ("play_count", JInt 0)] in
  tts_on w ->
  ascii_text (Main.POLLY_VOICE_ID cfg) ->
  py_strip (Main.POLLY_VOICE_ID cfg) <> "" ->
  Main.load_index cfg (Main.fs w) = (Ok (JDict idx), Main.fs w) ->
  (forall e fn,
      dict_get (key_of engine) idx = Some (JDict e) ->
      dict_get "filename" e = Some (JStr fn) ->
      Fs.path_exists (Fs.join (audio_dir cfg) fn) (Main.fs w) = true ->
      exists w',
        Main.generate_audio_url cfg env (JStr t) w
        = (Ok ("/static/audio/" +:+ fn), w') /\
        Main.fs w' = Main.fs w) /\
  (fst (Main.lookup_cached cfg
          (from_option id JNull (dict_get (key_of engine) idx)) (Main.fs w))
   = Ok None ->
   forall answering audio,
     (answering = engine /\
      synthesize_speech (Main.aws env) (Main.AWS_REGION cfg) t
        (Main.POLLY_OUTPUT_FORMAT cfg) voice (Some engine) = Audio audio)
     \/ (answering = alternate engine /\
         synthesize_speech (Main.aws env) (Main.AWS_REGION cfg) t
           (Main.POLLY_OUTPUT_FORMAT cfg) voice (Some engine) = Refused /\
         synthesize_speech (Main.aws env) (Main.AWS_REGION cfg) t
           (Main.POLLY_OUTPUT_FORMAT cfg) voice (Some (alternate engine))
         = Audio audio) ->
     cache_writable cfg (audio_path_of cfg env answering t) (Main.fs w) ->
     exists w',
       Main.generate_audio_url cfg env (JStr t) w
       = (Ok ("/static/audio/" +:+ audio_name_of cfg env answering t), w') /\
       data <$> files (Main.fs w') !! Main.AUDIO_INDEX_PATH cfg
       = Some (Document
                 (JDict (dict_set (key_of answering) (entry_for answering)
                           idx))) /\
       dict_get (key_of answering)
         (dict_set (key_of answering) (entry_for answering) idx)
       = Some (entry_for answering) /\
       data <$> files (Main.fs w') !! audio_path_of cfg env answering t
       = Some (Binary audio)).
Proof.
  intros voice engine key_of entry_for Htts _ Hvoice Hidx.
  split.
  - intros e fn Hentry Hfn Hfile.
    assert (He : e <> []) by (intros ->; discriminate Hfn).
    eexists. split.
    + apply (generate_audio_url_found cfg env t w idx); [done | done | done |].
      unfold entry_of.
      change (lookup_key cfg env t) with (key_of engine).
      rewrite Hentry. cbn [from_option id].
      by rewrite (lookup_cached_hit cfg e fn (Main.fs w) He Hfn Hfile).
    + reflexivity.
  - intros Hlook answering audio Hanswer Hw.
    assert (Hstored :
              Main.generate_audio_url cfg env (JStr t) w
              = (Ok ("/static/audio/" +:+ audio_name_of cfg env answering t),
                 {| Main.fs :=
                      after_synthesis cfg (audio_path_of cfg env answering t)
                        audio
                        (JDict (dict_set (key_of answering)
                                  (entry_for answering) idx)) (Main.fs w);
                    Main.hub := Main.hub w;
                    Main.polly_calls :=
                      Main.polly_calls
                        (snd (Main.generate_audio_url cfg env (JStr t) w));
                    Main.environ := Main.dotenv w ∪ Main.environ w;
                    Main.dotenv := Main.dotenv w |})).
    { destruct Hanswer as [[-> Hsynth] | (-> & Hfirst & Hsecond)].
      - pose proof (generate_audio_url_stores cfg env t w idx audio engine
                      [SynthesizeSpeech (Main.AWS_REGION cfg) t
                         (Main.POLLY_OUTPUT_FORMAT cfg) voice (Some engine)]
                      Htts Hvoice Hidx Hlook) as H1.
        cbv zeta in H1.
        rewrite (synthesize_with_retry_first cfg env t _ _ audio _ Hsynth)
          in H1.
        cbn [looked_up Main.fs Main.hub Main.polly_calls Main.environ
               Main.dotenv] in H1.
        rewrite <- app_assoc in H1. specialize (H1 eq_refl Hw).
        rewrite H1. reflexivity.
      - pose proof (generate_audio_url_miss_fallback cfg env t w idx audio
                      Htts Hvoice Hidx Hlook Hfirst Hsecond Hw) as H1.
        rewrite H1. reflexivity. }
    destruct Hw as (W1 & W2 & W3 & W4 & W5 & W6 & W7 & W8).
    pose proof (index_is_not_audio cfg env answering t) as Hne.
    eexists. split; [exact Hstored |].
    cbn [Main.fs after_synthesis files].
    split; [by rewrite lookup_insert_eq |].
    split; [apply dict_get_set |].
    by rewrite lookup_insert_ne, lookup_insert_eq.
Qed.

Lemma cache_key_is_determined_by_the_request_witness :
  let env := main_outside polly_neural_only in
  let text := "Well, that happened." in
  let key :=
    md5_hex12 (text +:+ "|voice=" +:+ voice_of main_settings env
                 +:+ "|engine=" +:+ "neural"
                 +:+ "|fmt=" +:+ Main.POLLY_OUTPUT_FORMAT main_settings
                 +:+ "|region=" +:+ Main.AWS_REGION main_settings) in
  let entry :=
    JDict [("text", JStr text); ("voice", JStr (voice_of main_settings env));
           ("engine", JStr "neural");
           ("format", JStr (Main.POLLY_OUTPUT_FORMAT main_settings));
           ("region", JStr (Main.AWS_REGION main_settings));
           ("filename", JStr (audio_name_of main_settings env "neural" text));
           ("created_ts", JStr (Main.gmtime_created env));
           ("play_count", JInt 0)] in
  engine_of main_settings env = "standard" /\
  exists w',
    Main.generate_audio_url main_settings env (JStr text) main_world
    = (Ok ("/static/audio/"
             +:+ audio_name_of main_settings env "neural" text), w') /\
    data <$> files (Main.fs w') !! Main.AUDIO_INDEX_PATH main_settings
    = Some (Document (JDict (dict_set key entry []))) /\
    dict_get key (dict_set key entry []) = Some entry /\
    data <$> files (Main.fs w') !! audio_path_of main_settings env "neural" text
    = Some (Binary "ID3").
Proof.
  intros env text key entry.
  split; [vm_compute; reflexivity |].
  assert (Htts : tts_on main_world) by (vm_compute; reflexivity).
  assert (Hascii : ascii_text (Main.POLLY_VOICE_ID main_settings)).
  { unfold ascii_text. apply (bool_decide_unpack _). vm_compute; reflexivity. }
  assert (Hvoice : py_strip (Main.POLLY_VOICE_ID main_settings) <> "")
    by (vm_compute; discriminate).
  assert (Hidx : Main.load_index main_settings (Main.fs main_world)
                 = (Ok (JDict []), Main.fs main_world))
    by (vm_compute; reflexivity).
  destruct (cache_key_is_determined_by_the_request
              main_settings env text main_world []
              Htts Hascii Hvoice Hidx) as [_ Hmiss].
  apply (Hmiss eq_refl "neural" "ID3").
  - right. split; [vm_compute; reflexivity |].
    split; vm_compute; reflexivity.
  - cold_cache_writable.
Defined.
(* ===================================================================== *)
(** * Further properties *)
(* ===================================================================== *)

(** ** More of the statistics *)

Section StatsMore.

Import Stats.

Lemma max_of_upper (l : list Z) : forall x,
  x <= max_of x l /\ forall y, y ∈ l -> y <= max_of x l.
Proof.
  unfold max_of. induction l as [|z l IH]; intros x; simpl.
  - split; [lia |]. intros y Hy. by apply elem_of_nil in Hy.
  - destruct (IH (Z.max x z)) as [H1 H2]. split; [lia |].
    intros y Hy. apply elem_of_cons in Hy as [-> | Hy]; [lia | by apply H2].
Qed.

Lemma max_of_member (l : list Z) : forall x, max_of x l ∈ x :: l.
Proof.
  unfold max_of. induction l as [|z l IH]; intros x; simpl.
  - apply list_elem_of_here.
  - specialize (IH (Z.max x z)).
    apply elem_of_cons in IH as [E | IH].
    + rewrite E. destruct (Z.max_spec x z) as [[_ ->] | [_ ->]].
      * apply list_elem_of_further, list_elem_of_here.
      * apply list_elem_of_here.
    + by do 2 apply list_elem_of_further.
Qed.

Lemma best_upper (scores : list Z) (average : pyfloat) s :
  s ∈ scores -> s <= best (stats_of_scores scores average).
Proof.
  destruct scores as [|x l]; simpl; intros Hs.
  - by apply elem_of_nil in Hs.
  - destruct (max_of_upper l x) as [H1 H2].
    apply elem_of_cons in Hs as [-> | Hs]; [done | by apply H2].
Qed.

Lemma best_member (scores : list Z) (average : pyfloat) :
  scores <> [] -> best (stats_of_scores scores average) ∈ scores.
Proof.
  destruct scores as [|x l]; [done | intros _; simpl]. apply max_of_member.
Qed.

Lemma sorted_map_snd (l : list (nat * Z)) :
  StronglySorted ranks_before l ->
  StronglySorted (fun a b : Z => b <= a) (map snd l).
Proof.
  induction 1 as [|a l Hs IH Ha]; simpl; constructor; [done |].
  apply Forall_forall. intros y Hy.
  apply list_elem_of_In, in_map_iff in Hy as [b [<- Hb]].
  apply list_elem_of_In in Hb.
  rewrite Forall_forall in Ha. specialize (Ha b Hb).
  unfold ranks_before in Ha. lia.
Qed.

Lemma sorted_app_inv {A} (R : A -> A -> Prop) (l1 l2 : list A) :
  StronglySorted R (l1 ++ l2) ->
  StronglySorted R l1 /\ forall x y, x ∈ l1 -> y ∈ l2 -> R x y.
Proof.
  induction l1 as [|a l1 IH]; simpl; intros H.
  - split; [constructor |]. intros x y Hx. by apply elem_of_nil in Hx.
  - apply StronglySorted_inv in H as [Hs Hfa].
    destruct (IH Hs) as [IH1 IH2].
    rewrite Forall_forall in Hfa. split.
    + constructor; [done |]. apply Forall_forall. intros y Hy.
      apply Hfa, elem_of_app. by left.
    + intros x y Hx Hy. apply elem_of_cons in Hx as [-> | Hx].
      * apply Hfa, elem_of_app. by right.
      * by apply IH2.
Qed.

Lemma mapM_raise {A B} (f : A -> result B) l1 r1 x e l2 :
  mapM f l1 = Ok r1 -> f x = Raise e -> mapM f (l1 ++ x :: l2) = Raise e.
Proof.
  revert r1. induction l1 as [|y l1 IH]; intros r1; simpl.
  - intros _ ->. done.
  - destruct (f y) as [b|e']; simpl; [| done].
    destruct (mapM f l1) as [bs|e'] eqn:E; simpl; [| done].
    intros _ Hx. by rewrite (IH bs eq_refl Hx).
Qed.

End StatsMore.

(** X1. [compute_stats] of app.py: once every record yields a score and
    the average of the scores is a float, [best] is the highest score of
    the log: no score exceeds it, it is one of the scores when there is
    any, and it is 0 for an empty log. *)
Theorem best_is_the_highest_score (landings : list json) (scores : list Z) :
  mapM Stats.score_of landings = Ok scores ->
  average_is_float scores ->
  exists st,
    Stats.compute_stats landings = Ok st /\
    (forall s, s ∈ scores -> s <= Stats.best st) /\
    (scores <> [] -> Stats.best st ∈ scores) /\
    (scores = [] -> Stats.best st = 0).
Proof.
  intros H Hf. eexists.
  split; [by apply compute_stats_of_scores |].
  split; [intros s; apply best_upper |].
  split; [apply best_member |]. by intros ->.
Qed.

Lemma best_is_the_highest_score_witness :
  exists st,
    Stats.compute_stats
      [JDict [("score", JInt 4)]; JDict [("score", JStr " 9 ")];
       JDict [("ts", JStr "t")]] = Ok st /\
    (forall s, s ∈ [4; 9; 0] -> s <= Stats.best st) /\
    ([4; 9; 0] <> [] -> Stats.best st ∈ [4; 9; 0]) /\
    ([4; 9; 0] = [] -> Stats.best st = 0).
Proof.
  apply (best_is_the_highest_score
           [JDict [("score", JInt 4)]; JDict [("score", JStr " 9 ")];
            JDict [("ts", JStr "t")]] [4; 9; 0]).
  - vm_compute; reflexivity.
  - right. vm_compute; reflexivity.
Defined.

(** X2. [compute_stats] of app.py, once every record yields a score and
    the average of the scores is a float: [recent] holds the last ten
    scores of the log, or all of them when there are fewer, the newest
    first: its entry [i] is the score [i] places before the end of the
    log. *)
Theorem recent_is_the_last_ten_newest_first
    (landings : list json) (scores : list Z) :
  mapM Stats.score_of landings = Ok scores ->
  average_is_float scores ->
  exists st,
    Stats.compute_stats landings = Ok st /\
    length (Stats.recent st) = Nat.min 10 (length scores) /\
    forall i : nat, (i < length (Stats.recent st))%nat ->
      Stats.recent st !! i = scores !! (length scores - 1 - i)%nat.
Proof.
  intros H Hf. eexists.
  split; [by apply compute_stats_of_scores |].
  assert (forall average,
             length (Stats.recent (Stats.stats_of_scores scores average))
             = Nat.min 10 (length scores)) as Hlen.
  { intros average. unfold Stats.stats_of_scores, Stats.recent, Stats.last_n.
    rewrite length_rev, length_skipn. lia. }
  split; [apply Hlen |].
  intros i Hi. rewrite Hlen in Hi.
  unfold Stats.stats_of_scores, Stats.recent, Stats.last_n.
  rewrite rev_alt.
  change (rev_append ?l []) with (reverse l).
  rewrite reverse_lookup by (rewrite length_drop; lia).
  rewrite lookup_drop, length_drop. f_equal. lia.
Qed.

Lemma recent_is_the_last_ten_newest_first_witness :
  let landings :=
    map (fun n => JDict [("score", JInt n)])
      [1; 2; 3; 4; 5; 6; 7; 8; 9; 10; 9; 8] in
  exists st,
    Stats.compute_stats landings = Ok st /\
    length (Stats.recent st)
    = Nat.min 10 (length [1; 2; 3; 4; 5; 6; 7; 8; 9; 10; 9; 8]) /\
    forall i : nat, (i < length (Stats.recent st))%nat ->
      Stats.recent st !! i
      = [1; 2; 3; 4; 5; 6; 7; 8; 9; 10; 9; 8]
          !! (length [1; 2; 3; 4; 5; 6; 7; 8; 9; 10; 9; 8] - 1 - i)%nat.
Proof.
  apply (recent_is_the_last_ten_newest_first
           (map (fun n => JDict [("score", JInt n)])
              [1; 2; 3; 4; 5; 6; 7; 8; 9; 10; 9; 8])
           [1; 2; 3; 4; 5; 6; 7; 8; 9; 10; 9; 8]).
  - vm_compute; reflexivity.
  - right. vm_compute; reflexivity.
Defined.

(** X3. [compute_stats] of app.py, once every record yields a score and
    the average of the scores is a float: [top] holds the five highest
    scores of the log, or all of them when there are fewer, in
    non-increasing order: the scores left out are a rest none of which
    exceeds a score of [top], and the first of [top] is [best]. *)
Theorem top_holds_the_highest_scores
    (landings : list json) (scores : list Z) :
  mapM Stats.score_of landings = Ok scores ->
  average_is_float scores ->
  exists st rest,
    Stats.compute_stats landings = Ok st /\
    length (Stats.top st) = Nat.min 5 (length scores) /\
    StronglySorted (fun a b : Z => b <= a) (Stats.top st) /\
    Permutation scores (Stats.top st ++ rest) /\
    (forall x y, x ∈ Stats.top st -> y ∈ rest -> y <= x) /\
    (forall x, head (Stats.top st) = Some x -> x = Stats.best st).
Proof.
  intros H Hf.
  set (ranked := Stats.sort_by Stats.key_leb Stats.sort_key
                   (Stats.enumerate scores)).
  destruct (ranking_sorted scores) as [Hperm Hsorted]. fold ranked in Hperm, Hsorted.
  set (average := match scores with
                  | [] => FloatZero
                  | _ => Round2Div (Stats.sum scores)
                           (Z.of_nat (length scores))
                  end).
  exists (Stats.stats_of_scores scores average), (map snd (skipn 5 ranked)).
  split; [by apply compute_stats_of_scores |].
  assert (Hall : Permutation scores
                   (map snd (firstn 5 ranked) ++ map snd (skipn 5 ranked))).
  { rewrite <- map_app, firstn_skipn.
    rewrite <- (snd_enumerate_from 0 scores) at 1.
    symmetry. apply Permutation_map. exact Hperm. }
  assert (Hss : StronglySorted (fun a b : Z => b <= a)
                  (map snd (firstn 5 ranked) ++ map snd (skipn 5 ranked))).
  { rewrite <- map_app, firstn_skipn. by apply sorted_map_snd. }
  assert (Hlen : length ranked = length scores).
  { rewrite (Permutation_length Hperm). unfold Stats.enumerate.
    rewrite <- (length_map fst), fst_enumerate_from. apply length_seq. }
  change (Stats.top (Stats.stats_of_scores scores average))
    with (map snd (firstn 5 ranked)).
  split; [rewrite length_map, length_firstn, Hlen; lia |].
  split; [by apply sorted_app_inv in Hss as [? _] |].
  split; [exact Hall |].
  split.
  { intros x y Hx Hy. apply sorted_app_inv in Hss as [_ Hss]. by apply Hss. }
  intros x Hx.
  assert (x ∈ scores) as Hin.
  { rewrite Hall. apply elem_of_app. left.
    destruct (map snd (firstn 5 ranked)); simplify_eq/=. apply list_elem_of_here. }
  assert (scores <> []) as Hne by (intros ->; by apply elem_of_nil in Hin).
  pose proof (best_upper scores average x Hin) as Hle.
  pose proof (best_member scores average Hne) as Hb.
  apply list_elem_of_In, (Permutation_in _ Hall), list_elem_of_In in Hb.
  destruct (map snd (firstn 5 ranked)) as [|t ts] eqn:Et; simplify_eq/=.
  apply StronglySorted_inv in Hss as [_ Hfa].
  rewrite Forall_forall in Hfa.
  apply elem_of_cons in Hb as [E | Hb]; [lia |].
  specialize (Hfa _ Hb). lia.
Qed.

Lemma top_holds_the_highest_scores_witness :
  let landings :=
    map (fun n => JDict [("score", JInt n)]) [5; 9; 2; 9; 3; 7; 1] in
  exists st rest,
    Stats.compute_stats landings = Ok st /\
    length (Stats.top st) = Nat.min 5 (length [5; 9; 2; 9; 3; 7; 1]) /\
    StronglySorted (fun a b : Z => b <= a) (Stats.top st) /\
    Permutation [5; 9; 2; 9; 3; 7; 1] (Stats.top st ++ rest) /\
    (forall x y, x ∈ Stats.top st -> y ∈ rest -> y <= x) /\
    (forall x, head (Stats.top st) = Some x -> x = Stats.best st).
Proof.
  apply (top_holds_the_highest_scores
           (map (fun n => JDict [("score", JInt n)]) [5; 9; 2; 9; 3; 7; 1])
           [5; 9; 2; 9; 3; 7; 1]).
  - vm_compute; reflexivity.
  - right. vm_compute; reflexivity.
Defined.
(* ===================================================================== *)
(** ** More of the vote store *)
(* ===================================================================== *)

Section StoreMore.

Import DataStore.

Lemma dict_get_set_ne k k' v d :
  k <> k' -> dict_get k (dict_set k' v d) = dict_get k d.
Proof.
  intros Hne. induction d as [|[k0 v0] d IH]; simpl.
  - by rewrite (proj2 (String.eqb_neq k k') Hne).
  - destruct (String.eqb k' k0) eqn:E; simpl.
    + apply String.eqb_eq in E. subst k0.
      by rewrite (proj2 (String.eqb_neq k k') Hne).
    + destruct (String.eqb k k0); [done | exact IH].
Qed.

Lemma read_readonly path fs : snd (_read path fs) = fs.
Proof. symmetry. apply (app_load_json_readonly path fs). Qed.

Lemma read_run path fs : _read path fs = (fst (_read path fs), fs).
Proof.
  rewrite <- (read_readonly path fs) at 3. by destruct (_read path fs).
Qed.

(** One append to a log whose document takes the record. *)
Lemma append_run path j j' score ts fs :
  regular path fs -> holds path j fs ->
  setdefault_append j "landings" (record score ts) = Ok j' ->
  exists fs', append path score ts fs = (Ok tt, fs') /\
              holds path j' fs' /\ regular path fs' /\
              dirs fs' = dirs fs /\
              forall p, p <> path -> p <> path +:+ ".tmp" ->
                        files fs' !! p = files fs !! p.
Proof.
  intros Hr Hh Hs.
  unfold append, bind, try_catch.
  rewrite (read_holds path _ fs (proj1 Hr) Hh).
  unfold lift. rewrite Hs.
  destruct (atomic_write_regular path j' fs Hr) as (fs' & Hw & Hrest).
  exists fs'. by rewrite Hw.
Qed.

Lemma get_landings_run path fs :
  get_landings path fs
  = (match fst (_read path fs) with
     | Ok (JDict d) =>
         Ok (match dict_get "landings" d with
             | Some (JList l) => l
             | _ => []
             end)
     | Ok _ => Raise AttributeError
     | Raise _ => Ok []
     end, fs).
Proof.
  unfold get_landings, bind, try_catch. rewrite (read_run path fs).
  destruct (fst (_read path fs)) as [j|e]; simpl.
  - destruct j as [| | | | |d]; try reflexivity.
    simpl. unfold lift, ret. simpl.
    destruct (dict_get "landings" d) as [[| | | | |]|]; reflexivity.
  - reflexivity.
Qed.

End StoreMore.

(** X4. GET /stats of app.py: a record of the log from which no score can
    be taken fails the whole computation with the exception of the first
    such record, and the route answers 500 without changing anything.  A
    record that is not an object raises [AttributeError]; a score that is
    [null], a list or an object raises [TypeError]; a score that is ASCII
    text and no integer literal, or one of more than 4300 digits, raises
    [ValueError]. *)
Theorem stats_route_fails_on_a_malformed_record :
  (forall (cfg : App.settings) (w : App.world) (d : dict)
          (before after : list json) (x : json) (sb : list Z) (e : exn),
      App.DATA_FILE cfg ∉ dirs (App.fs w) ->
      holds (App.DATA_FILE cfg) (JDict d) (App.fs w) ->
      dict_get "landings" d = Some (JList (before ++ x :: after)) ->
      mapM Stats.score_of before = Ok sb ->
      no_score x e ->
      Stats.compute_stats (before ++ x :: after) = Raise e /\
      App.stats cfg w = (Raise e, w) /\
      flask_view (App.stats cfg) w = ({| status := 500; body := None |}, w)) /\
  (forall x, (forall d, x <> JDict d) ->
             Stats.score_of x = Raise AttributeError) /\
  (forall d v, dict_get "score" d = Some v ->
               match v with
               | JNull | JList _ | JDict _ => True
               | _ => False
               end ->
               Stats.score_of (JDict d) = Raise TypeError) /\
  (forall d s, dict_get "score" d = Some (JStr s) ->
               ascii_text s -> int_of_str s = Raise ValueError ->
               no_score (JDict d) ValueError).
Proof.
  split; [| split; [| split]].
  - intros cfg w d before after x sb e Hp Hh Hd Hb [Hx _].
    assert (Stats.compute_stats (before ++ x :: after) = Raise e) as Hc.
    { unfold Stats.compute_stats. by rewrite (mapM_raise _ _ _ _ _ _ Hb Hx). }
    assert (App.stats cfg w = (Raise e, w)) as Hs.
    { unfold App.stats, bind, App.on_fs, zoom.
      rewrite (get_landings_holds _ _ _ _ Hp Hh Hd).
      unfold lift. rewrite Hc. by destruct w. }
    split; [exact Hc |]. split; [exact Hs |].
    unfold flask_view. by rewrite Hs.
  - intros x Hx. destruct x; try reflexivity. by destruct (Hx d).
  - intros d v Hd Hv. unfold Stats.score_of, py_get. rewrite Hd. simpl.
    by destruct v.
  - intros d s Hd Hs He. split.
    + unfold Stats.score_of, py_get. rewrite Hd. simpl. exact He.
    + intros d' s' [= <-] Hd'. rewrite Hd in Hd'. by injection Hd' as <-.
Qed.

Lemma stats_route_fails_on_a_malformed_record_witness :
  let w :=
    {| App.fs :=
         {| files :=
              {[ "landings.json" :=
                   {| readable := true;
                      data :=
                        Document
                          (JDict [("landings",
                                   JList [DataStore.record 7 "t1";
                                          JDict [("score", JStr "eight")];
                                          DataStore.record 9 "t3"])]) |} ]};
            dirs := ∅ |};
       App.hub := {| SSEHub.queues := ∅; SSEHub.clients := [] |};
       App.polly_calls := [] |} in
  Stats.compute_stats
    ([DataStore.record 7 "t1"]
       ++ JDict [("score", JStr "eight")] :: [DataStore.record 9 "t3"])
  = Raise ValueError /\
  App.stats app_settings w = (Raise ValueError, w) /\
  flask_view (App.stats app_settings) w
  = ({| status := 500; body := None |}, w).
Proof.
  intros w.
  apply (proj1 stats_route_fails_on_a_malformed_record app_settings w
           [("landings",
             JList [DataStore.record 7 "t1"; JDict [("score", JStr "eight")];
                    DataStore.record 9 "t3"])]
           [DataStore.record 7 "t1"] [DataStore.record 9 "t3"]
           (JDict [("score", JStr "eight")]) [7] ValueError).
  - apply not_elem_of_empty.
  - vm_compute; reflexivity.
  - vm_compute; reflexivity.
  - vm_compute; reflexivity.
  - split; [vm_compute; reflexivity |].
    intros d s [= <-] [= <-]. unfold ascii_text. simpl.
    repeat constructor.
Defined.

(** X5. [DataStore._ensure_file]: a log that can be read and holds an
    object with a list under "landings" is left as it is, with its records
    and any other key; nothing is written. *)
Theorem ensure_file_keeps_a_valid_log
    (path : string) (j : json) (fs : filesystem) :
  path ∉ dirs fs -> holds path j fs ->
  DataStore.valid_structure j = true ->
  DataStore._ensure_file path fs = (Ok tt, fs).
Proof.
  intros Hp Hh Hv.
  unfold DataStore._ensure_file, bind, gets, try_catch, Fs.path_exists.
  rewrite Hh. simpl.
  rewrite (read_holds path j fs Hp Hh). by rewrite Hv.
Qed.

Lemma ensure_file_keeps_a_valid_log_witness :
  let fs :=
    {| files :=
         {[ "landings.json" :=
              {| readable := true;
                 data :=
                   Document
                     (JDict [("version", JInt 2);
                             ("landings", JList [DataStore.record 7 "t1"])])
              |} ]};
       dirs := ∅ |} in
  DataStore._ensure_file "landings.json" fs = (Ok tt, fs).
Proof.
  intros fs.
  apply (ensure_file_keeps_a_valid_log "landings.json"
           (JDict [("version", JInt 2);
                   ("landings", JList [DataStore.record 7 "t1"])]) fs).
  - apply not_elem_of_empty.
  - vm_compute; reflexivity.
  - vm_compute; reflexivity.
Defined.

(** X6. [DataStore.append]: when the log cannot be read (it is missing,
    unreadable or not JSON) the append starts a new log that holds the one
    record; what the file held is gone. *)
Theorem append_replaces_a_log_it_cannot_read
    (path : string) (fs : filesystem) (score : Z) (ts : string) (e : exn) :
  regular path fs ->
  fst (DataStore._read path fs) = Raise e ->
  exists fs',
    DataStore.append path score ts fs = (Ok tt, fs') /\
    holds path (JDict [("landings", JList [DataStore.record score ts])]) fs' /\
    DataStore.get_landings path fs' = (Ok [DataStore.record score ts], fs').
Proof.
  intros Hr He.
  destruct (atomic_write_regular path
              (JDict [("landings", JList [DataStore.record score ts])]) fs Hr)
    as (fs' & Hw & Hh & Hr' & _).
  exists fs'. split; [| split; [exact Hh |]].
  - unfold DataStore.append, bind, try_catch.
    rewrite (read_run path fs), He. simpl. exact Hw.
  - by apply (get_landings_holds path _ _ fs' (proj1 Hr') Hh).
Qed.

Lemma append_replaces_a_log_it_cannot_read_witness :
  let fs :=
    {| files := {[ "landings.json" :=
                     {| readable := true; data := Binary "{landings: [" |} ]};
       dirs := ∅ |} in
  exists fs',
    DataStore.append "landings.json" 7 "t1" fs = (Ok tt, fs') /\
    holds "landings.json"
      (JDict [("landings", JList [DataStore.record 7 "t1"])]) fs' /\
    DataStore.get_landings "landings.json" fs'
    = (Ok [DataStore.record 7 "t1"], fs').
Proof.
  intros fs.
  apply (append_replaces_a_log_it_cannot_read "landings.json" fs 7 "t1"
           JSONDecodeError).
  - split; [apply not_elem_of_empty |].
    split; [apply not_elem_of_empty | vm_compute; reflexivity].
  - vm_compute; reflexivity.
Defined.

(** X7. [DataStore.append]: the new record goes to the end of the list
    under "landings" (a list that starts empty when the object has no such
    key), and every other key of the object keeps its value. *)
Theorem append_keeps_the_other_keys
    (path : string) (fs : filesystem) (d : dict) (old : list json)
    (score : Z) (ts : string) :
  regular path fs -> holds path (JDict d) fs ->
  (dict_get "landings" d = Some (JList old) \/
   dict_get "landings" d = None /\ old = []) ->
  exists fs' d',
    DataStore.append path score ts fs = (Ok tt, fs') /\
    holds path (JDict d') fs' /\
    dict_get "landings" d'
    = Some (JList (old ++ [DataStore.record score ts])) /\
    forall k, k <> "landings" -> dict_get k d' = dict_get k d.
Proof.
  intros Hr Hh Hd.
  set (d' := dict_set "landings"
               (JList (old ++ [DataStore.record score ts])) d).
  assert (DataStore.setdefault_append (JDict d) "landings"
            (DataStore.record score ts) = Ok (JDict d')) as Hs.
  { unfold DataStore.setdefault_append.
    destruct Hd as [-> | [-> ->]]; reflexivity. }
  destruct (append_run path _ _ score ts fs Hr Hh Hs) as (fs' & Ha & Hh' & _).
  exists fs', d'. split; [exact Ha |]. split; [exact Hh' |].
  split; [apply dict_get_set |].
  intros k Hk. by apply dict_get_set_ne.
Qed.

Lemma append_keeps_the_other_keys_witness :
  let fs :=
    {| files := {[ "landings.json" :=
                     {| readable := true;
                        data := Document (JDict [("pilot", JStr "ada")]) |} ]};
       dirs := ∅ |} in
  exists fs' d',
    DataStore.append "landings.json" 7 "t1" fs = (Ok tt, fs') /\
    holds "landings.json" (JDict d') fs' /\
    dict_get "landings" d' = Some (JList ([] ++ [DataStore.record 7 "t1"])) /\
    forall k, k <> "landings" ->
              dict_get k d' = dict_get k [("pilot", JStr "ada")].
Proof.
  intros fs.
  apply (append_keeps_the_other_keys "landings.json" fs
           [("pilot", JStr "ada")] [] 7 "t1").
  - split; [apply not_elem_of_empty |].
    split; [apply not_elem_of_empty | vm_compute; reflexivity].
  - vm_compute; reflexivity.
  - right. split; [vm_compute; reflexivity | reflexivity].
Defined.

(** X8. [DataStore.get_landings] never writes.  It returns the list under
    "landings" of the object in the log; the empty list when the log cannot
    be read, when the object has no such key, or when the value is not a
    list; and it raises [AttributeError] exactly when the log holds JSON
    that is not an object. *)
Theorem get_landings_reads_without_writing (path : string) (fs : filesystem) :
  snd (DataStore.get_landings path fs) = fs /\
  (forall e, fst (DataStore._read path fs) = Raise e ->
             fst (DataStore.get_landings path fs) = Ok []) /\
  (forall d, fst (DataStore._read path fs) = Ok (JDict d) ->
             fst (DataStore.get_landings path fs)
             = Ok (match dict_get "landings" d with
                   | Some (JList l) => l
                   | _ => []
                   end)) /\
  (fst (DataStore.get_landings path fs) = Raise AttributeError <->
   exists j, fst (DataStore._read path fs) = Ok j /\
             forall d, j <> JDict d) /\
  (forall e, fst (DataStore.get_landings path fs) = Raise e ->
             e = AttributeError).
Proof.
  rewrite (get_landings_run path fs). simpl.
  split; [reflexivity |].
  split; [by intros e -> |].
  split; [by intros d -> |].
  split.
  - destruct (fst (DataStore._read path fs)) as [j|e].
    + destruct j as [| | | | |d];
        try (split; [intros _; eexists; split; [reflexivity | by intros d']
                    | reflexivity]).
      split; [intros H; discriminate H |].
      intros (j & Hj & Hd). simplify_eq. by destruct (Hd d).
    + split; [intros H; discriminate H |].
      intros (j & Hj & _). discriminate Hj.
  - intros e.
    destruct (fst (DataStore._read path fs)) as [j|e'].
    + destruct j; intros H; by simplify_eq.
    + discriminate.
Qed.

(** X9. [DataStore._atomic_write]: the document is in place under the
    log's name, the temporary file it went through is gone, and no
    directory and no other file has changed. *)
Theorem atomic_write_leaves_no_temporary_file
    (path : string) (j : json) (fs : filesystem) :
  regular path fs ->
  exists fs',
    DataStore._atomic_write path j fs = (Ok tt, fs') /\
    holds path j fs' /\
    files fs' !! (path +:+ ".tmp") = None /\
    dirs fs' = dirs fs /\
    forall p, p <> path -> p <> path +:+ ".tmp" ->
              files fs' !! p = files fs !! p.
Proof.
  intros Hr.
  destruct (atomic_write_regular path j fs Hr)
    as (fs' & Hw & Hh & Hr' & Hd & Hf).
  exists fs'. split; [exact Hw |]. split; [exact Hh |].
  split; [| by split].
  destruct Hr as (Hp & Ht & Hn).
  unfold DataStore._atomic_write, bind, Fs.write_file, Fs.os_replace in Hw.
  rewrite (bool_decide_eq_false_2 _ Ht), Hn in Hw. simpl in Hw.
  rewrite (bool_decide_eq_false_2 _ Hp), lookup_insert_eq in Hw.
  simplify_eq. simpl.
  rewrite lookup_insert_ne by (apply not_eq_sym, tmp_differs).
  apply lookup_delete_eq.
Qed.

Lemma atomic_write_leaves_no_temporary_file_witness :
  let fs :=
    {| files := {[ "landings.json.tmp" :=
                     {| readable := true; data := Binary "{" |} ]};
       dirs := ∅ |} in
  exists fs',
    DataStore._atomic_write "landings.json" DataStore.empty_log fs
    = (Ok tt, fs') /\
    holds "landings.json" DataStore.empty_log fs' /\
    files fs' !! ("landings.json" +:+ ".tmp") = None /\
    dirs fs' = dirs fs /\
    forall p, p <> "landings.json" -> p <> "landings.json" +:+ ".tmp" ->
              files fs' !! p = files fs !! p.
Proof.
  intros fs.
  apply (atomic_write_leaves_no_temporary_file "landings.json"
           DataStore.empty_log fs).
  split; [apply not_elem_of_empty |].
  split; [apply not_elem_of_empty | vm_compute; reflexivity].
Defined.
(* ===================================================================== *)
(** ** More of the broadcast hub, and the event stream *)
(* ===================================================================== *)

Section HubMore.

Context {payload : Type}.

Implicit Types (h : SSEHub.hub payload) (qu : SSEHub.queue payload).

Lemma extended_nil qu : extended [] qu = qu.
Proof. destruct qu. unfold extended. simpl. by rewrite app_nil_r. Qed.

Lemma extended_app (l1 l2 : list payload) qu :
  extended l2 (extended l1 qu) = extended (l1 ++ l2) qu.
Proof. unfold extended. simpl. by rewrite app_assoc. Qed.

Lemma offer_unbounded (item : payload) qu :
  SSEHub.maxsize qu = 0%nat -> offer item qu = extended [item] qu.
Proof.
  intros H. unfold offer, SSEHub.put_nowait, extended. by rewrite H.
Qed.

Lemma count_occ_nodup (l : list nat) (a : nat) :
  NoDup l ->
  count_occ Nat.eq_dec l a = if decide (a ∈ l) then 1%nat else 0%nat.
Proof.
  intros Hnd. destruct (decide (a ∈ l)) as [Hin | Hin].
  - apply NoDup_ListNoDup in Hnd.
    pose proof (proj1 (NoDup_count_occ Nat.eq_dec l) Hnd a) as Hle.
    apply list_elem_of_In in Hin.
    pose proof (proj1 (count_occ_In Nat.eq_dec l a) Hin). lia.
  - apply count_occ_not_In. by rewrite <- list_elem_of_In.
Qed.

Lemma sound_empty :
  sound_hub {| SSEHub.queues := ∅; SSEHub.clients := [] |}
    (payload := payload).
Proof.
  split; [constructor |]. intros a Ha. by apply elem_of_nil in Ha.
Qed.

Lemma clients_have_queues h a :
  sound_hub h -> a ∈ SSEHub.clients h -> a ∈ dom (SSEHub.queues h).
Proof.
  intros [_ Hq] Ha. destruct (Hq a Ha) as (qu & Hl & _).
  apply elem_of_dom. by exists qu.
Qed.

Lemma register_fresh h :
  sound_hub h -> fresh (dom (SSEHub.queues h)) ∉ SSEHub.clients h.
Proof.
  intros Hs Hin. apply (is_fresh (dom (SSEHub.queues h))).
  by apply clients_have_queues.
Qed.

Lemma register_sound h :
  sound_hub h -> sound_hub (snd (SSEHub.register h)).
Proof.
  intros Hs. pose proof (register_fresh h Hs) as Hf.
  destruct Hs as [Hnd Hq]. split; simpl.
  - apply NoDup_app. split; [done |]. split.
    + intros x Hx Hx'. apply list_elem_of_singleton in Hx'. by subst x.
    + apply NoDup_singleton.
  - intros a Ha. apply elem_of_app in Ha as [Ha | Ha].
    + destruct (Hq a Ha) as (qu & Hl & Hm). exists qu. split; [| done].
      rewrite lookup_insert_ne; [done |]. intros <-. by apply Hf.
    + apply list_elem_of_singleton in Ha. subst a.
      exists SSEHub.new_queue. by rewrite lookup_insert_eq.
Qed.

Lemma list_remove_spec (a : nat) (l : list nat) :
  match SSEHub.list_remove a l with
  | Ok l' => exists l1 l2, l = l1 ++ a :: l2 /\ l' = l1 ++ l2 /\ a ∉ l1
  | Raise e => e = ValueError /\ a ∉ l
  end.
Proof.
  induction l as [|b l IH]; simpl.
  - split; [done | apply not_elem_of_nil].
  - destruct (Nat.eqb_spec a b) as [-> | Hne].
    + exists [], l. split; [done |]. split; [done | apply not_elem_of_nil].
    + destruct (SSEHub.list_remove a l) as [l'|e]; simpl.
      * destruct IH as (l1 & l2 & -> & -> & Hn).
        exists (b :: l1), l2. split; [done |]. split; [done |].
        apply not_elem_of_cons. by split.
      * destruct IH as [-> Hn]. split; [done |].
        apply not_elem_of_cons. by split.
Qed.

Lemma unregister_run (a : nat) h :
  exists l, SSEHub.unregister a h
            = (Ok tt, {| SSEHub.queues := SSEHub.queues h;
                         SSEHub.clients := l |}) /\
    (a ∉ SSEHub.clients h -> l = SSEHub.clients h) /\
    (forall b, b ∈ l -> b ∈ SSEHub.clients h) /\
    (forall b, b <> a -> b ∈ SSEHub.clients h -> b ∈ l) /\
    (NoDup (SSEHub.clients h) -> NoDup l /\ a ∉ l).
Proof.
  unfold SSEHub.unregister, try_catch_if.
  pose proof (list_remove_spec a (SSEHub.clients h)) as Hspec.
  destruct (SSEHub.list_remove a (SSEHub.clients h)) as [l'|e].
  - destruct Hspec as (l1 & l2 & E & -> & Hn).
    exists (l1 ++ l2). split; [done |]. rewrite E.
    split; [| split; [| split]].
    + intros Ha. exfalso. apply Ha, elem_of_app. right. apply list_elem_of_here.
    + intros b Hb. apply elem_of_app in Hb as [Hb | Hb]; apply elem_of_app;
        [by left | right; by apply list_elem_of_further].
    + intros b Hne Hb. apply elem_of_app in Hb as [Hb | Hb]; apply elem_of_app;
        [by left |]. apply elem_of_cons in Hb as [-> | Hb]; [done | by right].
    + intros Hnd. apply NoDup_app in Hnd as (H1 & H2 & H3).
      apply NoDup_cons in H3 as [H3 H4]. split.
      * apply NoDup_app. split; [done |]. split; [| done].
        intros x Hx Hx'. apply (H2 x Hx). by apply list_elem_of_further.
      * intros Ha. apply elem_of_app in Ha as [Ha | Ha]; done.
  - destruct Hspec as [-> Hn]. exists (SSEHub.clients h).
    split; [by destruct h |]. split; [done |]. split; [done |].
    split; [done |]. done.
Qed.

Lemma unregister_sound (a : nat) h :
  sound_hub h -> sound_hub (snd (SSEHub.unregister a h)).
Proof.
  intros [Hnd Hq].
  destruct (unregister_run a h) as (l & -> & _ & Hsub & _ & Hn).
  split; simpl; [by apply Hn |]. intros b Hb. by apply Hq, Hsub.
Qed.

(** One broadcast on a sound hub. *)
Lemma broadcast_sound_run (item : payload) h :
  sound_hub h ->
  exists h',
    SSEHub.broadcast item h = (Ok tt, h') /\
    SSEHub.clients h' = SSEHub.clients h /\
    sound_hub h' /\
    forall a, SSEHub.queues h' !! a
              = (if decide (a ∈ SSEHub.clients h) then extended [item] else id)
                  <$> SSEHub.queues h !! a.
Proof.
  intros [Hnd Hq].
  destruct (offer_loop item (SSEHub.clients h) h) as (h' & Hl & Hc & Hl').
  assert (forall a, SSEHub.queues h' !! a
                    = (if decide (a ∈ SSEHub.clients h)
                       then extended [item] else id)
                        <$> SSEHub.queues h !! a) as Hqs.
  { intros a. rewrite Hl', (count_occ_nodup _ a Hnd).
    destruct (decide (a ∈ SSEHub.clients h)) as [Ha | Ha]; [| done].
    destruct (Hq a Ha) as (qu & -> & Hm). simpl.
    by rewrite (offer_unbounded item qu Hm). }
  exists h'. split; [exact Hl |]. split; [exact Hc |]. split; [| exact Hqs].
  split; [by rewrite Hc |].
  intros a Ha. rewrite Hc in Ha. rewrite Hqs, decide_True by done.
  destruct (Hq a Ha) as (qu & -> & Hm). by exists (extended [item] qu).
Qed.

(** A run of broadcasts on a sound hub. *)
Lemma broadcast_all_run (events : list payload) : forall h,
  sound_hub h ->
  exists h',
    broadcast_all events h = (Ok tt, h') /\
    SSEHub.clients h' = SSEHub.clients h /\
    sound_hub h' /\
    forall a, SSEHub.queues h' !! a
              = (if decide (a ∈ SSEHub.clients h) then extended events else id)
                  <$> SSEHub.queues h !! a.
Proof.
  induction events as [|e events IH]; intros h Hs.
  - exists h. split; [done |]. split; [done |]. split; [done |].
    intros a. destruct (SSEHub.queues h !! a) as [qu|]; [| done]. simpl.
    destruct (decide _); [by rewrite extended_nil | done].
  - destruct (broadcast_sound_run e h Hs) as (h1 & Hb & Hc1 & Hs1 & Hq1).
    destruct (IH h1 Hs1) as (h' & Hb' & Hc' & Hs' & Hq').
    exists h'. split; [| split; [congruence | split; [done |]]].
    + unfold broadcast_all. simpl. unfold bind at 1.
      fold (SSEHub.broadcast (payload := payload)). rewrite Hb. exact Hb'.
    + intros a. rewrite Hq', Hq1, Hc1.
      destruct (SSEHub.queues h !! a) as [qu|]; [| done]. simpl.
      destruct (decide _); [| done].
      by rewrite extended_app.
Qed.

(** Unregistering, then a run of broadcasts. *)
Lemma unregister_then_broadcasts h (a : nat) (events : list payload) :
  sound_hub h ->
  exists h1 h2,
    SSEHub.unregister a h = (Ok tt, h1) /\
    SSEHub.queues h1 = SSEHub.queues h /\
    (a ∉ SSEHub.clients h1) /\
    (forall b, b <> a -> (b ∈ SSEHub.clients h1 <-> b ∈ SSEHub.clients h)) /\
    (a ∉ SSEHub.clients h -> h1 = h) /\
    broadcast_all events h1 = (Ok tt, h2) /\
    SSEHub.queues h2 !! a = SSEHub.queues h !! a.
Proof.
  intros Hs.
  pose proof (unregister_sound a h Hs) as Hs1.
  destruct (unregister_run a h) as (l & Hu & Hsame & Hsub & Hsup & Hnd).
  rewrite Hu in Hs1. simpl in Hs1.
  destruct (broadcast_all_run events _ Hs1) as (h2 & Hb & _ & _ & Hq).
  destruct (Hnd (proj1 Hs)) as [_ Hna].
  eexists _, h2. split; [exact Hu |]. simpl.
  split; [done |]. split; [done |].
  split; [intros b Hb'; split; [apply Hsub | by apply Hsup] |].
  split; [intros Ha; rewrite (Hsame Ha); by destruct h |].
  split; [exact Hb |].
  rewrite Hq. simpl. rewrite decide_False by done.
  by destruct (SSEHub.queues h !! a).
Qed.

End HubMore.

(** X10. [SSEHub]: the empty hub is sound (an address is registered once
    and holds a queue without bound), and [register], [unregister] and
    [broadcast] keep a sound hub sound. *)
Theorem hub_operations_keep_the_hub_sound
    {payload : Type} (h : SSEHub.hub payload) (a : nat) (item : payload) :
  sound_hub h ->
  sound_hub {| SSEHub.queues := ∅; SSEHub.clients := [] |}
    (payload := payload) /\
  sound_hub (snd (SSEHub.register h)) /\
  sound_hub (snd (SSEHub.unregister a h)) /\
  sound_hub (snd (SSEHub.broadcast item h)).
Proof.
  intros Hs. split; [apply sound_empty |].
  split; [by apply register_sound |].
  split; [by apply unregister_sound |].
  destruct (broadcast_sound_run item h Hs) as (h' & -> & _ & Hs' & _).
  exact Hs'.
Qed.

Lemma hub_operations_keep_the_hub_sound_witness :
  sound_hub {| SSEHub.queues := ∅; SSEHub.clients := [] |}
    (payload := App.event) /\
  sound_hub (snd (SSEHub.register (App.hub app_world))) /\
  sound_hub (snd (SSEHub.unregister 0%nat (App.hub app_world))) /\
  sound_hub (snd (SSEHub.broadcast App.Hello (App.hub app_world))).
Proof.
  apply (hub_operations_keep_the_hub_sound (App.hub app_world) 0%nat
           App.Hello).
  split.
  - vm_compute. apply NoDup_singleton.
  - intros a Ha. apply list_elem_of_singleton in Ha. subst a.
    exists SSEHub.new_queue. split; reflexivity.
Defined.

(** X11. [SSEHub.broadcast] on a sound hub drops nothing: every registered
    queue holds the event behind what it held, exactly once, and a queue
    that is not registered is left alone. *)
Theorem broadcast_reaches_every_client_once
    {payload : Type} (item : payload) (h : SSEHub.hub payload) :
  sound_hub h ->
  exists h',
    SSEHub.broadcast item h = (Ok tt, h') /\
    SSEHub.clients h' = SSEHub.clients h /\
    (forall a, a ∈ SSEHub.clients h ->
       exists qu, SSEHub.queues h !! a = Some qu /\
                  SSEHub.queues h' !! a = Some (extended [item] qu)) /\
    (forall a, a ∉ SSEHub.clients h ->
       SSEHub.queues h' !! a = SSEHub.queues h !! a).
Proof.
  intros Hs.
  destruct (broadcast_sound_run item h Hs) as (h' & Hb & Hc & _ & Hq).
  exists h'. split; [exact Hb |]. split; [exact Hc |]. split.
  - intros a Ha. destruct Hs as [_ Hqs].
    destruct (Hqs a Ha) as (qu & Hl & _). exists qu. split; [exact Hl |].
    by rewrite Hq, decide_True, Hl.
  - intros a Ha. rewrite Hq, decide_False by done.
    by destruct (SSEHub.queues h !! a).
Qed.

Lemma broadcast_reaches_every_client_once_witness :
  exists h',
    SSEHub.broadcast App.Hello (App.hub app_world) = (Ok tt, h') /\
    SSEHub.clients h' = SSEHub.clients (App.hub app_world) /\
    (forall a, a ∈ SSEHub.clients (App.hub app_world) ->
       exists qu, SSEHub.queues (App.hub app_world) !! a = Some qu /\
                  SSEHub.queues h' !! a = Some (extended [App.Hello] qu)) /\
    (forall a, a ∉ SSEHub.clients (App.hub app_world) ->
       SSEHub.queues h' !! a = SSEHub.queues (App.hub app_world) !! a).
Proof.
  apply (broadcast_reaches_every_client_once App.Hello (App.hub app_world)).
  split.
  - vm_compute. apply NoDup_singleton.
  - intros a Ha. apply list_elem_of_singleton in Ha. subst a.
    exists SSEHub.new_queue. split; reflexivity.
Defined.

(** X12. [SSEHub.register] then [broadcast]: the new queue has an address
    no queue had, starts empty, and then holds exactly the events broadcast
    since, in the order of the calls; the queues registered before receive
    the same events behind what they held. *)
Theorem new_subscriber_receives_later_broadcasts_in_order
    {payload : Type} (h : SSEHub.hub payload) (events : list payload) :
  sound_hub h ->
  exists a h1 h2,
    SSEHub.register h = (Ok a, h1) /\
    SSEHub.queues h !! a = None /\
    SSEHub.queues h1 !! a = Some SSEHub.new_queue /\
    broadcast_all events h1 = (Ok tt, h2) /\
    SSEHub.items <$> SSEHub.queues h2 !! a = Some events /\
    forall b qu, b ∈ SSEHub.clients h -> SSEHub.queues h !! b = Some qu ->
                 SSEHub.queues h2 !! b = Some (extended events qu).
Proof.
  intros Hs.
  pose proof (register_sound h Hs) as Hs1.
  pose proof (register_fresh h Hs) as Hf.
  set (a := fresh (dom (SSEHub.queues h))) in *.
  assert (SSEHub.queues h !! a = None) as Hnone.
  { apply not_elem_of_dom. apply is_fresh. }
  destruct (broadcast_all_run events _ Hs1) as (h2 & Hb & _ & _ & Hq).
  exists a, (snd (SSEHub.register h)), h2.
  split; [reflexivity |]. split; [exact Hnone |].
  split; [apply lookup_insert_eq |].
  split; [exact Hb |]. split.
  - rewrite Hq. simpl. fold a. rewrite lookup_insert_eq.
    rewrite decide_True by (apply elem_of_app; right; apply list_elem_of_here).
    reflexivity.
  - intros b qu Hb' Hl. rewrite Hq. simpl. fold a.
    rewrite lookup_insert_ne by (intros <-; by apply Hf).
    rewrite decide_True by (apply elem_of_app; by left).
    by rewrite Hl.
Qed.

Lemma new_subscriber_receives_later_broadcasts_in_order_witness :
  exists a h1 h2,
    SSEHub.register (Main.hub main_world) = (Ok a, h1) /\
    SSEHub.queues (Main.hub main_world) !! a = None /\
    SSEHub.queues h1 !! a = Some SSEHub.new_queue /\
    broadcast_all [Main.Theme 120; Main.Preview true 1] h1 = (Ok tt, h2) /\
    SSEHub.items <$> SSEHub.queues h2 !! a
    = Some [Main.Theme 120; Main.Preview true 1] /\
    forall b qu, b ∈ SSEHub.clients (Main.hub main_world) ->
                 SSEHub.queues (Main.hub main_world) !! b = Some qu ->
                 SSEHub.queues h2 !! b
                 = Some (extended [Main.Theme 120; Main.Preview true 1] qu).
Proof.
  apply (new_subscriber_receives_later_broadcasts_in_order
           (Main.hub main_world) [Main.Theme 120; Main.Preview true 1]).
  split.
  - vm_compute. apply NoDup_singleton.
  - intros a Ha. apply list_elem_of_singleton in Ha. subst a.
    exists SSEHub.new_queue. split; reflexivity.
Defined.

Section StreamFacts.

Context {payload : Type}.

Implicit Types (h : SSEHub.hub payload) (g : Stream.generator).

(** The frames taken from a generator that has been started, up to the
    first keep-alive. *)
Lemma frames_drain (events : list payload) : forall h g (m : nat),
  Stream.at_ g = Stream.AtHello \/ Stream.at_ g = Stream.InLoop ->
  SSEHub.queues h !! Stream.q g
  = Some {| SSEHub.maxsize := m; SSEHub.items := events |} ->
  exists h',
    frames (S (length events)) g h
    = (Ok (map Stream.EventFrame events ++ [Stream.KeepAlive],
           {| Stream.q := Stream.q g; Stream.at_ := Stream.InLoop |}), h') /\
    SSEHub.clients h' = SSEHub.clients h /\
    SSEHub.queues h' !! Stream.q g
    = Some {| SSEHub.maxsize := m; SSEHub.items := [] |} /\
    forall b, b <> Stream.q g ->
              SSEHub.queues h' !! b = SSEHub.queues h !! b.
Proof.
  induction events as [|e events IH]; intros h g m Hat Hq.
  - exists h. split; [| by repeat split].
    simpl. unfold bind, Stream.next, Stream.get.
    destruct Hat as [-> | ->]; rewrite Hq; reflexivity.
  - set (h1 := {| SSEHub.queues :=
                    <[Stream.q g := {| SSEHub.maxsize := m;
                                       SSEHub.items := events |}]>
                      (SSEHub.queues h);
                  SSEHub.clients := SSEHub.clients h |}).
    set (g1 := {| Stream.q := Stream.q g; Stream.at_ := Stream.InLoop |}).
    destruct (IH h1 g1 m (or_intror eq_refl)) as (h' & Hf & Hc & Hq' & Ho).
    { simpl. apply lookup_insert_eq. }
    exists h'. split; [| split; [exact Hc | split; [exact Hq' |]]].
    + change (frames (S (length (e :: events))) g h)
        with (bind (Stream.next g)
                (fun r => match fst r with
                          | None => ret ([], snd r)
                          | Some f =>
                              bind (frames (S (length events)) (snd r))
                                (fun r' => ret (f :: fst r', snd r'))
                          end) h).
      assert (Stream.next g h
              = (Ok (Some (Stream.EventFrame e), g1), h1)) as Hn.
      { unfold Stream.next, Stream.get.
        destruct Hat as [-> | ->]; rewrite Hq; reflexivity. }
      unfold bind at 1. rewrite Hn. cbn [fst snd].
      unfold bind. rewrite Hf. reflexivity.
    + intros b Hb. rewrite (Ho b Hb). simpl.
      by rewrite lookup_insert_ne.
Qed.

End StreamFacts.

(** X13. [stream] of both programs: a stream opened on a sound hub yields
    the hello first, then the events broadcast since it was opened, each
    once and in the order of the broadcasts, then the keep-alive comment
    when the queue stays empty; the queue is then still registered. *)
Theorem stream_yields_hello_then_the_events_in_order
    {payload : Type} (h : SSEHub.hub payload) (events : list payload) :
  sound_hub h ->
  exists g h1 h2 g' h3,
    Stream.stream h = (Ok g, h1) /\
    Stream.at_ g = Stream.Created /\
    broadcast_all events h1 = (Ok tt, h2) /\
    frames (2 + length events) g h2
    = (Ok (Stream.HelloFrame :: map Stream.EventFrame events
             ++ [Stream.KeepAlive], g'), h3) /\
    Stream.at_ g' = Stream.InLoop /\
    SSEHub.clients h3 = SSEHub.clients h ++ [Stream.q g].
Proof.
  intros Hs.
  pose proof (register_sound h Hs) as Hs1.
  set (a := fresh (dom (SSEHub.queues h))).
  set (g := {| Stream.q := a; Stream.at_ := Stream.Created |}).
  destruct (broadcast_all_run events _ Hs1) as (h2 & Hb & Hc2 & _ & Hq).
  specialize (Hq a). simpl in Hq. fold a in Hq.
  rewrite lookup_insert_eq in Hq.
  rewrite decide_True in Hq
    by (apply elem_of_app; right; apply list_elem_of_here).
  set (g1 := {| Stream.q := a; Stream.at_ := Stream.AtHello |}).
  destruct (frames_drain events h2 g1 0%nat (or_introl eq_refl) Hq)
    as (h3 & Hf & Hc3 & _).
  exists g, (snd (SSEHub.register h)), h2,
    {| Stream.q := a; Stream.at_ := Stream.InLoop |}, h3.
  split; [reflexivity |]. split; [reflexivity |]. split; [exact Hb |].
  split; [| split; [reflexivity |]].
  - change (frames (2 + length events) g h2)
      with (bind (Stream.next g)
              (fun r => match fst r with
                        | None => ret ([], snd r)
                        | Some f =>
                            bind (frames (S (length events)) (snd r))
                              (fun r' => ret (f :: fst r', snd r'))
                        end) h2).
    unfold bind at 1.
    change (Stream.next g h2) with (Ok (Some (@Stream.HelloFrame payload), g1), h2).
    cbn [fst snd]. unfold bind. rewrite Hf. reflexivity.
  - rewrite Hc3, Hc2. reflexivity.
Qed.

Lemma stream_yields_hello_then_the_events_in_order_witness :
  exists g h1 h2 g' h3,
    Stream.stream (App.hub app_world) = (Ok g, h1) /\
    Stream.at_ g = Stream.Created /\
    broadcast_all [App.Hello; App.Hello] h1 = (Ok tt, h2) /\
    frames (2 + length [App.Hello; App.Hello]) g h2
    = (Ok (Stream.HelloFrame :: map Stream.EventFrame [App.Hello; App.Hello]
             ++ [Stream.KeepAlive], g'), h3) /\
    Stream.at_ g' = Stream.InLoop /\
    SSEHub.clients h3 = SSEHub.clients (App.hub app_world) ++ [Stream.q g].
Proof.
  apply (stream_yields_hello_then_the_events_in_order (App.hub app_world)
           [App.Hello; App.Hello]).
  split.
  - vm_compute. apply NoDup_singleton.
  - intros a Ha. apply list_elem_of_singleton in Ha. subst a.
    exists SSEHub.new_queue. split; reflexivity.
Defined.

(** X14. [stream] of both programs: closing a generator that is suspended
    in its loop runs the [finally]: the queue is unregistered, the other
    registrations stand, the broadcasts that follow do not reach the queue,
    and the generator has stopped. *)
Theorem closing_a_running_stream_unregisters_it
    {payload : Type} (h : SSEHub.hub payload) (g : Stream.generator)
    (events : list payload) :
  sound_hub h ->
  Stream.at_ g = Stream.InLoop ->
  exists g' h1 h2,
    Stream.close g h = (Ok g', h1) /\
    Stream.at_ g' = Stream.Finished /\
    (Stream.q g ∉ SSEHub.clients h1) /\
    (forall b, b <> Stream.q g ->
       (b ∈ SSEHub.clients h1 <-> b ∈ SSEHub.clients h)) /\
    broadcast_all events h1 = (Ok tt, h2) /\
    SSEHub.queues h2 !! Stream.q g = SSEHub.queues h !! Stream.q g /\
    Stream.next g' h2 = (Ok (None, g'), h2).
Proof.
  intros Hs Hat.
  destruct (unregister_then_broadcasts h (Stream.q g) events Hs)
    as (h1 & h2 & Hu & _ & Hn & Hc & _ & Hb & Hq).
  exists {| Stream.q := Stream.q g; Stream.at_ := Stream.Finished |}, h1, h2.
  split; [unfold Stream.close; rewrite Hat; unfold bind; by rewrite Hu |].
  split; [reflexivity |]. split; [exact Hn |]. split; [exact Hc |].
  split; [exact Hb |]. split; [exact Hq | reflexivity].
Qed.

Lemma closing_a_running_stream_unregisters_it_witness :
  let h := App.hub app_world in
  let g := {| Stream.q := 0%nat; Stream.at_ := Stream.InLoop |} in
  exists g' h1 h2,
    Stream.close g h = (Ok g', h1) /\
    Stream.at_ g' = Stream.Finished /\
    (Stream.q g ∉ SSEHub.clients h1) /\
    (forall b, b <> Stream.q g ->
       (b ∈ SSEHub.clients h1 <-> b ∈ SSEHub.clients h)) /\
    broadcast_all [App.Hello] h1 = (Ok tt, h2) /\
    SSEHub.queues h2 !! Stream.q g = SSEHub.queues h !! Stream.q g /\
    Stream.next g' h2 = (Ok (None, g'), h2).
Proof.
  intros h g.
  apply (closing_a_running_stream_unregisters_it h g [App.Hello]).
  - split.
    + vm_compute. apply NoDup_singleton.
    + intros a Ha. apply list_elem_of_singleton in Ha. subst a.
      exists SSEHub.new_queue. split; reflexivity.
  - reflexivity.
Defined.

(** X15. [stream] of both programs: closing a generator that was not
    started, or that is suspended at the hello, runs no [finally], as the
    [yield] of the hello stands before the [try]: the hub is unchanged, the
    queue stays registered, and every later broadcast still goes to it. *)
Theorem a_stream_closed_at_its_hello_stays_registered
    {payload : Type} (h : SSEHub.hub payload) (g : Stream.generator)
    (events : list payload) :
  sound_hub h ->
  Stream.q g ∈ SSEHub.clients h ->
  Stream.at_ g = Stream.Created \/ Stream.at_ g = Stream.AtHello ->
  exists g' qu h2,
    Stream.close g h = (Ok g', h) /\
    Stream.at_ g' = Stream.Finished /\
    SSEHub.queues h !! Stream.q g = Some qu /\
    broadcast_all events h = (Ok tt, h2) /\
    Stream.q g ∈ SSEHub.clients h2 /\
    SSEHub.queues h2 !! Stream.q g = Some (extended events qu).
Proof.
  intros Hs Hin Hat.
  destruct (proj2 Hs _ Hin) as (qu & Hl & _).
  destruct (broadcast_all_run events h Hs) as (h2 & Hb & Hc & _ & Hq).
  exists {| Stream.q := Stream.q g; Stream.at_ := Stream.Finished |}, qu, h2.
  split; [unfold Stream.close; by destruct Hat as [-> | ->] |].
  split; [reflexivity |]. split; [exact Hl |]. split; [exact Hb |].
  split; [by rewrite Hc |].
  by rewrite Hq, decide_True, Hl.
Qed.

Lemma a_stream_closed_at_its_hello_stays_registered_witness :
  let h := App.hub app_world in
  let g := {| Stream.q := 0%nat; Stream.at_ := Stream.AtHello |} in
  exists g' qu h2,
    Stream.close g h = (Ok g', h) /\
    Stream.at_ g' = Stream.Finished /\
    SSEHub.queues h !! Stream.q g = Some qu /\
    broadcast_all [App.Hello; App.Hello] h = (Ok tt, h2) /\
    Stream.q g ∈ SSEHub.clients h2 /\
    SSEHub.queues h2 !! Stream.q g
    = Some (extended [App.Hello; App.Hello] qu).
Proof.
  intros h g.
  apply (a_stream_closed_at_its_hello_stays_registered h g
           [App.Hello; App.Hello]).
  - split.
    + vm_compute. apply NoDup_singleton.
    + intros a Ha. apply list_elem_of_singleton in Ha. subst a.
      exists SSEHub.new_queue. split; reflexivity.
  - vm_compute. apply list_elem_of_here.
  - right. reflexivity.
Defined.
(* ===================================================================== *)
(** ** More of app.py: the audio file and the quotes *)
(* ===================================================================== *)

Section AppMore.

Import App.

#[local] Arguments md5_hex12 : simpl never.
#[local] Arguments Fs.parent : simpl never.
#[local] Arguments Fs.join : simpl never.

Lemma app_on_fs_step {A} (m : py filesystem A) w r t :
  m (fs w) = (r, t) ->
  on_fs m w = (r, {| fs := t; hub := hub w; polly_calls := polly_calls w |}).
Proof. intros H. unfold on_fs, zoom. by rewrite H. Qed.

Lemma app_on_fs_run {A} (m : py filesystem A) w r :
  m (fs w) = (r, fs w) -> on_fs m w = (r, w).
Proof. intros H. rewrite (app_on_fs_step m w r (fs w) H). by destruct w. Qed.

Lemma no_credentials_no_audio cfg env text w :
  has_credentials cfg = false ->
  generate_audio_url cfg env text w = (Ok "", w).
Proof.
  unfold has_credentials, generate_audio_url. intros H.
  destruct (present (AWS_ACCESS_KEY_ID cfg)); simpl in *; [| done].
  by rewrite H.
Qed.

Lemma app_audio_hit cfg env t w :
  has_credentials cfg = true ->
  Fs.path_exists (app_audio_path cfg t) (fs w) = true ->
  generate_audio_url cfg env (JStr t) w = (Ok (app_audio_url cfg t), w).
Proof.
  unfold has_credentials, generate_audio_url. intros Hk Hp.
  apply andb_true_iff in Hk as [-> ->]. cbn [negb orb].
  unfold try_catch.
  erewrite (bind_ok (lift (encode (JStr t)))); [| reflexivity].
  erewrite (bind_ok (on_fs (gets (Fs.path_exists _))));
    [| apply app_on_fs_run; unfold gets; reflexivity].
  fold (app_audio_path cfg t). rewrite Hp. reflexivity.
Qed.

Lemma app_audio_miss cfg env t w audio :
  has_credentials cfg = true ->
  files (fs w) !! app_audio_path cfg t = None ->
  app_audio_path cfg t ∉ dirs (fs w) ->
  files (fs w) !! Fs.parent (app_audio_path cfg t) = None ->
  app_audio_path cfg t <> Fs.parent (app_audio_path cfg t) ->
  synthesize_speech (aws env) (AWS_REGION cfg) t (POLLY_OUTPUT_FORMAT cfg)
    (POLLY_VOICE_ID cfg) None = Audio audio ->
  generate_audio_url cfg env (JStr t) w
  = (Ok (app_audio_url cfg t),
     {| fs :=
          {| files :=
               <[app_audio_path cfg t :=
                   {| readable := true; data := Binary audio |}]>
                 (files (fs w));
             dirs := {[Fs.parent (app_audio_path cfg t)]} ∪ dirs (fs w) |};
        hub := hub w;
        polly_calls := polly_calls w ++ [app_synthesis cfg t] |}).
Proof.
  unfold has_credentials, generate_audio_url. intros Hk Hf Hd Hpf Hne Hs.
  apply andb_true_iff in Hk as [-> ->]. cbn [negb orb].
  unfold try_catch.
  erewrite (bind_ok (lift (encode (JStr t)))); [| reflexivity].
  erewrite (bind_ok (on_fs (gets (Fs.path_exists _))));
    [| apply app_on_fs_run; unfold gets; reflexivity].
  fold (app_audio_path cfg t).
  assert (Fs.path_exists (app_audio_path cfg t) (fs w) = false) as ->.
  { unfold Fs.path_exists. rewrite Hf.
    by rewrite (bool_decide_eq_false_2 _ Hd). }
  erewrite (bind_ok (call_polly _ _));
    [| unfold call_polly; rewrite Hs; reflexivity].
  erewrite (bind_ok (on_fs (Fs.mkdir _)));
    [| apply app_on_fs_step; apply mkdir_run; exact Hpf].
  erewrite (bind_ok (on_fs (Fs.write_file _ _)));
    [| apply app_on_fs_step; apply write_file_run; cbn [fs dirs];
       rewrite elem_of_union, elem_of_singleton; tauto].
  cbn [fs files dirs hub polly_calls set_files]. rewrite Hf. reflexivity.
Qed.

End AppMore.

(** X16. app.py without both AWS credentials: [generate_audio_url] returns
    the empty locator and changes nothing, even when the audio file is
    there; a vote then carries no audio, sends no request to Polly and
    writes no file. *)
Theorem vote_without_credentials_makes_no_audio
    (cfg : App.settings) (env : App.outside) (s : Z) (w : App.world) :
  has_credentials cfg = false ->
  (forall text, App.generate_audio_url cfg env text w = (Ok "", w)) /\
  (forall p w', App.vote cfg env s w = (Ok p, w') ->
     App.audio_url p = "" /\ App.fs w' = App.fs w /\
     App.polly_calls w' = App.polly_calls w).
Proof.
  intros Hk. split; [intros text; by apply no_credentials_no_audio |].
  intros p w' Hv.
  apply vote_steps in Hv as (quote & url & w2 & _ & Hu & -> & _ & Hf & Hc).
  rewrite (no_credentials_no_audio cfg env quote w Hk) in Hu.
  simplify_eq. done.
Qed.

Lemma vote_without_credentials_makes_no_audio_witness :
  (forall text,
      App.generate_audio_url app_settings_without_keys
        (app_outside polly_answering) text app_world = (Ok "", app_world)) /\
  (forall p w',
      App.vote app_settings_without_keys (app_outside polly_answering) 7
        app_world = (Ok p, w') ->
      App.audio_url p = "" /\ App.fs w' = App.fs app_world /\
      App.polly_calls w' = App.polly_calls app_world).
Proof.
  apply (vote_without_credentials_makes_no_audio app_settings_without_keys
           (app_outside polly_answering) 7 app_world).
  reflexivity.
Defined.

(** X17. app.py with credentials, [generate_audio_url]: a text whose file
    is absent is sent to Polly once, with the configured voice and no
    engine, and the audio is written under [static]; the same text is then
    answered from the file, with the same locator, whatever the service,
    without a request and without a write. *)
Theorem app_audio_is_synthesized_once_then_served_from_the_file
    (cfg : App.settings) (env env' : App.outside) (t : string)
    (w : App.world) (audio : string) :
  has_credentials cfg = true ->
  files (App.fs w) !! app_audio_path cfg t = None ->
  app_audio_path cfg t ∉ dirs (App.fs w) ->
  files (App.fs w) !! Fs.parent (app_audio_path cfg t) = None ->
  app_audio_path cfg t <> Fs.parent (app_audio_path cfg t) ->
  synthesize_speech (App.aws env) (App.AWS_REGION cfg) t
    (App.POLLY_OUTPUT_FORMAT cfg) (App.POLLY_VOICE_ID cfg) None
  = Audio audio ->
  exists w1,
    App.generate_audio_url cfg env (JStr t) w
    = (Ok (app_audio_url cfg t), w1) /\
    files (App.fs w1) !! app_audio_path cfg t
    = Some {| readable := true; data := Binary audio |} /\
    App.polly_calls w1 = App.polly_calls w ++ [app_synthesis cfg t] /\
    App.hub w1 = App.hub w /\
    App.generate_audio_url cfg env' (JStr t) w1
    = (Ok (app_audio_url cfg t), w1).
Proof.
  intros Hk Hf Hd Hpf Hne Hs.
  eexists. split; [by apply app_audio_miss |].
  cbn [App.fs App.hub App.polly_calls files].
  split; [apply lookup_insert_eq |]. split; [reflexivity |].
  split; [reflexivity |].
  apply app_audio_hit; [exact Hk |].
  unfold Fs.path_exists. cbn [App.fs files].
  by rewrite lookup_insert_eq.
Qed.

Lemma app_audio_is_synthesized_once_then_served_from_the_file_witness :
  let t := "Well, that happened." in
  exists w1,
    App.generate_audio_url app_settings (app_outside polly_answering)
      (JStr t) app_world
    = (Ok (app_audio_url app_settings t), w1) /\
    files (App.fs w1) !! app_audio_path app_settings t
    = Some {| readable := true; data := Binary "ID3" |} /\
    App.polly_calls w1
    = App.polly_calls app_world ++ [app_synthesis app_settings t] /\
    App.hub w1 = App.hub app_world /\
    App.generate_audio_url app_settings (app_outside polly_refusing)
      (JStr t) w1
    = (Ok (app_audio_url app_settings t), w1).
Proof.
  intros t.
  apply (app_audio_is_synthesized_once_then_served_from_the_file
           app_settings (app_outside polly_answering)
           (app_outside polly_refusing) t app_world "ID3").
  - reflexivity.
  - vm_compute; reflexivity.
  - intros H; vm_compute in H; discriminate H.
  - vm_compute; reflexivity.
  - intros H; vm_compute in H; discriminate H.
  - reflexivity.
Defined.

Section AppQuotes.

Import App.

Lemma load_json_run path t :
  Fs.load_json path t = (fst (Fs.load_json path t), t).
Proof. exact (read_run path t). Qed.

Lemma random_choice_list (drawn : nat) (l : list json) :
  l <> [] ->
  exists x, random_choice drawn (JList l) = Ok x /\
            l !! (drawn mod length l)%nat = Some x.
Proof.
  intros Hl. unfold random_choice.
  destruct (lookup_lt_is_Some_2 l (drawn mod length l)%nat) as [x Hx].
  - apply Nat.mod_upper_bound. by destruct l.
  - exists x. by rewrite Hx.
Qed.

(** The quotes of a score, once the file is loaded. *)
Lemma app_load_quotes_run cfg t :
  load_quotes cfg t
  = (match fst (Fs.load_json (QUOTES_FILE cfg) t) with
     | Ok data => py_get data "quotes" (JDict [])
     | Raise e => if missing_or_undecodable e then Ok (JDict [])
                  else Raise e
     end, t).
Proof.
  unfold load_quotes, try_catch_if, bind.
  rewrite (load_json_run (QUOTES_FILE cfg) t).
  destruct (fst (Fs.load_json (QUOTES_FILE cfg) t)) as [data|e]; simpl.
  - unfold lift. by destruct data.
  - by destruct (missing_or_undecodable e).
Qed.

Lemma app_quote_raises cfg env s t e :
  fst (load_quotes cfg t) = Raise e ->
  get_random_quote cfg env s t = (Raise e, t).
Proof.
  intros H. unfold get_random_quote, bind.
  rewrite (app_load_quotes_run cfg t) in *. simpl in H. by rewrite H.
Qed.

Lemma app_vote_raises cfg env s w e :
  get_random_quote cfg env (clamp s) (fs w) = (Raise e, fs w) ->
  vote cfg env s w = (Raise e, w).
Proof.
  intros H. unfold vote.
  by rewrite (bind_raise _ _ _ _ _ (app_on_fs_run _ w _ H)).
Qed.

End AppQuotes.

(** X18. app.py, [get_random_quote]: when quotes.json holds a non-empty
    list for the score, the quote is the entry of that list at the number
    drawn, so one of the configured quotes; nothing is written. *)
Theorem app_quote_is_drawn_from_the_list_of_the_score
    (cfg : App.settings) (env : App.outside) (s : Z) (t : filesystem)
    (d qs : dict) (l : list json) :
  App.QUOTES_FILE cfg ∉ dirs t ->
  holds (App.QUOTES_FILE cfg) (JDict d) t ->
  dict_get "quotes" d = Some (JDict qs) ->
  dict_get (str_of_int s) qs = Some (JList l) ->
  l <> [] ->
  exists q,
    App.get_random_quote cfg env s t = (Ok q, t) /\
    l !! (App.drawn env mod length l)%nat = Some q /\
    q ∈ l.
Proof.
  intros Hp Hh Hd Hq Hl.
  destruct (random_choice_list (App.drawn env) l Hl) as (q & Hr & Hi).
  exists q. split; [| split; [exact Hi | by apply list_elem_of_lookup_2 in Hi]].
  unfold App.get_random_quote, bind.
  rewrite (app_load_quotes_run cfg t).
  change (Fs.load_json (App.QUOTES_FILE cfg) t)
    with (DataStore._read (App.QUOTES_FILE cfg) t).
  rewrite (read_holds _ _ _ Hp Hh). cbn [fst].
  change (py_get (JDict d) "quotes" (JDict []))
    with (Ok (from_option id (JDict []) (dict_get "quotes" d))).
  rewrite Hd. cbn [from_option id]. unfold lift.
  change (py_get (JDict qs) (str_of_int s) (JList []))
    with (Ok (from_option id (JList []) (dict_get (str_of_int s) qs))).
  rewrite Hq. cbn [from_option id].
  assert (truthy (JList l) = true) as -> by (by destruct l).
  by rewrite Hr.
Qed.

Lemma app_quote_is_drawn_from_the_list_of_the_score_witness :
  let l := [JStr "Butter."; JStr "Greased it."] in
  let t :=
    {| files :=
         {[ "quotes.json" :=
              {| readable := true;
                 data := Document
                           (JDict [("quotes", JDict [("9", JList l)])]) |} ]};
       dirs := ∅ |} in
  exists q,
    App.get_random_quote app_settings (app_outside polly_answering) 9 t
    = (Ok q, t) /\
    l !! (App.drawn (app_outside polly_answering) mod length l)%nat = Some q /\
    q ∈ l.
Proof.
  intros l t.
  apply (app_quote_is_drawn_from_the_list_of_the_score app_settings
           (app_outside polly_answering) 9 t
           [("quotes", JDict [("9", JList l)])] [("9", JList l)] l).
  - apply not_elem_of_empty.
  - vm_compute; reflexivity.
  - vm_compute; reflexivity.
  - vm_compute; reflexivity.
  - discriminate.
Defined.

(** X19. app.py, GET /vote on a segment the route matches: when reading
    quotes.json raises an exception other than the two [load_quotes]
    catches ([FileNotFoundError], [JSONDecodeError]), or the file holds
    JSON that is not an object, the exception leaves the view: the route
    answers 500, nothing is broadcast, no request is sent and no file is
    written.  Such exceptions are those of a file that may not be read
    ([PermissionError]) and of bytes that are not UTF-8
    ([UnicodeDecodeError]). *)
Theorem app_vote_fails_on_quotes_it_cannot_use :
  (forall (cfg : App.settings) (env : App.outside) (segment : string)
          (n : Z) (w : App.world),
      int_converter segment = Some n ->
      (exists e,
          fst (Fs.load_json (App.QUOTES_FILE cfg) (App.fs w)) = Raise e /\
          e <> FileNotFoundError /\ e <> JSONDecodeError)
      \/ (exists j,
             fst (Fs.load_json (App.QUOTES_FILE cfg) (App.fs w)) = Ok j /\
             forall d, j <> JDict d) ->
      App.get_vote cfg env segment w
      = ({| status := 500; body := None |}, w)) /\
  (forall (path : string) (t : filesystem) (f : file),
      path ∉ dirs t -> files t !! path = Some f ->
      (readable f = false ->
       fst (Fs.load_json path t) = Raise PermissionError) /\
      (forall bytes,
          readable f = true -> data f = Binary bytes ->
          utf8_valid (list_ascii_of_string bytes) = false ->
          fst (Fs.load_json path t) = Raise UnicodeDecodeError)).
Proof.
  split.
  - intros cfg env segment n w Hn H.
    unfold App.get_vote. rewrite Hn. unfold flask_view.
    assert (exists e, fst (App.load_quotes cfg (App.fs w)) = Raise e)
      as [e He].
    { rewrite (app_load_quotes_run cfg (App.fs w)). simpl.
      destruct H as [(e & -> & H1 & H2) | (j & -> & Hj)].
      - exists e. by destruct e.
      - destruct j; try by eexists. by destruct (Hj d). }
    by rewrite (app_vote_raises cfg env n w e
                  (app_quote_raises cfg env (clamp n) (App.fs w) e He)).
  - intros path t f Hp Hf.
    unfold Fs.load_json, bind, Fs.open_read.
    rewrite (bool_decide_eq_false_2 _ Hp), Hf.
    split.
    + by intros ->.
    + intros bytes -> Hd Hu. rewrite Hd. cbn [fst]. by rewrite Hu.
Qed.

Lemma app_vote_fails_on_quotes_it_cannot_use_witness :
  let w :=
    {| App.fs :=
         {| files :=
              {[ "quotes.json" :=
                   {| readable := true;
                      data := Binary (String (ascii_of_nat 255) "") |} ]};
            dirs := ∅ |};
       App.hub := App.hub app_world;
       App.polly_calls := [] |} in
  App.get_vote app_settings (app_outside polly_answering) "7" w
  = ({| status := 500; body := None |}, w).
Proof.
  intros w.
  apply (proj1 app_vote_fails_on_quotes_it_cannot_use app_settings
           (app_outside polly_answering) "7" 7 w).
  - vm_compute; reflexivity.
  - left. exists UnicodeDecodeError.
    split; [vm_compute; reflexivity |]. split; discriminate.
Defined.
(* ===================================================================== *)
(** ** More of main.py: the vote and its requests *)
(* ===================================================================== *)

Section MainMore.

Import Main.

#[local] Arguments md5_hex12 : simpl never.
#[local] Arguments key_hash_of : simpl never.
#[local] Arguments sanitize_voice_id : simpl never.
#[local] Arguments pick_engine_for_voice : simpl never.
#[local] Arguments py_strip : simpl never.
#[local] Arguments safe_voice_of : simpl never.


(** *** Counting the requests *)

Lemma sends_weaken {A} (a b : nat) (m : py world A) :
  (a <= b)%nat -> sends a m -> sends b m.
Proof.
  intros Hab H w. destruct (H w) as (l & E & Hl). exists l.
  split; [done | lia].
Qed.

Lemma sends_pure {A} (k : nat) (m : py world A) :
  (forall w, polly_calls (snd (m w)) = polly_calls w) -> sends k m.
Proof.
  intros H w. exists []. rewrite app_nil_r.
  split; [apply H | apply Nat.le_0_l].
Qed.

Lemma sends_ret {A} (k : nat) (a : A) : sends k (ret a : py world A).
Proof. by apply sends_pure. Qed.

Lemma sends_lift {A} (k : nat) (r : result A) : sends k (lift r : py world A).
Proof. by apply sends_pure. Qed.

Lemma sends_on_fs {A} (k : nat) (m : py filesystem A) : sends k (on_fs m).
Proof.
  apply sends_pure. intros w. unfold on_fs, zoom. by destruct (m (fs w)).
Qed.

Lemma sends_on_hub {A} (k : nat) (m : py (SSEHub.hub event) A) :
  sends k (on_hub m).
Proof.
  apply sends_pure. intros w. unfold on_hub, zoom. by destruct (m (hub w)).
Qed.

Lemma sends_load_dotenv (k : nat) : sends k load_dotenv.
Proof. by apply sends_pure. Qed.

Lemma sends_env_flag (k : nat) name default : sends k (env_flag name default).
Proof. by apply sends_pure. Qed.

Lemma sends_bind {A B} (a b : nat) (m : py world A) (f : A -> py world B) :
  sends a m -> (forall x, sends b (f x)) -> sends (a + b) (bind m f).
Proof.
  intros Hm Hf w. unfold bind. destruct (Hm w) as (l1 & E1 & H1).
  destruct (m w) as [[x|e] w1]; simpl in *.
  - destruct (Hf x w1) as (l2 & E2 & H2). exists (l1 ++ l2).
    rewrite E2, E1, app_assoc. split; [done |]. rewrite syntheses_app. lia.
  - exists l1. split; [done | lia].
Qed.

Lemma sends_try_catch {A} (a b : nat) (m h : py world A) :
  sends a m -> sends b h -> sends (a + b) (try_catch m h).
Proof.
  intros Hm Hh w. unfold try_catch. destruct (Hm w) as (l1 & E1 & H1).
  destruct (m w) as [[x|e] w1]; simpl in *.
  - exists l1. split; [done | lia].
  - destruct (Hh w1) as (l2 & E2 & H2). exists (l1 ++ l2).
    rewrite E2, E1, app_assoc. split; [done |]. rewrite syntheses_app. lia.
Qed.

Lemma sends_try_catch_if {A} (a b : nat) c (m h : py world A) :
  sends a m -> sends b h -> sends (a + b) (try_catch_if c m h).
Proof.
  intros Hm Hh w. unfold try_catch_if. destruct (Hm w) as (l1 & E1 & H1).
  destruct (m w) as [[x|e] w1]; simpl in *.
  - exists l1. split; [done | lia].
  - destruct (c e).
    + destruct (Hh w1) as (l2 & E2 & H2). exists (l1 ++ l2).
      rewrite E2, E1, app_assoc. split; [done |]. rewrite syntheses_app. lia.
    + exists l1. split; [done | lia].
Qed.

Lemma sends_describe {A} (k : nat) region engine (r : result A) :
  sends k (call_polly (DescribeVoices region engine) r).
Proof.
  intros w. exists [DescribeVoices region engine]. split; [done |].
  unfold syntheses. simpl. lia.
Qed.

Lemma sends_synthesize cfg env text vid engine :
  sends 1 (synthesize cfg env text vid engine).
Proof. intros w. eexists [_]. split; [reflexivity |]. unfold syntheses. simpl. lia. Qed.

(** A step that sends no synthesis request, then the rest. *)
Ltac quiet :=
  first [ apply sends_ret | apply sends_lift | apply sends_on_fs
        | apply sends_on_hub | apply sends_load_dotenv | apply sends_env_flag
        | apply sends_describe ].

Ltac quiet_steps :=
  lazymatch goal with
  | |- sends ?k (bind _ _) =>
      apply (sends_bind 0 k); [quiet_steps | intros ?; quiet_steps]
  | |- sends _ (if ?b then _ else _) => destruct b; quiet_steps
  | |- sends _ (match ?x with _ => _ end) => destruct x; quiet_steps
  | |- sends _ (let _ := _ in _) => cbv zeta; quiet_steps
  | |- sends ?k (try_catch _ _) =>
      apply (sends_try_catch 0 k); quiet_steps
  | |- _ => quiet
  end.

Lemma sends_list_region_voices (k : nat) env region :
  sends k (list_region_voices env region).
Proof. unfold list_region_voices. quiet_steps. Qed.

Lemma sends_synthesize_with_retry cfg env text vid engine :
  sends 2 (synthesize_with_retry cfg env text vid engine).
Proof.
  unfold synthesize_with_retry.
  apply (sends_try_catch_if 1 1).
  - apply (sends_bind 1 0); [apply sends_synthesize | intros ?; quiet].
  - apply (sends_try_catch_if 1 0); [| quiet].
    apply (sends_bind 1 0); [apply sends_synthesize | intros ?; quiet].
Qed.

Lemma sends_generate_audio_url cfg env text :
  sends 2 (generate_audio_url cfg env text).
Proof.
  unfold generate_audio_url.
  apply (sends_bind 0 2); [quiet | intros _].
  apply (sends_bind 0 2); [quiet | intros tts].
  destruct (negb tts); [quiet |].
  apply (sends_try_catch 2 0); [| quiet].
  cbv zeta. destruct (String.eqb _ _); [quiet |].
  apply (sends_bind 0 2); [apply sends_list_region_voices | intros catalog].
  apply (sends_bind 0 2); [quiet | intros bytes].
  apply (sends_bind 0 2); [quiet | intros index].
  apply (sends_bind 0 2); [quiet | intros entry].
  apply (sends_bind 0 2); [quiet | intros cached].
  destruct cached as [url|]; [quiet |].
  apply (sends_bind 2 0); [apply sends_synthesize_with_retry | intros answer].
  destruct answer as [[audio engine]|]; [| quiet].
  quiet_steps.
Qed.

Lemma sends_increment_audio_play cfg env text :
  sends 0 (_increment_audio_play cfg env text).
Proof.
  unfold _increment_audio_play.
  apply (sends_try_catch 0 0); [| quiet]. cbv zeta.
  apply (sends_bind 0 0); [apply sends_list_region_voices | intros catalog].
  quiet_steps.
Qed.

Lemma sends_vote_audio cfg env tts quote :
  sends 2 (vote_audio cfg env tts quote).
Proof.
  unfold vote_audio. destruct tts; [| quiet].
  apply (sends_bind 2 0); [apply sends_generate_audio_url | intros url].
  apply (sends_bind 0 0); [| intros ?; quiet].
  destruct (negb _); [apply sends_increment_audio_play | quiet].
Qed.

Lemma sends_vote cfg env s : sends 2 (vote cfg env s).
Proof.
  unfold vote. cbv zeta.
  apply (sends_bind 0 2); [quiet | intros quote].
  apply (sends_bind 0 2); [quiet | intros _].
  apply (sends_bind 0 2); [quiet | intros tts].
  apply (sends_bind 0 2); [quiet | intros ding].
  apply (sends_bind 2 0); [apply sends_vote_audio | intros url].
  quiet_steps.
Qed.

End MainMore.



(** X21. main.py, GET /vote: whatever the settings, the service and the
    files, a vote sends at most two synthesis requests to Polly, and so
    does [generate_audio_url] alone; counting a play sends none.  The log
    of requests only grows. *)
Theorem a_vote_costs_at_most_two_syntheses
    (cfg : Main.settings) (env : Main.outside) (s : Z) (text : json)
    (w : Main.world) :
  (exists l,
      Main.polly_calls (snd (Main.vote cfg env s w))
      = Main.polly_calls w ++ l /\
      (syntheses l <= 2)%nat) /\
  (exists l,
      Main.polly_calls (snd (Main.generate_audio_url cfg env text w))
      = Main.polly_calls w ++ l /\
      (syntheses l <= 2)%nat) /\
  (exists l,
      Main.polly_calls (snd (Main._increment_audio_play cfg env text w))
      = Main.polly_calls w ++ l /\
      syntheses l = 0%nat).
Proof.
  split; [apply (sends_vote cfg env s w) |].
  split; [apply (sends_generate_audio_url cfg env text w) |].
  destruct (sends_increment_audio_play cfg env text w) as (l & E & Hl).
  exists l. split; [exact E | lia].
Qed.

Section PlayCount.

Import Main.

#[local] Arguments md5_hex12 : simpl never.
#[local] Arguments key_hash_of : simpl never.
#[local] Arguments sanitize_voice_id : simpl never.
#[local] Arguments pick_engine_for_voice : simpl never.
#[local] Arguments py_strip : simpl never.
#[local] Arguments safe_voice_of : simpl never.

Lemma truthy_dict (e : dict) : e <> [] -> truthy (JDict e) = true.
Proof. by destruct e. Qed.

(** The first steps of [_increment_audio_play], up to the entry. *)
Lemma increment_run cfg env t w idx e n :
  holds (AUDIO_INDEX_PATH cfg) (JDict idx) (fs w) ->
  AUDIO_INDEX_PATH cfg ∉ dirs (fs w) ->
  dict_get (lookup_key cfg env t) idx = Some (JDict e) ->
  e <> [] ->
  py_int (from_option id (JInt 0) (dict_get "play_count" e)) = Ok n ->
  _increment_audio_play cfg env (JStr t) w
  = (Ok tt,
     {| fs :=
          set_files
            (insert (AUDIO_INDEX_PATH cfg)
               {| readable := true;
                  data :=
                    Document
                      (JDict
                         (dict_set (lookup_key cfg env t)
                            (JDict (dict_set "play_count" (JInt (n + 1)) e))
                            idx)) |}) (fs w);
        hub := hub w;
        polly_calls := polly_calls w ++ catalog_calls cfg;
        environ := environ w; dotenv := dotenv w |}).
Proof.
  intros Hh Hd Hk He Hn.
  unfold _increment_audio_play, try_catch. cbv zeta.
  rewrite (bind_ok _ _ _ _ _ (list_region_voices_run _ _ _)).
  fold (voice_of cfg env). fold (engine_of cfg env).
  change (py_format (JStr t)) with t.
  fold (lookup_key cfg env t).
  erewrite (bind_ok (on_fs (gets _)));
    [| apply main_on_fs_run; unfold gets; reflexivity].
  cbn [fs].
  assert (Fs.path_exists (AUDIO_INDEX_PATH cfg) (fs w) = true) as ->.
  { unfold Fs.path_exists. unfold holds in Hh. rewrite Hh.
    by rewrite bool_decide_eq_true_2 by eauto. }
  erewrite (bind_ok (on_fs (Fs.load_json _)));
    [| apply main_on_fs_run; cbn [fs]; exact (read_holds _ _ _ Hd Hh)].
  rewrite (bind_ok (lift (py_get (JDict idx) (lookup_key cfg env t) JNull))
             _ _ (JDict e) _
             ltac:(unfold lift, py_get; rewrite Hk; reflexivity)).
  rewrite (truthy_dict e He).
  erewrite (bind_ok (lift (bump_play_count _)));
    [| unfold lift, bump_play_count, py_get, rbind; rewrite Hn; reflexivity].
  erewrite (bind_ok (lift (set_item _ _ _))); [| reflexivity].
  erewrite main_on_fs_step;
    [| cbn [fs]; apply write_file_run; exact Hd].
  unfold holds in Hh. cbn [fs hub polly_calls environ dotenv].
  rewrite Hh. reflexivity.
Qed.

End PlayCount.

(** X22. main.py, [_increment_audio_play], with a voice setting of ASCII
    text: for a text that has an entry in the index, under the key the
    lookup uses, whose [play_count] is a number [int] reads (0 when the
    entry has none), the count goes up by one; the rest of the entry and
    the other entries stay, no other file changes, and no synthesis is
    requested. *)
Theorem a_play_adds_one_to_the_entry_of_the_text
    (cfg : Main.settings) (env : Main.outside) (t : string) (w : Main.world)
    (idx e : dict) (n : Z) :
  ascii_text (Main.POLLY_VOICE_ID cfg) ->
  holds (Main.AUDIO_INDEX_PATH cfg) (JDict idx) (Main.fs w) ->
  Main.AUDIO_INDEX_PATH cfg ∉ dirs (Main.fs w) ->
  dict_get (lookup_key cfg env t) idx = Some (JDict e) ->
  e <> [] ->
  py_int (from_option id (JInt 0) (dict_get "play_count" e)) = Ok n ->
  exists w' idx' e',
    Main._increment_audio_play cfg env (JStr t) w = (Ok tt, w') /\
    holds (Main.AUDIO_INDEX_PATH cfg) (JDict idx') (Main.fs w') /\
    dict_get (lookup_key cfg env t) idx' = Some (JDict e') /\
    dict_get "play_count" e' = Some (JInt (n + 1)) /\
    (forall k, k <> "play_count" -> dict_get k e' = dict_get k e) /\
    (forall k, k <> lookup_key cfg env t ->
               dict_get k idx' = dict_get k idx) /\
    (forall p, p <> Main.AUDIO_INDEX_PATH cfg ->
               files (Main.fs w') !! p = files (Main.fs w) !! p) /\
    syntheses (Main.polly_calls w') = syntheses (Main.polly_calls w).
Proof.
  intros _ Hh Hd Hk He Hn.
  eexists _, _, _. split; [by apply (increment_run cfg env t w idx e n) |].
  cbn [Main.fs Main.polly_calls set_files files].
  split; [apply lookup_insert_eq |].
  split; [apply dict_get_set |].
  split; [apply dict_get_set |].
  split; [intros k Hne; by apply dict_get_set_ne |].
  split; [intros k Hne; by apply dict_get_set_ne |].
  split; [intros p Hne; by rewrite lookup_insert_ne |].
  by rewrite syntheses_app, syntheses_catalog_calls, Nat.add_0_r.
Qed.

Lemma a_play_adds_one_to_the_entry_of_the_text_witness :
  let env := main_outside polly_answering in
  let t := "Well, that happened." in
  let e := [("filename", JStr "a.mp3"); ("play_count", JStr "41")] in
  let idx := [(lookup_key main_settings env t, JDict e)] in
  let w :=
    {| Main.fs :=
         {| files :=
              {[ Main.AUDIO_INDEX_PATH main_settings :=
                   {| readable := true; data := Document (JDict idx) |} ]};
            dirs := ∅ |};
       Main.hub := Main.hub main_world; Main.polly_calls := [];
       Main.environ := ∅; Main.dotenv := ∅ |} in
  exists w' idx' e',
    Main._increment_audio_play main_settings env (JStr t) w = (Ok tt, w') /\
    holds (Main.AUDIO_INDEX_PATH main_settings) (JDict idx') (Main.fs w') /\
    dict_get (lookup_key main_settings env t) idx' = Some (JDict e') /\
    dict_get "play_count" e' = Some (JInt (41 + 1)) /\
    (forall k, k <> "play_count" -> dict_get k e' = dict_get k e) /\
    (forall k, k <> lookup_key main_settings env t ->
               dict_get k idx' = dict_get k idx) /\
    (forall p, p <> Main.AUDIO_INDEX_PATH main_settings ->
               files (Main.fs w') !! p = files (Main.fs w) !! p) /\
    syntheses (Main.polly_calls w') = syntheses (Main.polly_calls w).
Proof.
  intros env t e idx w.
  apply (a_play_adds_one_to_the_entry_of_the_text main_settings env t w
           idx e 41).
  - unfold ascii_text. apply (bool_decide_unpack _). vm_compute; reflexivity.
  - vm_compute; reflexivity.
  - apply not_elem_of_empty.
  - vm_compute; reflexivity.
  - discriminate.
  - vm_compute; reflexivity.
Defined.

Section FirstPlay.

Import Main.

#[local] Arguments md5_hex12 : simpl never.
#[local] Arguments key_hash_of : simpl never.
#[local] Arguments sanitize_voice_id : simpl never.
#[local] Arguments pick_engine_for_voice : simpl never.
#[local] Arguments py_strip : simpl never.
#[local] Arguments safe_voice_of : simpl never.

Lemma vote_audio_miss cfg env t w idx audio :
  let engine := engine_of cfg env in
  let name := audio_name_of cfg env engine t in
  let fields :=
    [("text", JStr t); ("voice", JStr (voice_of cfg env));
     ("engine", JStr engine); ("format", JStr (POLLY_OUTPUT_FORMAT cfg));
     ("region", JStr (AWS_REGION cfg)); ("filename", JStr name);
     ("created_ts", JStr (gmtime_created env)); ("play_count", JInt 1)] in
  tts_on w ->
  py_strip (POLLY_VOICE_ID cfg) <> "" ->
  load_index cfg (fs w) = (Ok (JDict idx), fs w) ->
  from_option readable true (files (fs w) !! AUDIO_INDEX_PATH cfg) = true ->
  dict_get (lookup_key cfg env t) idx = None ->
  synthesize_speech (aws env) (AWS_REGION cfg) t (POLLY_OUTPUT_FORMAT cfg)
    (voice_of cfg env) (Some engine) = Audio audio ->
  cache_writable cfg (audio_path_of cfg env engine t) (fs w) ->
  exists w',
    vote_audio cfg env true (JStr t) w
    = (Ok ("/static/audio/" +:+ name), w') /\
    holds (AUDIO_INDEX_PATH cfg)
      (JDict (dict_set (lookup_key cfg env t) (JDict fields) idx)) (fs w') /\
    syntheses (polly_calls w') = S (syntheses (polly_calls w)).
Proof.
  intros engine name fields Htts Hvoice Hidx Hmode Hmiss Hsynth Hw.
  pose proof (generate_audio_url_miss cfg env t w idx audio
                Htts Hvoice Hidx Hmiss Hsynth Hw) as Hgen.
  destruct Hw as (W1 & W2 & W3 & W4 & W5 & W6 & W7 & W8).
  pose proof (index_is_not_audio cfg env (engine_of cfg env) t) as Hne.
  unfold vote_audio.
  rewrite (bind_ok _ _ _ _ _ Hgen).
  assert (String.eqb ("/static/audio/"
                        +:+ audio_name_of cfg env (engine_of cfg env) t) ""
          = false) as -> by reflexivity.
  cbn [negb].
  erewrite (bind_ok (_increment_audio_play _ _ _)).
  2:{ apply (increment_run cfg env t _
               (dict_set (lookup_key cfg env t)
                  (index_entry t (voice_of cfg env) (engine_of cfg env)
                     (POLLY_OUTPUT_FORMAT cfg) (AWS_REGION cfg)
                     (audio_name_of cfg env (engine_of cfg env) t)
                     (gmtime_created env)) idx)
               [("text", JStr t); ("voice", JStr (voice_of cfg env));
                ("engine", JStr (engine_of cfg env));
                ("format", JStr (POLLY_OUTPUT_FORMAT cfg));
                ("region", JStr (AWS_REGION cfg));
                ("filename",
                 JStr (audio_name_of cfg env (engine_of cfg env) t));
                ("created_ts", JStr (gmtime_created env));
                ("play_count", JInt 0)] 0).
      - unfold holds, after_synthesis. simpl.
        rewrite lookup_insert_eq, lookup_insert_ne by done.
        by rewrite Hmode.
      - unfold after_synthesis. simpl.
        rewrite !elem_of_union, !elem_of_singleton. tauto.
      - apply dict_get_set.
      - discriminate.
      - reflexivity. }
  eexists. split; [reflexivity |].
  split.
  - unfold holds, set_files. simpl.
    rewrite lookup_insert_eq. by rewrite dict_set_set.
  - cbn [polly_calls].
    rewrite !syntheses_app, !syntheses_catalog_calls.
    unfold syntheses at 2. simpl. lia.
Qed.

End FirstPlay.

(** X23. main.py, the audio lines of [vote], with a voice setting of ASCII
    text: for a text that is not in the index and that Polly answers on the
    engine picked, the audio is synthesized once and the index then holds
    its entry with the file name and a [play_count] of 1. *)
Theorem a_new_audio_is_indexed_with_one_play
    (cfg : Main.settings) (env : Main.outside) (t : string)
    (w : Main.world) (idx : dict) (audio : string) :
  tts_on w ->
  ascii_text (Main.POLLY_VOICE_ID cfg) ->
  py_strip (Main.POLLY_VOICE_ID cfg) <> "" ->
  Main.load_index cfg (Main.fs w) = (Ok (JDict idx), Main.fs w) ->
  from_option readable true
    (files (Main.fs w) !! Main.AUDIO_INDEX_PATH cfg) = true ->
  dict_get (lookup_key cfg env t) idx = None ->
  synthesize_speech (Main.aws env) (Main.AWS_REGION cfg) t
    (Main.POLLY_OUTPUT_FORMAT cfg) (voice_of cfg env)
    (Some (engine_of cfg env)) = Audio audio ->
  cache_writable cfg (audio_path_of cfg env (engine_of cfg env) t)
    (Main.fs w) ->
  exists w' idx' e,
    Main.vote_audio cfg env true (JStr t) w
    = (Ok ("/static/audio/"
             +:+ audio_name_of cfg env (engine_of cfg env) t), w') /\
    holds (Main.AUDIO_INDEX_PATH cfg) (JDict idx') (Main.fs w') /\
    dict_get (lookup_key cfg env t) idx' = Some (JDict e) /\
    dict_get "filename" e
    = Some (JStr (audio_name_of cfg env (engine_of cfg env) t)) /\
    dict_get "play_count" e = Some (JInt 1) /\
    (forall k, k <> lookup_key cfg env t ->
               dict_get k idx' = dict_get k idx) /\
    syntheses (Main.polly_calls w') = S (syntheses (Main.polly_calls w)).
Proof.
  intros Htts _ Hvoice Hidx Hmode Hmiss Hsynth Hw.
  destruct (vote_audio_miss cfg env t w idx audio
              Htts Hvoice Hidx Hmode Hmiss Hsynth Hw) as (w' & Hv & Hh & Hs).
  eexists w', _, _. split; [exact Hv |]. split; [exact Hh |].
  split; [apply dict_get_set |]. split; [reflexivity |].
  split; [reflexivity |].
  split; [intros k Hk; by apply dict_get_set_ne | exact Hs].
Qed.

Lemma a_new_audio_is_indexed_with_one_play_witness :
  let env := main_outside polly_answering in
  let t := "Well, that happened." in
  exists w' idx' e,
    Main.vote_audio main_settings env true (JStr t) main_world
    = (Ok ("/static/audio/"
             +:+ audio_name_of main_settings env
                   (engine_of main_settings env) t), w') /\
    holds (Main.AUDIO_INDEX_PATH main_settings) (JDict idx') (Main.fs w') /\
    dict_get (lookup_key main_settings env t) idx' = Some (JDict e) /\
    dict_get "filename" e
    = Some (JStr (audio_name_of main_settings env
                    (engine_of main_settings env) t)) /\
    dict_get "play_count" e = Some (JInt 1) /\
    (forall k, k <> lookup_key main_settings env t ->
               dict_get k idx' = dict_get k []) /\
    syntheses (Main.polly_calls w')
    = S (syntheses (Main.polly_calls main_world)).
Proof.
  intros env t.
  apply (a_new_audio_is_indexed_with_one_play main_settings env t main_world
           [] "ID3").
  - vm_compute; reflexivity.
  - unfold ascii_text. apply (bool_decide_unpack _). vm_compute; reflexivity.
  - intros H; vm_compute in H; discriminate H.
  - vm_compute; reflexivity.
  - vm_compute; reflexivity.
  - vm_compute; reflexivity.
  - vm_compute; reflexivity.
  - cold_cache_writable.
Defined.
(* ===================================================================== *)
(** ** More of main.py: the overlay controls, the quotes and the voices *)
(* ===================================================================== *)

Section OverlayFacts.

Import Overlay.

Lemma main_hub_run {A} (m : py (SSEHub.hub Main.event) A) w r h :
  m (Main.hub w) = (r, h) ->
  Main.on_hub m w
  = (r, {| Main.fs := Main.fs w; Main.hub := h;
           Main.polly_calls := Main.polly_calls w;
           Main.environ := Main.environ w; Main.dotenv := Main.dotenv w |}).
Proof. intros H. unfold Main.on_hub, zoom. by rewrite H. Qed.

Lemma int_field_dict d key default fallback n :
  dict_get key d = Some (JInt n) ->
  int_field (JDict d) key default fallback = n.
Proof. intros H. unfold int_field, py_get. by rewrite H. Qed.

Lemma request_data_dict d : d <> [] -> request_data (Some (JDict d)) = JDict d.
Proof. by destruct d. Qed.

(** What [update_theme] makes of a server. *)
Lemma update_theme_run (env_writable : bool) (body : option json) s :
  let deg := Z.max 0 (Z.min 360 (int_field (request_data body) "hue_deg" 0 0)) in
  exists h',
    SSEHub.broadcast (Main.Theme deg) (Main.hub (world s)) = (Ok tt, h') /\
    update_theme env_writable body s
    = (Ok {| theme_ok := true; theme_hue_deg := deg |},
       {| world :=
            {| Main.fs := Main.fs (world s); Main.hub := h';
               Main.polly_calls := Main.polly_calls (world s);
               Main.environ := Main.environ (world s);
               Main.dotenv :=
                 if env_writable
                 then <["OVERLAY_HUE_DEG" := str_of_int deg]>
                        (Main.dotenv (world s))
                 else Main.dotenv (world s) |};
          OVERLAY_HUE_DEG := deg |}).
Proof.
  intros deg.
  destruct (broadcast_returns (Main.Theme deg) (Main.hub (world s)))
    as (h' & Hb).
  exists h'. split; [exact Hb |].
  unfold update_theme. cbv zeta. fold deg.
  unfold bind, try_catch, on_world, zoom, save_env_var, modify, ret.
  destruct env_writable; cbn [world OVERLAY_HUE_DEG raise].
  - erewrite main_hub_run by (cbn [Main.hub]; exact Hb). reflexivity.
  - erewrite main_hub_run by exact Hb. by destruct (world s).
Qed.

Lemma overlay_preview_run (body : option json) w :
  let data := request_data body in
  let active :=
    match py_get data "active" (JBool false) with
    | Ok v => truthy v
    | Raise _ => false
    end in
  let score := clamp (int_field data "score" 1 1) in
  exists h',
    SSEHub.broadcast (Main.Preview active score) (Main.hub w) = (Ok tt, h') /\
    overlay_preview body w
    = (Ok {| preview_ok := true; preview_active := active;
             preview_score := score |},
       {| Main.fs := Main.fs w; Main.hub := h';
          Main.polly_calls := Main.polly_calls w;
          Main.environ := Main.environ w; Main.dotenv := Main.dotenv w |}).
Proof.
  intros data active score.
  destruct (broadcast_returns (Main.Preview active score) (Main.hub w))
    as (h' & Hb).
  exists h'. split; [exact Hb |].
  unfold overlay_preview. cbv zeta. fold data. fold active.
  change (Z.max 1 (Z.min 10 (int_field data "score" 1 1))) with score.
  unfold bind, try_catch, ret.
  by rewrite (main_hub_run _ _ _ _ Hb).
Qed.

End OverlayFacts.

(** X24. main.py, POST /theme: whatever the body, the route answers 200
    with a hue between 0 and 360, which it assigns to [OVERLAY_HUE_DEG],
    broadcasts as a theme event and, when the [.env] file can be written,
    saves there in decimal; the cache files are untouched and no request
    is sent to Polly.  The hue is the body's integer [hue_deg] cut to the
    range, and 0 when there is no body. *)
Theorem theme_hue_is_clamped_saved_and_broadcast
    (env_writable : bool) (body : option json) (s : Overlay.server) :
  exists deg s',
    flask_view (Overlay.update_theme env_writable body) s
    = ({| status := 200;
          body := Some {| Overlay.theme_ok := true;
                          Overlay.theme_hue_deg := deg |} |}, s') /\
    0 <= deg <= 360 /\
    Overlay.OVERLAY_HUE_DEG s' = deg /\
    SSEHub.broadcast (Main.Theme deg) (Main.hub (Overlay.world s))
    = (Ok tt, Main.hub (Overlay.world s')) /\
    Main.fs (Overlay.world s') = Main.fs (Overlay.world s) /\
    Main.polly_calls (Overlay.world s') = Main.polly_calls (Overlay.world s) /\
    (env_writable = true ->
     Main.dotenv (Overlay.world s') !! "OVERLAY_HUE_DEG"
     = Some (str_of_int deg)) /\
    (forall d n, body = Some (JDict d) ->
                 dict_get "hue_deg" d = Some (JInt n) ->
                 deg = Z.max 0 (Z.min 360 n)) /\
    (body = None -> deg = 0).
Proof.
  destruct (update_theme_run env_writable body s) as (h' & Hb & Hrun).
  eexists _, _. split; [unfold flask_view; rewrite Hrun; reflexivity |].
  cbn [Overlay.world Overlay.OVERLAY_HUE_DEG Main.hub Main.fs
         Main.polly_calls Main.dotenv].
  split; [lia |]. split; [reflexivity |]. split; [exact Hb |].
  split; [reflexivity |]. split; [reflexivity |].
  split; [intros ->; apply lookup_insert_eq |].
  split; [| by intros ->].
  intros d n -> Hd.
  assert (d <> []) as Hne by (intros ->; discriminate Hd).
  by rewrite (request_data_dict d Hne), (int_field_dict _ _ _ _ _ Hd).
Qed.

(** X25. main.py, POST /preview: whatever the body, the route answers 200
    with a score between 1 and 10 and broadcasts it with the flag as a
    preview event; nothing else changes.  The score is the body's integer
    [score] cut to the range, and 1 with the flag off when there is no
    body. *)
Theorem preview_score_is_clamped_and_broadcast
    (body : option json) (w : Main.world) :
  exists active score w',
    flask_view (Overlay.overlay_preview body) w
    = ({| status := 200;
          body := Some {| Overlay.preview_ok := true;
                          Overlay.preview_active := active;
                          Overlay.preview_score := score |} |}, w') /\
    1 <= score <= 10 /\
    SSEHub.broadcast (Main.Preview active score) (Main.hub w)
    = (Ok tt, Main.hub w') /\
    Main.fs w' = Main.fs w /\
    Main.polly_calls w' = Main.polly_calls w /\
    Main.dotenv w' = Main.dotenv w /\
    (forall d n, body = Some (JDict d) ->
                 dict_get "score" d = Some (JInt n) ->
                 score = clamp n) /\
    (body = None -> score = 1 /\ active = false).
Proof.
  destruct (overlay_preview_run body w) as (h' & Hb & Hrun).
  eexists _, _, _. split; [unfold flask_view; rewrite Hrun; reflexivity |].
  cbn [Main.hub Main.fs Main.polly_calls Main.dotenv].
  split; [apply clamp_range |]. split; [exact Hb |].
  split; [reflexivity |]. split; [reflexivity |]. split; [reflexivity |].
  split; [| by intros ->].
  intros d n -> Hd.
  assert (d <> []) as Hne by (intros ->; discriminate Hd).
  by rewrite (request_data_dict d Hne), (int_field_dict _ _ _ _ _ Hd).
Qed.

Section MergeFacts.

Import Main.

Lemma dict_get_absent (k : string) (d : dict) :
  k ∉ map fst d -> dict_get k d = None.
Proof.
  induction d as [|[k0 v0] d IH]; simpl; [done |].
  intros Hk. apply not_elem_of_cons in Hk as [Hne Hk].
  rewrite (proj2 (String.eqb_neq k k0) Hne). by apply IH.
Qed.

Lemma merge_defaults_from (d : dict) : forall (m : dict) (k : string),
  NoDup (map fst d) ->
  dict_get k
    (fold_left (fun merged kv => dict_set (fst kv) (as_list (snd kv)) merged)
       d m)
  = match dict_get k d with
    | Some v => Some (as_list v)
    | None => dict_get k m
    end.
Proof.
  induction d as [|[k0 v0] d IH]; intros m k Hnd; simpl; [done |].
  apply NoDup_cons in Hnd as [Hk0 Hnd]. rewrite (IH _ _ Hnd).
  destruct (String.eqb_spec k k0) as [-> | Hne].
  - rewrite (dict_get_absent k0 d Hk0). apply dict_get_set.
  - destruct (dict_get k d); [done |]. by apply dict_get_set_ne.
Qed.

Lemma merge_defaults_get (d : dict) (k : string) :
  NoDup (map fst d) ->
  dict_get k (merge_defaults d) = as_list <$> dict_get k d.
Proof.
  intros Hnd. unfold merge_defaults.
  change (fun merged kv =>
            dict_set (fst kv)
              (match snd kv with JList l => JList l | _ => JList [] end)
              merged)
    with (fun merged (kv : string * json) =>
            dict_set (fst kv) (as_list (snd kv)) merged).
  rewrite (merge_defaults_from d [] k Hnd). by destruct (dict_get k d).
Qed.

Lemma merge_user_get (u : dict) : forall (m : dict) (k : string),
  NoDup (map fst u) ->
  dict_get k (merge_user u m)
  = match dict_get k u with
    | Some (JList l) => Some (JList l)
    | Some _ => Some (from_option id (JList []) (dict_get k m))
    | None => dict_get k m
    end.
Proof.
  unfold merge_user.
  induction u as [|[k0 v0] u IH]; intros m k Hnd; simpl; [done |].
  apply NoDup_cons in Hnd as [Hk0 Hnd]. rewrite (IH _ _ Hnd).
  destruct (String.eqb_spec k k0) as [-> | Hne].
  - rewrite (dict_get_absent k0 u Hk0), dict_get_set. by destruct v0.
  - rewrite (dict_get_set_ne k k0) by done. done.
Qed.

(** The payload of defaults is always there, and loading it writes
    nothing. *)
Lemma default_payload_run cfg t :
  exists payload,
    _load_default_quotes_payload cfg t = (Ok payload, t).
Proof.
  unfold _load_default_quotes_payload, try_catch.
  rewrite (load_json_run (DEFAULT_QUOTES_FILE cfg) t).
  destruct (fst (Fs.load_json (DEFAULT_QUOTES_FILE cfg) t)); by eexists.
Qed.

(** The section [name] of quotes.json as both loaders read it. *)
Lemma user_section_run cfg (name : string) t :
  try_catch
    (data <- Fs.load_json (QUOTES_FILE cfg);;
     lift (py_get data name (JDict [])))%py
    (ret (JDict [])) t
  = (Ok (match fst (Fs.load_json (QUOTES_FILE cfg) t) with
         | Ok (JDict d) => from_option id (JDict []) (dict_get name d)
         | _ => JDict []
         end), t).
Proof.
  unfold try_catch, bind.
  rewrite (load_json_run (QUOTES_FILE cfg) t).
  destruct (fst (Fs.load_json (QUOTES_FILE cfg) t)) as [j|e]; simpl;
    [| done].
  by destruct j.
Qed.

Lemma message_for_set (k v : string) (d : list (string * string)) :
  message_for (assoc_set k v d) k = Some v.
Proof.
  unfold message_for. induction d as [|[k0 v0] d IH]; simpl.
  - by rewrite String.eqb_refl.
  - destruct (String.eqb k k0) eqn:E; simpl.
    + rewrite String.eqb_sym, E. done.
    + rewrite String.eqb_sym, E. exact IH.
Qed.

Lemma message_for_set_ne (k k' v : string) (d : list (string * string)) :
  k <> k' -> message_for (assoc_set k' v d) k = message_for d k.
Proof.
  intros Hne. unfold message_for.
  induction d as [|[k0 v0] d IH]; simpl.
  - by rewrite (proj2 (String.eqb_neq k' k)) by done.
  - destruct (String.eqb k' k0) eqn:E; simpl.
    + apply String.eqb_eq in E. subst k0.
      by rewrite (proj2 (String.eqb_neq k' k)) by done.
    + destruct (String.eqb k0 k); [done | exact IH].
Qed.

Lemma merge_messages_get (items : dict) :
  forall (m : list (string * string)) (k : string),
  NoDup (map fst items) ->
  message_for (merge_messages items m) k
  = match dict_get k items with
    | Some v => Some (py_format v)
    | None => message_for m k
    end.
Proof.
  unfold merge_messages.
  induction items as [|[k0 v0] items IH]; intros m k Hnd; simpl; [done |].
  apply NoDup_cons in Hnd as [Hk0 Hnd]. rewrite (IH _ _ Hnd).
  destruct (String.eqb_spec k k0) as [-> | Hne].
  - rewrite (dict_get_absent k0 items Hk0). apply message_for_set.
  - destruct (dict_get k items); [done |]. by apply message_for_set_ne.
Qed.

End MergeFacts.

(** X26. main.py, [load_quotes]: for every score the list of quotes.json
    wins over the list of the defaults; a score that quotes.json leaves
    out, or a quotes.json that cannot be used, leaves the list of the
    defaults; and every value of the result is a list.  Nothing is
    written. *)
Theorem user_quotes_override_the_defaults
    (cfg : Main.settings) (t : filesystem) (pd dq uq : dict) :
  fst (Main._load_default_quotes_payload cfg t) = Ok (JDict pd) ->
  from_option id (JDict []) (dict_get "quotes" pd) = JDict dq ->
  user_section cfg "quotes" t = JDict uq ->
  NoDup (map fst dq) -> NoDup (map fst uq) ->
  exists merged,
    Main.load_quotes cfg t = (Ok merged, t) /\
    (forall k l, dict_get k uq = Some (JList l) ->
                 dict_get k merged = Some (JList l)) /\
    (forall k l, dict_get k uq = None -> dict_get k dq = Some (JList l) ->
                 dict_get k merged = Some (JList l)) /\
    (forall k, dict_get k uq = None -> dict_get k dq = None ->
               dict_get k merged = None) /\
    (forall k v, dict_get k merged = Some v -> exists l, v = JList l).
Proof.
  intros Hp Hdq Huq Hnd Hnu.
  exists (Main.merge_user uq (Main.merge_defaults dq)).
  assert (forall k,
             dict_get k (Main.merge_user uq (Main.merge_defaults dq))
             = match dict_get k uq with
               | Some (JList l) => Some (JList l)
               | Some _ =>
                   Some (from_option id (JList [])
                           (as_list <$> dict_get k dq))
               | None => as_list <$> dict_get k dq
               end) as Hget.
  { intros k. rewrite (merge_user_get uq _ k Hnu).
    by rewrite (merge_defaults_get dq k Hnd). }
  split; [| split; [| split; [| split]]].
  - unfold Main.load_quotes.
    destruct (default_payload_run cfg t) as (payload & Hrun).
    rewrite Hrun in Hp. simpl in Hp. injection Hp as ->.
    rewrite (bind_ok _ _ _ _ _ Hrun).
    erewrite (bind_ok (lift (py_get (JDict pd) _ _))); [| reflexivity].
    rewrite (bind_ok _ _ _ _ _ (user_section_run cfg "quotes" t)).
    fold (user_section cfg "quotes" t). rewrite Hdq, Huq. reflexivity.
  - intros k l Hk. by rewrite Hget, Hk.
  - intros k l Hk Hd. by rewrite Hget, Hk, Hd.
  - intros k Hk Hd. by rewrite Hget, Hk, Hd.
  - intros k v. rewrite Hget.
    destruct (dict_get k uq) as [[| | | |l|]|];
      destruct (dict_get k dq) as [[| | | |l'|]|]; simpl;
      intros H; simplify_eq; by eexists.
Qed.

Lemma user_quotes_override_the_defaults_witness :
  let dq := [("2", JList [JStr "Hard arrival."]);
             ("7", JList [JStr "Nice!"])] in
  let uq := [("9", JList [JStr "Butter."]); ("2", JStr "ouch")] in
  let t :=
    {| files :=
         {[ "quotes.default.json" :=
              {| readable := true;
                 data := Document (JDict [("quotes", JDict dq)]) |};
            "quotes.json" :=
              {| readable := true;
                 data := Document (JDict [("quotes", JDict uq)]) |} ]};
       dirs := ∅ |} in
  exists merged,
    Main.load_quotes main_settings t = (Ok merged, t) /\
    (forall k l, dict_get k uq = Some (JList l) ->
                 dict_get k merged = Some (JList l)) /\
    (forall k l, dict_get k uq = None -> dict_get k dq = Some (JList l) ->
                 dict_get k merged = Some (JList l)) /\
    (forall k, dict_get k uq = None -> dict_get k dq = None ->
               dict_get k merged = None) /\
    (forall k v, dict_get k merged = Some v -> exists l, v = JList l).
Proof.
  intros dq uq t.
  apply (user_quotes_override_the_defaults main_settings t
           [("quotes", JDict dq)] dq uq).
  - vm_compute; reflexivity.
  - reflexivity.
  - vm_compute; reflexivity.
  - apply (bool_decide_unpack _). vm_compute; reflexivity.
  - apply (bool_decide_unpack _). vm_compute; reflexivity.
Defined.

(** X27. main.py, [load_messages]: for every score the message of
    quotes.json wins over the message of the defaults, and a score that
    quotes.json leaves out, or a quotes.json that cannot be used, leaves
    the message of the defaults.  A message that is a string is kept as it
    is, a number, a boolean or [null] as its [str]; a message that is a
    list or an object is kept as some text.  Nothing is written. *)
Theorem user_messages_override_the_defaults
    (cfg : Main.settings) (t : filesystem) (pd dm um : dict) :
  fst (Main._load_default_quotes_payload cfg t) = Ok (JDict pd) ->
  from_option id (JDict []) (dict_get "messages" pd) = JDict dm ->
  user_section cfg "messages" t = JDict um ->
  NoDup (map fst dm) -> NoDup (map fst um) ->
  exists merged,
    load_messages cfg t = (Ok merged, t) /\
    (forall k v, dict_get k um = Some v -> scalar v ->
                 message_for merged k = Some (py_format v)) /\
    (forall k v, dict_get k um = None -> dict_get k dm = Some v ->
                 scalar v ->
                 message_for merged k = Some (py_format v)) /\
    (forall k, is_Some (dict_get k um) \/ is_Some (dict_get k dm) ->
               is_Some (message_for merged k)) /\
    (forall k, dict_get k um = None -> dict_get k dm = None ->
               message_for merged k = None).
Proof.
  intros Hp Hdm Hum Hnd Hnu.
  exists (merge_messages um (merge_messages dm [])).
  assert (forall k,
             message_for (merge_messages um (merge_messages dm [])) k
             = match dict_get k um with
               | Some v => Some (py_format v)
               | None => py_format <$> dict_get k dm
               end) as Hget.
  { intros k. rewrite (merge_messages_get um _ k Hnu).
    rewrite (merge_messages_get dm [] k Hnd).
    by destruct (dict_get k um), (dict_get k dm). }
  split; [| split; [| split; [| split]]].
  - unfold load_messages.
    destruct (default_payload_run cfg t) as (payload & Hrun).
    rewrite Hrun in Hp. simpl in Hp. injection Hp as ->.
    rewrite (bind_ok _ _ _ _ _ Hrun).
    erewrite (bind_ok (lift (py_get (JDict pd) _ _))); [| reflexivity].
    rewrite (bind_ok _ _ _ _ _ (user_section_run cfg "messages" t)).
    fold (user_section cfg "messages" t). rewrite Hdm, Hum. reflexivity.
  - intros k v Hk _. by rewrite Hget, Hk.
  - intros k v Hk Hd _. by rewrite Hget, Hk, Hd.
  - intros k Hk. rewrite Hget.
    destruct (dict_get k um) as [v|]; [by eexists |].
    destruct Hk as [[? Hk] | [v Hk]]; [discriminate Hk |].
    rewrite Hk. by eexists.
  - intros k Hk Hd. by rewrite Hget, Hk, Hd.
Qed.

Lemma user_messages_override_the_defaults_witness :
  let dm := [("7", JStr "Nice!"); ("8", JStr "Smooth operator.")] in
  let um := [("7", JStr "Smooth."); ("10", JInt 10);
             ("9", JList [JStr "it's"])] in
  let t :=
    {| files :=
         {[ "quotes.default.json" :=
              {| readable := true;
                 data := Document (JDict [("messages", JDict dm)]) |};
            "quotes.json" :=
              {| readable := true;
                 data := Document (JDict [("messages", JDict um)]) |} ]};
       dirs := ∅ |} in
  exists merged,
    load_messages main_settings t = (Ok merged, t) /\
    (forall k v, dict_get k um = Some v -> scalar v ->
                 message_for merged k = Some (py_format v)) /\
    (forall k v, dict_get k um = None -> dict_get k dm = Some v ->
                 scalar v ->
                 message_for merged k = Some (py_format v)) /\
    (forall k, is_Some (dict_get k um) \/ is_Some (dict_get k dm) ->
               is_Some (message_for merged k)) /\
    (forall k, dict_get k um = None -> dict_get k dm = None ->
               message_for merged k = None).
Proof.
  intros dm um t.
  apply (user_messages_override_the_defaults main_settings t
           [("messages", JDict dm)] dm um).
  - vm_compute; reflexivity.
  - reflexivity.
  - vm_compute; reflexivity.
  - apply (bool_decide_unpack _). vm_compute; reflexivity.
  - apply (bool_decide_unpack _). vm_compute; reflexivity.
Defined.

Section VoiceFacts.

Import Main.

Lemma add_sorted_elem (x y : string) (l : list string) :
  x ∈ add_sorted y l <-> x = y \/ x ∈ l.
Proof.
  induction l as [|z l IH]; simpl.
  - rewrite list_elem_of_singleton, elem_of_nil. tauto.
  - destruct (String.eqb_spec y z) as [-> | Hne].
    + rewrite elem_of_cons. tauto.
    + destruct (String.ltb y z).
      * rewrite elem_of_cons. tauto.
      * rewrite !elem_of_cons, IH. tauto.
Qed.

Lemma add_voice_has (vid engine : string) (v : voice) (engine' : string)
    (c : list catalog_entry) :
  has_engine vid engine (add_voice v engine' c)
  <-> has_engine vid engine c \/ (Id v = vid /\ engine = engine').
Proof.
  unfold has_engine. induction c as [|e c IH]; simpl.
  - split.
    + intros (e & He & Hid & Heng). apply list_elem_of_singleton in He.
      subst e. simpl in *. apply list_elem_of_singleton in Heng. tauto.
    + intros [(e & He & _) | [Hid ->]]; [by apply elem_of_nil in He |].
      eexists. split; [apply list_elem_of_here |]. simpl.
      split; [exact Hid | apply list_elem_of_here].
  - destruct (String.eqb_spec (entry_id e) (Id v)) as [Heq | Hne].
    + split.
      * intros (e' & He' & Hid & Heng).
        apply elem_of_cons in He' as [-> | He'].
        -- simpl in *. apply add_sorted_elem in Heng as [-> | Heng].
           ++ right. split; congruence.
           ++ left. exists e. split; [apply list_elem_of_here | done].
        -- left. exists e'. split; [by apply list_elem_of_further | done].
      * intros [(e' & He' & Hid & Heng) | [Hid ->]].
        -- apply elem_of_cons in He' as [-> | He'].
           ++ eexists. split; [apply list_elem_of_here |]. simpl.
              split; [exact Hid |]. apply add_sorted_elem. by right.
           ++ exists e'. split; [by apply list_elem_of_further | done].
        -- eexists. split; [apply list_elem_of_here |]. simpl.
           split; [congruence |]. apply add_sorted_elem. by left.
    + split.
      * intros (e' & He' & Hid & Heng).
        apply elem_of_cons in He' as [-> | He'].
        -- left. exists e. split; [apply list_elem_of_here | done].
        -- destruct (proj1 IH) as [(e2 & H2 & H3) | H2];
             [by exists e' | | by right].
           left. exists e2. split; [by apply list_elem_of_further | done].
      * intros [(e' & He' & Hid & Heng) | H2].
        -- apply elem_of_cons in He' as [-> | He'].
           ++ exists e. split; [apply list_elem_of_here | done].
           ++ destruct (proj2 IH) as (e2 & H2 & H3);
                [left; by exists e' |].
              exists e2. split; [by apply list_elem_of_further | done].
        -- destruct (proj2 IH) as (e2 & H3 & H4); [by right |].
           exists e2. split; [by apply list_elem_of_further | done].
Qed.

Lemma add_voice_ids (v : voice) (engine : string) (c : list catalog_entry) :
  map entry_id (add_voice v engine c)
  = if decide (Id v ∈ map entry_id c) then map entry_id c
    else map entry_id c ++ [Id v].
Proof.
  induction c as [|e c IH].
  - cbn [add_voice map].
    destruct (decide (Id v ∈ [])) as [H | H];
      [by apply elem_of_nil in H | reflexivity].
  - cbn [add_voice map].
    destruct (String.eqb_spec (entry_id e) (Id v)) as [Heq | Hne].
    + destruct (decide (Id v ∈ entry_id e :: map entry_id c)) as [H | H];
        [reflexivity |].
      exfalso. apply H. rewrite Heq. apply list_elem_of_here.
    + cbn [map]. rewrite IH.
      destruct (decide (Id v ∈ map entry_id c)) as [Hin | Hin];
        destruct (decide (Id v ∈ entry_id e :: map entry_id c)) as [H | H];
        try reflexivity.
      * exfalso. apply H. by apply list_elem_of_further.
      * exfalso. apply elem_of_cons in H as [H | H]; [by subst | done].
Qed.

Lemma add_voice_nodup (v : voice) (engine : string)
    (c : list catalog_entry) :
  NoDup (map entry_id c) -> NoDup (map entry_id (add_voice v engine c)).
Proof.
  intros Hnd. rewrite add_voice_ids. destruct (decide _) as [|Hin]; [done |].
  apply NoDup_app. split; [done |]. split; [| apply NoDup_singleton].
  intros x Hx Hx'. apply list_elem_of_singleton in Hx'. by subst.
Qed.

Lemma collect_voices_has (vid engine engine' : string) (page : list voice) :
  forall c,
    has_engine vid engine (collect_voices engine' page c)
    <-> has_engine vid engine c \/
        (engine = engine' /\ vid <> "" /\ exists v, v ∈ page /\ Id v = vid).
Proof.
  unfold collect_voices.
  induction page as [|v page IH]; intros c; simpl.
  - split; [by left |]. intros [H | (_ & _ & v & Hv & _)]; [done |].
    by apply elem_of_nil in Hv.
  - rewrite IH. destruct (String.eqb_spec (Id v) "") as [Hv | Hv].
    + split.
      * intros [H | (He & Hne & v' & Hv' & Hid)]; [by left |].
        right. split; [done |]. split; [done |].
        exists v'. split; [by apply list_elem_of_further | done].
      * intros [H | (He & Hne & v' & Hv' & Hid)]; [by left |].
        right. split; [done |]. split; [done |].
        apply elem_of_cons in Hv' as [-> | Hv']; [congruence |].
        by exists v'.
    + rewrite add_voice_has. split.
      * intros [[H | [Hid ->]] | (He & Hne & v' & Hv' & Hid)].
        -- by left.
        -- right. split; [done |]. split; [congruence |].
           exists v. split; [apply list_elem_of_here | done].
        -- right. split; [done |]. split; [done |].
           exists v'. split; [by apply list_elem_of_further | done].
      * intros [H | (He & Hne & v' & Hv' & Hid)]; [by left; left |].
        apply elem_of_cons in Hv' as [-> | Hv'].
        -- left. right. done.
        -- right. split; [done |]. split; [done |]. by exists v'.
Qed.

Lemma collect_voices_nodup (engine : string) (page : list voice) :
  forall c, NoDup (map entry_id c) ->
            NoDup (map entry_id (collect_voices engine page c)).
Proof.
  unfold collect_voices.
  induction page as [|v page IH]; intros c Hnd; simpl; [done |].
  apply IH. destruct (String.eqb (Id v) ""); [done |].
  by apply add_voice_nodup.
Qed.

Lemma filter_none {A} (P : A -> Prop) `{forall x, Decision (P x)}
    (l : list A) :
  (forall x, x ∈ l -> ~ P x) -> filter P l = [].
Proof.
  induction l as [|x l IH]; intros Hl; [done |].
  rewrite filter_cons_False by (apply Hl, list_elem_of_here).
  apply IH. intros y Hy. by apply Hl, list_elem_of_further.
Qed.

(** The engines [pick_engine_for_voice] looks at are those the catalogue
    lists for the voice. *)
Lemma picked_engines (vid engine : string) (c : list catalog_entry) :
  NoDup (map entry_id c) ->
  engine ∈ match filter (fun e => entry_id e = vid) c with
           | [] => []
           | e :: r => SupportedEngines (List.last r e)
           end
  <-> has_engine vid engine c.
Proof.
  unfold has_engine. induction c as [|e c IH]; intros Hnd.
  - simpl. split; [intros H; by apply elem_of_nil in H |].
    intros (e & He & _). by apply elem_of_nil in He.
  - simpl in Hnd. apply NoDup_cons in Hnd as [Hid Hnd].
    rewrite filter_cons. destruct (decide (entry_id e = vid)) as [Heq | Hne].
    + assert (filter (fun e0 => entry_id e0 = vid) c = []) as ->.
      { apply filter_none. intros e' He' Hid'. apply Hid.
        rewrite Heq, <- Hid'.
        apply list_elem_of_In, in_map, list_elem_of_In. exact He'. }
      simpl. split.
      * intros H. exists e. split; [apply list_elem_of_here | done].
      * intros (e' & He' & Hid' & Heng).
        apply elem_of_cons in He' as [-> | He']; [done |].
        exfalso. apply Hid. rewrite Heq, <- Hid'.
        apply list_elem_of_In, in_map, list_elem_of_In. exact He'.
    + rewrite (IH Hnd). split.
      * intros (e' & He' & H). exists e'.
        split; [by apply list_elem_of_further | done].
      * intros (e' & He' & Hid' & Heng).
        apply elem_of_cons in He' as [-> | He']; [done |]. by exists e'.
Qed.

Lemma catalog_has_engine env region vid engine :
  has_engine vid engine (catalog_of env region)
  <-> vid <> "" /\
      ((engine = "standard" /\
        exists v, v ∈ describe_voices (aws env) region "standard" /\
                  Id v = vid) \/
       (engine = "neural" /\
        exists v, v ∈ describe_voices (aws env) region "neural" /\
                  Id v = vid)).
Proof.
  unfold catalog_of. rewrite !collect_voices_has.
  split.
  - intros [[(e & He & _) | H] | H]; [by apply elem_of_nil in He | |];
      tauto.
  - intros [Hne [H | H]]; tauto.
Qed.

Lemma catalog_nodup env region :
  NoDup (map entry_id (catalog_of env region)).
Proof.
  unfold catalog_of. do 2 apply collect_voices_nodup. constructor.
Qed.

End VoiceFacts.

(** X28. main.py, [pick_engine_for_voice] on the catalogue of
    [list_region_voices]: the engine is "neural" exactly when the voice is
    not the empty id and is among those the service lists for the neural
    engine, and "standard" in every other case, the unknown voice
    included. *)
Theorem neural_is_picked_exactly_for_the_voices_listed_as_neural
    (env : Main.outside) (region vid : string) :
  (Main.pick_engine_for_voice vid (catalog_of env region) = "neural"
   <-> vid <> "" /\
       exists v, v ∈ describe_voices (Main.aws env) region "neural" /\
                 Id v = vid) /\
  (Main.pick_engine_for_voice vid (catalog_of env region) = "neural" \/
   Main.pick_engine_for_voice vid (catalog_of env region) = "standard").
Proof.
  unfold Main.pick_engine_for_voice.
  pose proof (picked_engines vid "neural" (catalog_of env region)
                (catalog_nodup env region)) as Hp.
  rewrite catalog_has_engine in Hp.
  split; [| case_bool_decide; tauto].
  case_bool_decide as Hin.
  - split; [intros _ | done].
    apply Hp in Hin as [Hne [[Habs _] | [_ Hv]]]; [discriminate Habs | done].
  - split; [discriminate |]. intros [Hne Hv]. exfalso. apply Hin, Hp.
    split; [done |]. right. done.
Qed.

(** X29. main.py, [sanitize_voice_id], for a voice setting of ASCII text: a
    blank setting gives the empty id; a setting that is an id of the
    catalogue is kept; a label that is no id but holds ids of the
    catalogue resolves to one of those, so to the id it holds when it
    holds one only.  Which of several it is depends on the order in which
    the interpreter iterates the set of ids: the label "Danielle (US)"
    with the ids "Daniel" and "Danielle" listed resolves to either. *)
Theorem a_voice_label_resolves_to_an_id_it_holds
    (env : Main.outside) (raw : string) (catalog : list Main.catalog_entry) :
  ascii_text raw ->
  let s := py_strip raw in
  let ids := filter (fun i => i <> "") (map Main.entry_id catalog) in
  (s = "" -> Main.sanitize_voice_id env raw catalog = "") /\
  (s ∈ ids -> Main.sanitize_voice_id env raw catalog = s) /\
  (s <> "" -> s ∉ ids ->
   forall vid, vid ∈ ids -> contains vid s = true ->
     (Main.sanitize_voice_id env raw catalog ∈ ids) /\
     contains (Main.sanitize_voice_id env raw catalog) s = true /\
     ((forall other, other ∈ ids -> contains other s = true -> other = vid) ->
      Main.sanitize_voice_id env raw catalog = vid)) /\
  (Main.sanitize_voice_id (main_outside_iterating as_added polly_two_voices)
     "Danielle (US)"
     (catalog_of (main_outside_iterating as_added polly_two_voices)
        "us-east-1") = "Daniel" /\
   Main.sanitize_voice_id
     (main_outside_iterating last_added_first polly_two_voices)
     "Danielle (US)"
     (catalog_of (main_outside_iterating last_added_first polly_two_voices)
        "us-east-1") = "Danielle").
Proof.
  intros _ s ids. unfold Main.sanitize_voice_id. cbv zeta.
  fold s. fold ids.
  split; [| split; [| split]].
  - intros ->. reflexivity.
  - intros Hin.
    destruct (String.eqb_spec s "") as [Hs | Hs].
    + exfalso. rewrite Hs in Hin.
      by apply list_elem_of_filter in Hin as [Hne _].
    + by rewrite bool_decide_eq_true_2.
  - intros Hs Hnotin vid Hvid Hc.
    apply String.eqb_neq in Hs. rewrite Hs.
    rewrite (bool_decide_eq_false_2 _ Hnotin).
    assert (Hfound :
              vid ∈ filter (fun v => contains v s = true)
                      (Main.iterate (Main.set_order env) ids)).
    { apply list_elem_of_filter. split; [exact Hc |].
      rewrite (Main.iterate_arranges (Main.set_order env) ids).
      by apply elem_of_remove_dups. }
    destruct (filter (fun v => contains v s = true)
                (Main.iterate (Main.set_order env) ids)) as [|x r] eqn:E;
      [by apply elem_of_nil in Hfound |].
    assert (Hx : x ∈ filter (fun v => contains v s = true)
                       (Main.iterate (Main.set_order env) ids))
      by (rewrite E; apply list_elem_of_here).
    apply list_elem_of_filter in Hx as [Hxc Hxi].
    rewrite (Main.iterate_arranges (Main.set_order env) ids) in Hxi.
    rewrite elem_of_remove_dups in Hxi.
    split; [exact Hxi |]. split; [exact Hxc |].
    intros Honly. by apply Honly.
  - split; vm_compute; reflexivity.
Qed.

Lemma a_voice_label_resolves_to_an_id_it_holds_witness :
  let env := main_outside_iterating last_added_first polly_two_voices in
  let catalog := catalog_of env "us-east-1" in
  Main.sanitize_voice_id env " Danielle " catalog = py_strip " Danielle ".
Proof.
  intros env catalog.
  apply (proj1 (proj2 (a_voice_label_resolves_to_an_id_it_holds
                         env " Danielle " catalog
                         ltac:(unfold ascii_text;
                               apply (bool_decide_unpack _);
                               vm_compute; reflexivity)))).
  apply (bool_decide_unpack _). vm_compute; reflexivity.
Defined.

Section RouteFacts.










End RouteFacts.


